(** * sequelize-swagger-generator: the annotation-to-schema compiler

    A shallow embedding of [src/lib/swagger.js] (type expression compiler,
    option grammar, document assembler) and of the helper modules it is
    shipped with, followed by the properties stated about them.

    JavaScript values are modelled by the type [json]; objects keep their
    keys in insertion order (the keys the source writes are names, URIs
    and HTTP methods; the engine's numeric ordering of integer-like keys
    is left out).  Strings are sequences of 8-bit characters.  The white
    space and the letter case of this development are those of ASCII;
    text outside ASCII is carried along as it is, and the properties that
    rest on case or on white space are stated for ASCII text. *)

From Stdlib Require Import String Ascii List ZArith Bool Lia.
From Stdlib Require Import Decimal DecimalString.
Import ListNotations.
Local Open Scope string_scope.
Local Open Scope list_scope.

(** ** String primitives of the host language *)

Module Text.

Definition LF : ascii := "010"%char.
Definition CR : ascii := "013"%char.
Definition DQUOTE : ascii := "034"%char.
Definition QUOTE : ascii := "039"%char.

Definition eqc (a b : ascii) : bool := Ascii.eqb a b.

(** [\s] restricted to ASCII: TAB, LF, VT, FF, CR and space. *)
Definition is_space (c : ascii) : bool :=
  let n := nat_of_ascii c in
  (((9 <=? n) && (n <=? 13)) || (n =? 32))%nat.

(** [[a-zA-Z0-9]] *)
Definition is_alnum (c : ascii) : bool :=
  let n := nat_of_ascii c in
  (((48 <=? n) && (n <=? 57)) || ((65 <=? n) && (n <=? 90))
   || ((97 <=? n) && (n <=? 122)))%nat.

(** A position is the start of a line (the [m] flag of a regular
    expression) when it follows a line terminator. *)
Definition is_line_end (c : ascii) : bool := eqc c LF || eqc c CR.

Definition snoc (s : string) (c : ascii) : string := s ++ String c "".

Fixpoint drop_while (p : ascii -> bool) (s : string) : string :=
  match s with
  | String c s' => if p c then drop_while p s' else s
  | "" => ""
  end.

Fixpoint rev (s : string) : string :=
  match s with
  | String c s' => snoc (rev s') c
  | "" => ""
  end.

(** [String.prototype.trim] *)
Definition trim (s : string) : string :=
  rev (drop_while is_space (rev (drop_while is_space s))).

Definition lower (c : ascii) : ascii :=
  let n := nat_of_ascii c in
  if ((65 <=? n) && (n <=? 90))%nat then ascii_of_nat (n + 32) else c.

(** [String.prototype.toLowerCase] *)
Fixpoint toLowerCase (s : string) : string :=
  match s with
  | String c s' => String (lower c) (toLowerCase s')
  | "" => ""
  end.

(** [String.prototype.split] with a non-empty literal separator.  [cur]
    is the piece being read; [skip] counts the characters of a separator
    found at an earlier position that are still to be passed over. *)
Fixpoint split_from (sep cur s : string) (skip : nat) : list string :=
  match s with
  | "" => [cur]
  | String c s' =>
      match skip with
      | S k => split_from sep cur s' k
      | O =>
          if prefix sep s
          then cur :: split_from sep "" s' (String.length sep - 1)
          else split_from sep (snoc cur c) s' 0
      end
  end.

Definition split (sep s : string) : list string := split_from sep "" s 0.

(** [String.prototype.replace] with a literal pattern: the first
    occurrence only. *)
Fixpoint replace_from (pat by_ s : string) (skip : nat) (done : bool)
  : string :=
  match s with
  | "" => ""
  | String c s' =>
      match skip with
      | S k => replace_from pat by_ s' k done
      | O =>
          if negb done && prefix pat s
          then by_ ++ replace_from pat by_ s' (String.length pat - 1) true
          else String c (replace_from pat by_ s' 0 done)
      end
  end.

Definition replace_first (pat by_ s : string) : string :=
  match pat with
  | "" => by_ ++ s
  | _ => replace_from pat by_ s 0 false
  end.

(** [s.replace(/[c]/g, d)] for single characters. *)
Fixpoint replace_chars (c d : ascii) (s : string) : string :=
  match s with
  | String x s' => String (if eqc x c then d else x) (replace_chars c d s')
  | "" => ""
  end.

Fixpoint span_length (p : ascii -> bool) (s : string) : nat :=
  match s with
  | String c s' => if p c then S (span_length p s') else 0
  | "" => 0
  end.

Fixpoint drop (n : nat) (s : string) : string :=
  match n, s with
  | S k, String _ s' => drop k s'
  | _, _ => s
  end.

(** Length of the match of [[\n]{1}[\s]*[-]{1}[\s]*] at the head of [s].
    Both stars are greedy, and neither can give a character back: what
    follows the first one is a dash, which is not white space. *)
Definition bullet_match (s : string) : option nat :=
  match s with
  | String c s1 =>
      if eqc c LF then
        let w1 := span_length is_space s1 in
        match drop w1 s1 with
        | String d s2 =>
            if eqc d "-" then Some (1 + w1 + 1 + span_length is_space s2)
            else None
        | "" => None
        end
      else None
  | "" => None
  end.

(** [description.replace(optionsRegExp, separator)]: every bullet,
    left to right, becomes the separator. *)
Fixpoint replace_bullets (sep s : string) (skip : nat) : string :=
  match s with
  | "" => ""
  | String c s' =>
      match skip with
      | S k => replace_bullets sep s' k
      | O =>
          match bullet_match s with
          | Some n => sep ++ replace_bullets sep s' (n - 1)
          | None => String c (replace_bullets sep s' 0)
          end
      end
  end.

(** Length of the match of [[a-zA-Z0-9]*:{1}] at the head of [s]. *)
Definition key_match (s : string) : option nat :=
  let n := span_length is_alnum s in
  match drop n s with
  | String c _ => if eqc c ":" then Some (S n) else None
  | "" => None
  end.

Fixpoint take (n : nat) (s : string) : string :=
  match n, s with
  | S k, String c s' => String c (take k s')
  | _, _ => ""
  end.

(** [option.split(optionKeyRegExp)] for [/(^[a-zA-Z0-9]*:{1})/m]: the
    string is cut at every key found at the start of a line, and the key
    (the capture group) is kept between the pieces.  [bol] tells whether
    the current position starts a line. *)
Fixpoint split_keys_from (cur s : string) (skip : nat) (bol : bool)
  : list string :=
  match s with
  | "" => [cur]
  | String c s' =>
      match skip with
      | S k => split_keys_from cur s' k false
      | O =>
          match (if bol then key_match s else None) with
          | Some n => cur :: take n s :: split_keys_from "" s' (n - 1) false
          | None => split_keys_from (snoc cur c) s' 0 (is_line_end c)
          end
      end
  end.

Definition split_keys (s : string) : list string :=
  split_keys_from "" s 0 true.

(** [optionKeyRegExp.test(s)] *)
Fixpoint test_key_from (s : string) (bol : bool) : bool :=
  match s with
  | "" => false
  | String c s' =>
      (if bol then match key_match s with Some _ => true | None => false end
       else false)
      || test_key_from s' (is_line_end c)
  end.

Definition test_key (s : string) : bool := test_key_from s true.

(** [key.replace(/[:]$/, '')] *)
Definition strip_colon (s : string) : string :=
  match rev s with
  | String c r => if eqc c ":" then rev r else s
  | "" => s
  end.

(** Decimal numerals. *)
Definition of_nat (n : nat) : string :=
  NilZero.string_of_uint (Nat.to_uint n).

Definition of_Z (z : Z) : string := NilZero.string_of_int (Z.to_int z).

(** [str.split(/\s+/)]: [cur] is the piece being read, [inside] tells
    whether the character before was white space. *)
Fixpoint split_spaces_from (cur s : string) (inside : bool) : list string :=
  match s with
  | "" => [cur]
  | String c s' =>
      if is_space c
      then if inside then split_spaces_from cur s' true
           else cur :: split_spaces_from "" s' true
      else split_spaces_from (snoc cur c) s' false
  end.

Definition split_spaces (s : string) : list string :=
  split_spaces_from "" s false.

End Text.

(** A string without the character [.] *)
Fixpoint dotless (s : string) : bool :=
  match s with
  | "" => true
  | String c s' => negb (Ascii.eqb c ".") && dotless s'
  end.

(** ** Values *)

(** A number: an integer, an infinity, [NaN], or the zero with a minus
    sign.  The numbers that are no integers are left out. *)
Inductive numeric : Type :=
| NaN
| Infinity (negative : bool)
| MinusZero
| Integer (n : Z).

Coercion Integer : Z >-> numeric.
Bind Scope Z_scope with numeric.

Unset Elimination Schemes.
Inductive json : Type :=
| JUndefined
| JNull
| JBool (b : bool)
| JNum (n : numeric)
| JStr (s : string)
| JArr (items : list json)
| JObj (fields : list (string * json)).
Set Elimination Schemes.

(** An object: its own enumerable properties, in insertion order. *)
Definition obj : Type := list (string * json).

Fixpoint lookup (k : string) (o : obj) : option json :=
  match o with
  | [] => None
  | (k', v) :: o' => if String.eqb k k' then Some v else lookup k o'
  end.

(** [o[k] = v]: an existing key keeps its place, a new one goes last. *)
Fixpoint assign (k : string) (v : json) (o : obj) : obj :=
  match o with
  | [] => [(k, v)]
  | (k', v') :: o' =>
      if String.eqb k k' then (k, v) :: o' else (k', v') :: assign k v o'
  end.

Definition keys (o : obj) : list string := map fst o.

(** The members every object literal inherits from [Object.prototype]. *)
Definition Object_prototype : list string :=
  [ "constructor"; "__defineGetter__"; "__defineSetter__"; "hasOwnProperty";
    "__lookupGetter__"; "__lookupSetter__"; "isPrototypeOf";
    "propertyIsEnumerable"; "toString"; "valueOf"; "__proto__";
    "toLocaleString" ].

Definition mem (k : string) (l : list string) : bool :=
  existsb (String.eqb k) l.

Definition inherited (k : string) : bool := mem k Object_prototype.

Definition truthy (v : json) : bool :=
  match v with
  | JUndefined | JNull => false
  | JBool b => b
  | JNum (Integer n) => negb (Z.eqb n 0)
  | JNum (Infinity _) => true
  | JNum _ => false
  | JStr s => negb (String.eqb s "")
  | JArr _ | JObj _ => true
  end.

Definition is_undefined (v : json) : bool :=
  match v with JUndefined => true | _ => false end.

Fixpoint indexed_from (i : nat) (l : list json) : obj :=
  match l with
  | [] => []
  | v :: l' => (Text.of_nat i, v) :: indexed_from (S i) l'
  end.

Definition chars (s : string) : list json :=
  map (fun c => JStr (String c "")) (list_ascii_of_string s).

(** [{...v}]: the own enumerable properties of [v]. *)
Definition spread (v : json) : obj :=
  match v with
  | JObj o => o
  | JArr l => indexed_from 0 l
  | JStr s => indexed_from 0 (chars s)
  | _ => []
  end.

(** [{...o, ...fields}], and a run of assignments [o[k] = v]. *)
Definition assigns (fields : obj) (o : obj) : obj :=
  fold_left (fun o kv => assign (fst kv) (snd kv) o) fields o.

(** ** Outcomes

    A call returns, throws, or leaves what this development models.  The
    last happens where the compiler reads, through a name taken from its
    input, a member inherited from [Object.prototype]; where a property
    named [__proto__] is written or merged; where the double of a numeral
    takes rounding; and where a member is read from a value that is not
    an object.  Each definition says where it does so. *)

Inductive error : Type :=
| UnknownModel (field : option string) (model : string)
| UnknownModelProperty (field : option string) (property model : string)
| InvalidLocation (field : option string) (location : string)
| InvalidIn (value : json)
| TypeError
| SyntaxError
| RangeError.

Inductive outcome (A : Type) : Type :=
| Ok (a : A)
| Throw (e : error)
| Beyond.

Arguments Ok {A} a.
Arguments Throw {A} e.
Arguments Beyond {A}.

Definition bind {A B : Type} (m : outcome A) (k : A -> outcome B)
  : outcome B :=
  match m with
  | Ok a => k a
  | Throw e => Throw e
  | Beyond => Beyond
  end.

Notation "x <- m ;; k" := (bind m (fun x => k))
  (at level 61, m at next level, right associativity).

(** Evaluation of the elements of an array literal or of a [map] callback,
    left to right. *)
Fixpoint sequence {A : Type} (l : list (outcome A)) : outcome (list A) :=
  match l with
  | [] => Ok []
  | m :: l' => a <- m ;; r <- sequence l' ;; Ok (a :: r)
  end.

(** [l.reduce((acc, x) => f(x), {})]: every element is evaluated, the last
    result is kept. *)
Definition reduce_last (l : list (outcome json)) : outcome json :=
  fold_left (fun acc m => _ <- acc ;; m) l (Ok (JObj [])).

(** [v[k]], read. *)
Definition member (v : json) (k : string) : outcome json :=
  match v with
  | JUndefined | JNull => Throw TypeError
  | JObj o =>
      match lookup k o with
      | Some x => Ok x
      | None => if inherited k then Beyond else Ok JUndefined
      end
  | _ => Beyond
  end.

(** [o[k] = v] with a key taken from the input. *)
Definition store (k : string) (v : json) (o : obj) : outcome obj :=
  if String.eqb k "__proto__" then Beyond else Ok (assign k v o).

(** What the host supplies: [evaluate], which tells of a value whether
    the source text [new RegExp(<value>)], compiled with [Function] as
    [isRegExp] does, runs without throwing; and [JSON.parse], which throws
    a [SyntaxError] where this returns [None]. *)
Class Host : Type := {
  evaluate : json -> bool;
  JSON_parse : string -> option json
}.

(** A character with which no expression starts: behind [new RegExp(] it
    makes a text that does not compile, whatever follows it. *)
Definition opens_no_expression (c : ascii) : bool :=
  match c with
  | "^" | "*" | "%" | "&" | "|" | "=" | ">" | "?" | ":" | ";" | "," | "]"
  | "}" => true
  | _ => false
  end%char.

(** [isRegExp(string)].  The value is written into the source text
    [new RegExp(<string>)], which is compiled and run: the answer is
    whether that returns.  The empty text gives [new RegExp()], which
    returns; a text that starts with a character no expression starts with
    does not compile; an object is written as [[object Object]], which
    does not compile either.  The other texts and values are the host's to
    evaluate. *)
Definition isRegExp {host : Host} (string : json) : bool :=
  match string with
  | JStr "" => true
  | JStr (String c _) =>
      if opens_no_expression c then false else evaluate string
  | JObj _ => false
  | _ => evaluate string
  end.

(** ** The type expression compiler *)

(** The nodes of the type expression parser.  [OtherSyntax] stands for its
    remaining kinds (record, function, rest, nullable, ... types), none of
    which has an entry in [typeConstructors]. *)
#[warnings="-register-all"]
Inductive ty : Type :=
| NullLiteral
| AllLiteral
| NameExpression (name : string)
| StringLiteralType (value : string)
| OptionalType (expression : ty)
| TypeApplication (expression : ty) (applications : list ty)
| UnionType (elements : list ty)
| OtherSyntax.

Definition is_NullLiteral (t : ty) : bool :=
  match t with NullLiteral => true | _ => false end.

Definition is_OptionalType (t : ty) : bool :=
  match t with OptionalType _ => true | _ => false end.

Definition simpleNameExpressions : list string :=
  [ "string"; "number"; "integer"; "boolean" ].

(** The keys of the table [typeConstructors]. *)
Definition typeConstructors : list string :=
  [ "StringLiteralType"; "NameExpression"; "Array"; "Object"; "Enum"; "Date";
    "File"; "OptionalType"; "TypeApplication"; "UnionType"; "AllLiteral" ].

(** A type argument as a constructor receives it: the node, its
    compilation, and the compilations of its own type arguments when it is
    itself a [TypeApplication].  The constructors are pure, so handing them
    the results is the same as letting them call the compiler. *)
Record argument : Type := {
  arg_node : ty;
  arg_value : outcome json;
  arg_inner : list (outcome json)
}.

Definition constructAllLiteral : json :=
  JObj [ ("nullable", JBool true);
         ("anyOf", JArr [ JObj [("type", JStr "string")];
                          JObj [("type", JStr "number")];
                          JObj [("type", JStr "integer")];
                          JObj [("type", JStr "boolean")];
                          JObj [("type", JStr "array"); ("items", JObj [])];
                          JObj [("type", JStr "object")] ]) ].

Section Compiler.

Context {host : Host}.

(** [components.schemas], the schema registry. *)
Variable schemas : obj.
Variable field : option string.
Variable options : obj.

Definition nonempty (applications : option (list argument)) : bool :=
  match applications with
  | Some (_ :: _) => true
  | _ => false
  end.

Definition arguments (applications : option (list argument))
  : list argument :=
  match applications with Some l => l | None => [] end.

Definition constructArray (applications : option (list argument))
  : outcome json :=
  match applications with
  | None => Throw TypeError
  | Some l =>
      arrayItems <- reduce_last (map arg_value l) ;;
      Ok (JObj [("type", JStr "array"); ("items", arrayItems)])
  end.

Definition constructObject (applications : option (list argument))
  : outcome json :=
  match applications with
  | None => Throw TypeError
  | Some l =>
      properties <-
        fold_left
          (fun acc application =>
             accumulator <- acc ;;
             match arg_node application with
             | TypeApplication (NameExpression propertyName) _ =>
                 v <- reduce_last (arg_inner application) ;;
                 store propertyName v accumulator
             | TypeApplication OtherSyntax _ => Beyond
             | TypeApplication _ _ =>
                 v <- reduce_last (arg_inner application) ;;
                 store "undefined" v accumulator
             | _ => Throw TypeError
             end)
          l (Ok []) ;;
      Ok (JObj [("type", JStr "object"); ("properties", JObj properties)])
  end.

Definition option_or (k : string) (default : json) : json :=
  match lookup k options with
  | Some v => if truthy v then v else default
  | None => default
  end.

Definition constructEnum (applications : option (list argument))
  : outcome json :=
  items <- (if nonempty applications
            then l <- sequence (map arg_value (arguments applications)) ;;
                 Ok (JArr l)
            else Ok (option_or "items" (JArr []))) ;;
  Ok (JObj [("type", JStr "string"); ("enum", items)]).

Definition with_format (a : argument) : outcome json :=
  v <- arg_value a ;;
  Ok (JObj [("type", JStr "string"); ("format", v)]).

Definition plain_string : json :=
  JObj (("type", JStr "string")
        :: match lookup "format" options with
           | Some v => if truthy v then [("format", v)] else []
           | None => []
           end).

Definition constructDate (applications : option (list argument))
  : outcome json :=
  if nonempty applications
  then l <- sequence (map with_format (arguments applications)) ;;
       Ok (JObj [("anyOf", JArr l)])
  else Ok plain_string.

Definition constructFile (applications : option (list argument))
  : outcome json :=
  if nonempty applications
  then props <- sequence (map with_format (arguments applications)) ;;
       match props with
       | [p] => Ok p
       | _ => Ok (JObj [("oneOf", JArr props)])
       end
  else Ok plain_string.

Definition formatOrPattern (a : argument) : outcome json :=
  formatOrPatternString <- arg_value a ;;
  Ok (JObj [ ("type", JStr "string");
             (if isRegExp formatOrPatternString then "pattern" else "format",
              formatOrPatternString) ]).

(** The tail of [constructNameExpression]: a reference to a model of the
    registry, or to one of its properties. *)
Definition reference (name : string) : outcome json :=
  let model := hd "" (Text.split "." name) in
  let modelProperty := nth_error (Text.split "." name) 1 in
  unknown <- (if String.eqb model "" then Ok false
              else s <- member (JObj schemas) model ;; Ok (is_undefined s)) ;;
  if (unknown : bool) then Throw (UnknownModel field model)
  else
    match modelProperty with
    | Some (String _ _ as property) =>
        s <- member (JObj schemas) model ;;
        ps <- member s "properties" ;;
        p <- member ps property ;;
        if is_undefined p
        then Throw (UnknownModelProperty field property model)
        else Ok (JObj [("$ref", JStr ("#/components/schemas/" ++ model
                                      ++ "/properties/" ++ property))])
    | _ => Ok (JObj [("$ref", JStr ("#/components/schemas/" ++ model))])
    end.

Definition constructNameExpression (name : string)
    (applications : option (list argument)) : outcome json :=
  if mem name simpleNameExpressions then
    if nonempty applications && String.eqb name "string" then
      props <- sequence (map formatOrPattern (arguments applications)) ;;
      match props with
      | [p] => Ok p
      | _ => Ok (JObj [("oneOf", JArr props)])
      end
    else Ok (JObj [("type", JStr name)])
  else if mem name typeConstructors then
    (* typeConstructors[type.name](type, field, options, applications),
       where [type] is this name expression *)
    if String.eqb name "Array" then constructArray applications
    else if String.eqb name "Object" then constructObject applications
    else if String.eqb name "Enum" then constructEnum applications
    else if String.eqb name "Date" then constructDate applications
    else if String.eqb name "File" then constructFile applications
    else if String.eqb name "AllLiteral" then Ok constructAllLiteral
    else if String.eqb name "StringLiteralType" then Ok JUndefined
    else if String.eqb name "NameExpression" then Throw RangeError
    else Throw TypeError
  else if inherited name then Beyond
  else reference name.

Definition constructUnionType (elements : list (bool * outcome json))
  : outcome json :=
  let nullable := existsb fst elements in
  let others := filter (fun e => negb (fst e)) elements in
  prop <- (if (1 <? List.length others)%nat
           then l <- sequence (map snd others) ;; Ok [("anyOf", JArr l)]
           else match others with
                | e :: _ => v <- snd e ;; Ok (spread v)
                | [] => Throw TypeError
                end) ;;
  Ok (JObj (assign "nullable" (JBool nullable) prop)).

(** [constructPropertyType], with the dispatch on [type.type] and the
    constructors that recurse ([constructOptionalType],
    [constructTypeApplication], [constructUnionType]) in place. *)
Fixpoint constructPropertyType (type : ty) : outcome json :=
  match type with
  | StringLiteralType value => Ok (JStr value)
  | NameExpression name => constructNameExpression name None
  | OptionalType expression =>
      v <- constructPropertyType expression ;; Ok (JObj (spread v))
  | TypeApplication expression applications =>
      v <- match expression with
           | NameExpression name =>
               constructNameExpression name
                 (Some (map (fun a =>
                               {| arg_node := a;
                                  arg_value := constructPropertyType a;
                                  arg_inner :=
                                    match a with
                                    | TypeApplication _ l =>
                                        map constructPropertyType l
                                    | _ => []
                                    end |})
                            applications))
           | _ => constructPropertyType expression
           end ;;
      Ok (JObj (spread v))
  | UnionType elements =>
      constructUnionType
        (map (fun e => (is_NullLiteral e, constructPropertyType e)) elements)
  | AllLiteral => Ok constructAllLiteral
  | NullLiteral | OtherSyntax => Throw TypeError
  end.

(** The schema [constructNameExpression] builds for one type argument of
    [string]. *)
Definition stringSchema (a : ty) : outcome json :=
  v <- constructPropertyType a ;;
  Ok (JObj [ ("type", JStr "string");
             (if isRegExp v then "pattern" else "format", v) ]).

End Compiler.

(** ** The option grammar *)

(** The keys of the table [keywordsObject]. *)
Definition keywordsObject : list string :=
  [ "in"; "description"; "not"; "deprecated"; "discriminator"; "example";
    "externalDocs"; "nullable"; "readOnly"; "writeOnly"; "xml"; "required";
    "oneOf"; "allOf"; "anyOf" ].

(** The keys of the table [keywordsParameter]. *)
Definition keywordsParameter : list string :=
  [ "title"; "format"; "pattern"; "enum"; "minimum"; "maximum";
    "exclusiveMinimum"; "exclusiveMaximum"; "multipleOf"; "minLength";
    "maxLength"; "minItems"; "maxItems"; "uniqueItems"; "minProperties";
    "maxProperties" ].

Definition compositions : list string := [ "allOf"; "anyOf"; "oneOf" ].

(** [typeof value === 'undefined' ? true : value === 'true'] *)
Definition flag (value : json) : json :=
  match value with
  | JUndefined => JBool true
  | JStr s => JBool (String.eqb s "true")
  | _ => JBool false
  end.

(** *** Numbers

    [Number(value)], the host's reading of a value as a number.  Around the
    numeral of a text white space is skipped; the empty text is 0; a
    numeral is [Infinity] or decimal digits with an optional point and an
    optional exponent, each with an optional sign in front, or, without
    sign, digits in base 16, 8 or 2 behind [0x], [0o] or [0b]; any other
    text is [NaN].  The result is a double.  This development holds it
    when it is an integer up to 2^53 in size, which a double holds
    exactly, an infinity, [NaN] or the zero with a minus sign; it leaves
    out the numerals of other values, whose double takes rounding. *)

Module Numeral.

Definition is_digit (c : ascii) : bool :=
  let n := nat_of_ascii c in ((48 <=? n) && (n <=? 57))%nat.

(** The value of a digit, in bases up to 16. *)
Definition digit (c : ascii) : option Z :=
  let n := Z.of_nat (nat_of_ascii c) in
  if ((48 <=? n) && (n <=? 57))%Z then Some (n - 48)%Z
  else if ((65 <=? n) && (n <=? 70))%Z then Some (n - 55)%Z
  else if ((97 <=? n) && (n <=? 102))%Z then Some (n - 87)%Z
  else None.

Fixpoint radix_from (base acc : Z) (s : string) : option Z :=
  match s with
  | "" => Some acc
  | String c s' =>
      match digit c with
      | Some d => if (d <? base)%Z then radix_from base (acc * base + d)%Z s'
                  else None
      | None => None
      end
  end.

(** One digit of the base or more. *)
Definition radix (base : Z) (s : string) : option Z :=
  match s with
  | "" => None
  | _ => radix_from base 0 s
  end.

(** An optional sign: whether it is a minus, and what follows it. *)
Definition signed (s : string) : bool * string :=
  match s with
  | String c r =>
      if Text.eqc c "+" then (false, r)
      else if Text.eqc c "-" then (true, r)
      else (false, s)
  | "" => (false, s)
  end.

(** The exponent part: nothing, or [e] or [E], an optional sign and
    digits. *)
Definition exponent (s : string) : option Z :=
  match s with
  | "" => Some 0%Z
  | String c r =>
      if Text.eqc c "e" || Text.eqc c "E" then
        match radix 10 (snd (signed r)) with
        | Some e => Some (if fst (signed r) then (- e)%Z else e)
        | None => None
        end
      else None
  end.

(** An unsigned decimal numeral [digits.digits exponent], with a digit
    before or behind the point: its digits read as one integer, and the
    power of ten that scales it. *)
Definition decimal (s : string) : option (Z * Z) :=
  let n := Text.span_length is_digit s in
  let integral := Text.take n s in
  let behind := match Text.drop n s with
                | String c r => if Text.eqc c "." then Some r else None
                | "" => None
                end in
  let fraction := match behind with
                  | Some r => Text.take (Text.span_length is_digit r) r
                  | None => ""
                  end in
  let rest := match behind with
              | Some r => Text.drop (Text.span_length is_digit r) r
              | None => Text.drop n s
              end in
  if String.eqb integral "" && String.eqb fraction "" then None
  else
    match radix_from 10 0 (integral ++ fraction), exponent rest with
    | Some m, Some e => Some (m, (e - Z.of_nat (String.length fraction))%Z)
    | _, _ => None
    end.

(** An integer as a double holds it. *)
Definition exact (negative : bool) (n : Z) : outcome numeric :=
  if (n =? 0)%Z then Ok (if negative then MinusZero else Integer 0)
  else if (n <=? 2 ^ 53)%Z then Ok (Integer (if negative then - n else n))
  else Beyond.

(** [m] times ten to the [e], for [m] that is not negative. *)
Definition scaled (negative : bool) (m e : Z) : outcome numeric :=
  if (m =? 0)%Z then exact negative 0
  else if (0 <=? e)%Z then
    if (e <=? 15)%Z then exact negative (m * 10 ^ e) else Beyond
  else if (Z.log2 m <? - e)%Z then Beyond
  else if (m mod 10 ^ (- e) =? 0)%Z then exact negative (m / 10 ^ (- e))
  else Beyond.

(** A numeral in base 16, 8 or 2. *)
Definition prefixed (s : string) : option (option Z) :=
  match s with
  | String z (String c ds) =>
      if Text.eqc z "0" then
        if Text.eqc c "x" || Text.eqc c "X" then Some (radix 16 ds)
        else if Text.eqc c "o" || Text.eqc c "O" then Some (radix 8 ds)
        else if Text.eqc c "b" || Text.eqc c "B" then Some (radix 2 ds)
        else None
      else None
  | _ => None
  end.

Definition of_text (text : string) : outcome numeric :=
  let s := Text.trim text in
  if String.eqb s "" then Ok (Integer 0)
  else
    match prefixed s with
    | Some (Some n) => exact false n
    | Some None => Ok NaN
    | None =>
        if String.eqb (snd (signed s)) "Infinity"
        then Ok (Infinity (fst (signed s)))
        else
          match decimal (snd (signed s)) with
          | Some (m, e) => scaled (fst (signed s)) m e
          | None => Ok NaN
          end
    end.

End Numeral.

(** [Number(value)]; arrays and objects, which the host first turns into
    a text, are left out. *)
Definition toNumber (value : json) : outcome numeric :=
  match value with
  | JUndefined => Ok NaN
  | JNull => Ok (Integer 0)
  | JBool b => Ok (Integer (if b then 1 else 0))
  | JNum n => Ok n
  | JStr text => Numeral.of_text text
  | JArr _ | JObj _ => Beyond
  end.

(** [new Number(value).valueOf()] *)
Definition number (value : json) : outcome numeric := toNumber value.

(** [new Number(value).valueOf().toFixed()]: the digits of an integer
    below 10^21 in size; beyond that the host writes an exponent, which
    is left out. *)
Definition toFixed (value : json) : outcome string :=
  n <- toNumber value ;;
  match n with
  | NaN => Ok "NaN"
  | Infinity negative => Ok (if negative then "-Infinity" else "Infinity")
  | MinusZero => Ok "0"
  | Integer z => if (Z.abs z <? 10 ^ 21)%Z then Ok (Text.of_Z z) else Beyond
  end.

Section Options.

Context {host : Host}.

Definition parse (text : string) : outcome json :=
  match JSON_parse text with
  | Some v => Ok v
  | None => Throw SyntaxError
  end.

(** [keywordsParameter[key](value)] for a key of the table. *)
Definition coerce (key : string) (value : json) : outcome json :=
  if mem key ["title"; "format"; "pattern"] then Ok value
  else if String.eqb key "enum" then
    match value with
    | JStr s => parse (Text.replace_chars Text.QUOTE Text.DQUOTE s)
    | _ => Throw TypeError
    end
  else if mem key ["minimum"; "maximum"; "multipleOf"] then
    n <- number value ;; Ok (JNum n)
  else if mem key ["exclusiveMinimum"; "exclusiveMaximum"; "uniqueItems"]
  then Ok (flag value)
  else (* the remaining keys end in [.toFixed()] *)
    text <- toFixed value ;; Ok (JStr text).

(** [keywordsObject[key](value)]; a key outside the table is not a
    function. *)
Definition keyword (key : string) (value : json) : outcome json :=
  if String.eqb key "in" then
    match value with
    | JStr s =>
        if mem s ["query"; "path"; "body"; "headers"] then Ok value
        else Throw (InvalidIn value)
    | _ => Throw (InvalidIn value)
    end
  else if String.eqb key "deprecated" then Ok (JBool true)
  else if mem key ["nullable"; "readOnly"; "writeOnly"] then Ok (flag value)
  else if String.eqb key "required" then
    match value with
    | JStr s => parse (Text.replace_first (String Text.QUOTE "")
                                       (String Text.DQUOTE "") s)
    | _ => Throw TypeError
    end
  else if String.eqb key "not" then Ok (JObj (spread value))
  else if mem key compositions then
    match value with
    | JArr _ => Ok value
    | JStr text => Ok (JArr (chars text))
    | _ => Throw TypeError
    end
  else if mem key keywordsObject then Ok value
  else Throw TypeError.

(** [levelStore[levelKey] = ...; option.map((variant) =>
    levelStore[levelKey].push({ [key]: variant }))] *)
Definition promote (levelKey key : string) (option : json) (levelStore : obj)
  : outcome obj :=
  match option with
  | JArr variants =>
      let variant v := JObj [(key, v)] in
      match lookup levelKey levelStore with
      | None | Some JUndefined =>
          Ok (assign levelKey (JArr (map variant variants)) levelStore)
      | Some (JArr l) =>
          Ok (assign levelKey (JArr (l ++ map variant variants)) levelStore)
      | Some (JStr text) =>
          Ok (assign levelKey (JArr (chars text ++ map variant variants))
                levelStore)
      | Some _ => Throw TypeError
      end
  | _ => Throw TypeError
  end.

(** One turn of the loop [for (const key in store)].  A store with a
    property of its own named [__proto__], which [optionsReducer] never
    makes, is left out. *)
Definition constructOption
    (nested : json -> option string -> outcome obj)
    (level : option string) (levelStore : obj) (key : string) (option : json)
  : outcome obj :=
  let levelKey := match level with
                  | Some (String _ _ as l) => l
                  | _ => "anyOf"
                  end in
  if String.eqb key "level" then Ok levelStore
  else if String.eqb key "__proto__" then Beyond
  else if mem key keywordsParameter || inherited key then
    (* typeof keywordsParameter[key] is not 'undefined': a key of the
       table, or a member the table inherits *)
    match level with
    | Some (String _ _) => promote levelKey key option levelStore
    | _ =>
        (* option.length === 1 ? levelStore[key] = option[0] : ... *)
        match option with
        | JArr [v] => Ok (assign key v levelStore)
        | JStr (String c "") => Ok (assign key (JStr (String c "")) levelStore)
        | JObj o =>
            match lookup "length" o with
            | Some (JNum (Integer 1)) =>
                Ok (assign key (match lookup "0" o with
                                | Some v => v
                                | None => JUndefined
                                end) levelStore)
            | _ => Throw TypeError
            end
        | _ => promote levelKey key option levelStore
        end
    end
  else if mem key compositions then
    r <- nested option (Some key) ;;
    Ok (assign key (match lookup key r with Some v => v | None => JUndefined end)
          levelStore)
  else if String.eqb key "not" then
    r <- nested option None ;;
    Ok (assign key (JObj r) levelStore)
  else
    v <- keyword key option ;;
    Ok (assign key v levelStore).

(** [constructOptions(store, level)].  The source passes a store that is
    an object; the loop over anything else is spelled out for the
    recursive calls. *)
Fixpoint constructOptions (store : json) (level : option string)
  : outcome obj :=
  match store with
  | JObj entries =>
      (fix loop (entries : obj) (levelStore : obj) : outcome obj :=
         match entries with
         | [] => Ok levelStore
         | (key, option) :: rest =>
             levelStore' <- constructOption constructOptions level levelStore
                              key option ;;
             loop rest levelStore'
         end) entries []
  | JArr (_ :: _) | JStr (String _ _) => Throw TypeError
  | _ => Ok []
  end.

(** [accumulator[key] = undefined ? [v] : [v, ...accumulator[key]]] *)
Definition accumulate (key : string) (v : json) (accumulator : obj)
  : outcome obj :=
  match lookup key accumulator with
  | None | Some JUndefined => Ok (assign key (JArr [v]) accumulator)
  | Some (JArr l) => Ok (assign key (JArr (v :: l)) accumulator)
  | Some (JStr text) => Ok (assign key (JArr (v :: chars text)) accumulator)
  | Some _ => Throw TypeError
  end.

(** The callback of the [reduce] of [optionsReducer]. *)
Definition reduceOption (accumulator : obj) (option : string)
  : outcome obj :=
  let pieces := filter (fun v => negb (String.eqb v ""))
                       (Text.split_keys option) in
  match nth_error pieces 0 with
  | None =>
      (* [key] is undefined: everything else is a description *)
      Ok (assign "description" JUndefined accumulator)
  | Some key0 =>
      let value0 := nth_error pieces 1 in
      let key := if Text.test_key key0 then Text.strip_colon key0 else key0 in
      let value := match value0 with
                   | Some v => JStr (if Text.test_key key0 then Text.trim v
                                     else v)
                   | None => JUndefined
                   end in
      if mem key keywordsObject || inherited key then
        (* typeof keywordsObject[key] is not 'undefined': a key of the
           table, or a member the table inherits *)
        if mem key ["not"; "allOf"; "anyOf"; "oneOf"]
        then Ok (assign "level" (JStr key) (assign key (JObj []) accumulator))
        else if String.eqb key "__proto__"
        then (* the setter of [__proto__] ignores a string and [undefined] *)
          Ok accumulator
        else Ok (assign key value accumulator)
      else if mem key keywordsParameter then
        match lookup "level" accumulator with
        | None | Some JUndefined =>
            v <- coerce key value ;;
            accumulate key v accumulator
        | Some (JStr level) =>
            if mem level ["allOf"; "anyOf"; "oneOf"; "not"] then
              v <- coerce key value ;;
              match lookup level accumulator with
              | Some (JObj nested) =>
                  nested' <- accumulate key v nested ;;
                  Ok (assign level (JObj nested') accumulator)
              | _ => Beyond
              end
            else Ok accumulator
        | Some _ => Ok accumulator
        end
      else Ok (assign "description" (JStr key) accumulator)
  end.

Definition optionsReducer (description : string) : outcome obj :=
  let separator := "~~~" in
  let rawOptions := Text.replace_bullets separator description 0 in
  let optionsArray := Text.split separator rawOptions in
  fold_left (fun acc option => accumulator <- acc ;;
                               reduceOption accumulator option)
            optionsArray (Ok [("level", JUndefined)]).

End Options.

(** ** Merging documents

    [deepmerge] is the npm package of that name, in its release 4.3.1,
    which the source calls with the default options: two objects are
    merged key by key, recursively where both sides have the key and the
    incoming value is an object or an array; two arrays are merged by
    concatenating them; in every other case the incoming value replaces
    the present one.  What the result takes over it takes as a copy, and
    the package leaves out of a copy, and of a merge, every incoming key
    that the receiving object inherits and does not have itself: the
    member names of [Object.prototype]. *)

Module Deepmerge.

Definition isMergeableObject (v : json) : bool :=
  match v with JObj _ | JArr _ => true | _ => false end.

(** [cloneUnlessOtherwiseSpecified(value)], which is
    [deepmerge(emptyTarget(value), value)] for an array or an object. *)
Fixpoint clone (v : json) : json :=
  match v with
  | JArr l => JArr (map clone l)
  | JObj o =>
      JObj ((fix mergeObject (o : obj) (destination : obj) : obj :=
               match o with
               | [] => destination
               | (key, x) :: o' =>
                   mergeObject o'
                     (if inherited key then destination
                      else assign key (clone x) destination)
               end) o [])
  | _ => v
  end.

(** [propertyIsUnsafe(target, key)]: the key is in the target without
    being a property of its own.  On a target that is no object the test
    [key in target] throws, which the package takes for [false]. *)
Definition propertyIsUnsafe (target : json) (key : string) : bool :=
  match target with
  | JObj t => inherited key && negb (mem key (keys t))
  | _ => false
  end.

(** [deepmerge(target, source)] for a source that is an array or an
    object, as the package enters it and as it calls itself. *)
Fixpoint merge (target source : json) : json :=
  match source with
  | JArr s =>
      match target with
      | JArr t => JArr (map clone (t ++ s))
      | _ => clone source
      end
  | JObj s =>
      match target with
      | JArr _ => clone source
      | _ =>
          let t := match target with JObj t => t | _ => [] end in
          JObj ((fix mergeObject (s : obj) (destination : obj) : obj :=
                   match s with
                   | [] => destination
                   | (key, v) :: s' =>
                       mergeObject s'
                         (if propertyIsUnsafe target key then destination
                          else
                            assign key
                              (match lookup key t with
                               | Some x =>
                                   if isMergeableObject v then merge x v
                                   else clone v
                               | None => clone v
                               end)
                              destination)
                   end) s (map (fun kv => (fst kv, clone (snd kv))) t))
      end
  | _ => source
  end.

(** A value none of whose objects has a property named [__proto__]. *)
Fixpoint proto_free (v : json) : bool :=
  match v with
  | JObj o =>
      (fix all (o : obj) : bool :=
         match o with
         | [] => true
         | (k, x) :: o' =>
             negb (String.eqb k "__proto__") && proto_free x && all o'
         end) o
  | JArr l =>
      (fix all (l : list json) : bool :=
         match l with
         | [] => true
         | x :: l' => proto_free x && all l'
         end) l
  | _ => true
  end.

(** The call of the source: the incoming value is the [paths] of a
    fragment, an object.  A present value with a property of its own
    named [__proto__], which the package would assign to the result and
    so change what the result inherits, is left out. *)
Definition deepmerge (target source : json) : outcome json :=
  if isMergeableObject source && proto_free target
  then Ok (merge target source)
  else Beyond.

(** The loops of [mergeObject], in [clone] and in [merge]. *)
Definition cloneFields (o destination : obj) : obj :=
  fold_left (fun destination kv =>
               if inherited (fst kv) then destination
               else assign (fst kv) (clone (snd kv)) destination)
            o destination.

Definition merged (t : obj) (key : string) (v : json) : json :=
  match lookup key t with
  | Some x => if isMergeableObject v then merge x v else clone v
  | None => clone v
  end.

Definition mergeFields (target : json) (t s destination : obj) : obj :=
  fold_left (fun destination kv =>
               if propertyIsUnsafe target (fst kv) then destination
               else assign (fst kv) (merged t (fst kv) (snd kv)) destination)
            s destination.

(** The merge of values that have no member name of [Object.prototype]
    among their keys: nothing is left out, and a copy is the value. *)
Fixpoint overlay (target source : json) : json :=
  match source with
  | JArr s =>
      match target with
      | JArr t => JArr (t ++ s)
      | _ => source
      end
  | JObj s =>
      match target with
      | JArr _ => source
      | _ =>
          let t := match target with JObj t => t | _ => [] end in
          JObj ((fix mergeObject (s : obj) (destination : obj) : obj :=
                   match s with
                   | [] => destination
                   | (key, v) :: s' =>
                       mergeObject s'
                         (assign key
                            (match lookup key t with
                             | Some x =>
                                 if isMergeableObject v then overlay x v else v
                             | None => v
                             end)
                            destination)
                   end) s t)
      end
  | _ => source
  end.

Fixpoint distinct (l : list string) : bool :=
  match l with
  | [] => true
  | k :: l' => negb (mem k l') && distinct l'
  end.

(** A value whose objects have each key once, none of them a member name
    of [Object.prototype]. *)
Fixpoint plain (v : json) : bool :=
  match v with
  | JObj o =>
      distinct (keys o)
      && (fix all (o : obj) : bool :=
            match o with
            | [] => true
            | (k, x) :: o' => negb (inherited k) && plain x && all o'
            end) o
  | JArr l =>
      (fix all (l : list json) : bool :=
         match l with
         | [] => true
         | x :: l' => plain x && all l'
         end) l
  | _ => true
  end.

(** The loop of [overlay] over the keys of the incoming object. *)
Definition combine (t : obj) (key : string) (v : json) : json :=
  match lookup key t with
  | Some x => if isMergeableObject v then overlay x v else v
  | None => v
  end.

Fixpoint mergeObject (t s destination : obj) : obj :=
  match s with
  | [] => destination
  | (key, v) :: s' => mergeObject t s' (assign key (combine t key v) destination)
  end.

(** A value with the contents of its arrays left out. *)
Fixpoint skeleton (v : json) : json :=
  match v with
  | JArr _ => JArr []
  | JObj o =>
      JObj ((fix fields (o : obj) : obj :=
               match o with
               | [] => []
               | (k, x) :: o' => (k, skeleton x) :: fields o'
               end) o)
  | _ => v
  end.

Definition skeleton_fields (o : obj) : obj :=
  map (fun kv => (fst kv, skeleton (snd kv))) o.

(** [K] with the key [k], last if it is new. *)
Definition add (K : list string) (k : string) : list string :=
  if mem k K then K else K ++ [k].

End Deepmerge.

(** ** helpers.js *)

Module Helpers.

(** [configuration.key || {}] *)
Definition or_empty (configuration : obj) (key : string) : json :=
  match lookup key configuration with
  | Some v => if truthy v then v else JObj []
  | None => JObj []
  end.

Definition buildOpenAPI3Base (configuration : obj) : obj :=
  [ ("openapi", JStr "3.0.1");
    ("info", or_empty configuration "info");
    ("servers", or_empty configuration "servers");
    ("tags", or_empty configuration "tags");
    ("paths", or_empty configuration "paths");
    ("components", or_empty configuration "components") ].

(** *** Sequelize models *)

(** What the source reads of a Sequelize data type: the name of its class
    ([type.constructor.name]), [type._length], [type.options] with its
    [length] and its [subtype] ([None] where there is none), [type.values],
    and [type.type], the type of the items of an array. *)
#[warnings="-register-all"]
Inductive dataType : Type := DataType {
  dt_name : string;
  dt_length : json;
  dt_options : option (json * option dataType);
  dt_values : json;
  dt_type : option dataType
}.

(** An attribute of a model, a value of [rawAttributes]. *)
Record attribute : Type := {
  fieldName : string;
  type : option dataType;
  allowNull : json;
  primaryKey : json
}.

(** A model: [model.name] and the values of [model.rawAttributes], in the
    order of [Object.values]. *)
Record model : Type := {
  modelName : string;
  rawAttributes : list attribute
}.

(** IPv4 with CIDR *)
Definition ipv4 : string :=
  ("^((25[0-5]|2[0-4][0-9]|[01]?[0-9][0-9]?).){3}(25[0-5]|2[0-4]"
   ++ "[0-9]|[01]?[0-9][0-9]?)(/(3[0-2]|2[0-9]|1[0-9]|[0-9]))?$")%string.

(** IPv6 with CIDR *)
Definition ipv6 : string :=
  ("^(([0-9a-fA-F]{1,4}:){7,7}[0-9a-fA-F]{1,4}|([0-9a-fA-F]{1,4}"
   ++ ":){1,7}:|([0-9a-fA-F]{1,4}:){1,6}:[0-9a-fA-F]{1,4}|([0-9a-fA"
   ++ "-F]{1,4}:){1,5}(:[0-9a-fA-F]{1,4}){1,2}|([0-9a-fA-F]{1,4}:){"
   ++ "1,4}(:[0-9a-fA-F]{1,4}){1,3}|([0-9a-fA-F]{1,4}:){1,3}(:[0-9a"
   ++ "-fA-F]{1,4}){1,4}|([0-9a-fA-F]{1,4}:){1,2}(:[0-9a-fA-F]{1,4}"
   ++ "){1,5}|[0-9a-fA-F]{1,4}:((:[0-9a-fA-F]{1,4}){1,6})|:((:[0-9a"
   ++ "-fA-F]{1,4}){1,7}|:)|fe80:(:[0-9a-fA-F]{0,4}){0,4}%[0-9a-zA-"
   ++ "Z]{1,}|::(ffff(:0{1,4}){0,1}:){0,1}((25[0-5]|(2[0-4]|1{0,1}["
   ++ "0-9]){0,1}[0-9]).){3,3}(25[0-5]|(2[0-4]|1{0,1}[0-9]){0,1}[0-"
   ++ "9])|([0-9a-fA-F]{1,4}:){1,4}:((25[0-5]|(2[0-4]|1{0,1}[0-9]){"
   ++ "0,1}[0-9]).){3,3}(25[0-5]|(2[0-4]|1{0,1}[0-9]){0,1}[0-9]))(/"
   ++ "((1(1[0-9]|2[0-8]))|([0-9][0-9])|([0-9])))?$")%string.

(** Host name *)
Definition hostname : string :=
  ("^(([a-zA-Z0-9]|[a-zA-Z0-9][a-zA-Z0-9-]*[a-zA-Z0-9]).)*([A-Za"
   ++ "-z0-9]|[A-Za-z0-9][A-Za-z0-9-]*[A-Za-z0-9])$")%string.

(** The pattern [inet] of the branch [INET] *)
Definition inet : string :=
  ("([0-9]{1,3}.){3}[0-9]{1,3}")%string.

(** One [if (type.constructor.name === ...)] statement of
    [constructProperty]: the fields it sets, read from the type, or one of
    the two statements that call [constructProperty] again. *)
Inductive rule : Type :=
| Fields (fields : dataType -> outcome obj)
| Items
| Subtype.

Definition sets (fields : obj) : rule := Fields (fun _ => Ok fields).

(** [prop.maxLength = type.options.length ? type._length : undefined] *)
Definition optionalLength (t : dataType) : outcome obj :=
  match dt_options t with
  | Some (length, _) =>
      Ok [ ("type", JStr "string");
           ("maxLength", if truthy length then dt_length t else JUndefined) ]
  | None => Throw TypeError
  end.

(** The statements of [constructProperty] that follow the test of
    [DataTypes], in their order. *)
Definition dataTypes : list (string * rule) :=
  [ ("ABSTRACT", sets [("type", JStr "object")]);
    ("ARRAY", Items);
    ("BIGINT", sets [("type", JStr "integer"); ("format", JStr "int64")]);
    ("BLOB", sets [("type", JStr "string"); ("format", JStr "binary")]);
    ("BOOLEAN", sets [("type", JStr "boolean")]);
    ("CHAR", Fields (fun t => Ok [ ("type", JStr "string");
                                   ("maxLength", dt_length t) ]));
    ("CIDR", sets [ ("type", JStr "string");
                    ("pattern", JStr ("((" ++ ipv4 ++ ") | (" ++ ipv6
                                      ++ ") | (" ++ hostname ++ "))")) ]);
    ("CITEXT", Fields optionalLength);
    ("DATE", sets [("type", JStr "string"); ("format", JStr "date-time")]);
    ("DATEONLY", sets [("type", JStr "string"); ("format", JStr "date")]);
    ("DECIMAL", sets [("type", JStr "number"); ("format", JStr "float")]);
    ("DOUBLE", sets [("type", JStr "number"); ("format", JStr "double")]);
    ("ENUM", Fields (fun t => Ok [ ("type", JStr "string");
                                   ("enum", dt_values t) ]));
    ("FLOAT", sets [("type", JStr "number"); ("format", JStr "float")]);
    ("GEOGRAPHY", sets [("type", JStr "string")]);
    ("GEOMETRY",
     sets [ ("type", JStr "object");
            ("required", JArr [JStr "type"; JStr "coordinates"]);
            ("properties",
             JObj [ ("crs", JObj [("type", JStr "object")]);
                    ("coordinates", JObj [ ("type", JStr "array");
                                           ("items", JStr "number") ]);
                    ("type",
                     JObj [ ("type", JStr "string");
                            ("enum", JArr [ JStr "Unknown"; JStr "Point";
                                            JStr "Multipoint";
                                            JStr "Polyline"; JStr "Polygon";
                                            JStr "Envelop" ]) ]) ]) ]);
    ("HSTORE", sets [("type", JStr "object")]);
    ("INET", sets [ ("type", JStr "string");
                    ("pattern",
                     JStr ("((" ++ ipv4 ++ " ? " ++ inet ++ ") | (" ++ ipv6
                           ++ " ? " ++ inet ++ ") | (" ++ hostname ++ " ? "
                           ++ inet ++ "))")) ]);
    ("INTEGER", sets [("type", JStr "integer"); ("format", JStr "int32")]);
    ("JSON", sets [("type", JStr "object")]);
    ("JSONB", sets [("type", JStr "object")]);
    ("MACADDR", sets [("type", JStr "string"); ("format", JStr "mac")]);
    ("MEDIUMINT", sets [("type", JStr "integer"); ("format", JStr "int24")]);
    ("NOW", sets [("type", JStr "integer"); ("format", JStr "int32")]);
    ("NUMBER", sets [("type", JStr "number")]);
    ("RANGE", Subtype);
    ("REAL", sets [("type", JStr "number"); ("format", JStr "float")]);
    ("SMALLINT", sets [("type", JStr "integer"); ("format", JStr "int16")]);
    ("STRING", Fields (fun t => Ok [ ("type", JStr "string");
                                     ("maxLength", dt_length t) ]));
    ("TEXT", Fields optionalLength);
    ("TIME", sets [ ("type", JStr "string");
                    ("format", JStr "partial-time") ]);
    ("TINYINT", sets [("type", JStr "integer"); ("format", JStr "int8")]);
    ("UUID", sets [("type", JStr "string"); ("format", JStr "uuid")]);
    ("UUIDV1", sets [("type", JStr "string"); ("format", JStr "uuidv1")]);
    ("UUIDV4", sets [("type", JStr "string"); ("format", JStr "uuidv4")]);
    ("VIRTUAL", sets [("type", JStr "object")]) ]%string.

(** [value === true], [value === false] *)
Definition strictly_true (value : json) : bool :=
  match value with JBool true => true | _ => false end.

Definition strictly_false (value : json) : bool :=
  match value with JBool false => true | _ => false end.

Section Sequelize.

(** [DataTypes[name]] is truthy: [name] is one of the names under which the
    Sequelize that is installed exports a data type. *)
Variable DataTypes : string -> bool.

(** [constructProperty({type, allowNull, primaryKey})], for a [type] that
    is not [undefined]. *)
Fixpoint constructProperty (type : dataType) (allowNull primaryKey : json)
  : outcome obj :=
  if negb (DataTypes (dt_name type)) then Ok []
  else
    fold_left
      (fun acc statement =>
         prop <- acc ;;
         if String.eqb (dt_name type) (fst statement) then
           match snd statement with
           | Fields fields =>
               set <- fields type ;; Ok (assigns set prop)
           | Items =>
               match dt_type type with
               | Some t =>
                   subtype <- constructProperty t JUndefined JUndefined ;;
                   Ok (assigns [ ("type", JStr "array");
                                 ("items", JObj subtype) ] prop)
               | None => Throw TypeError
               end
           | Subtype =>
               match dt_options type with
               | Some (_, Some t) =>
                   subtype <- constructProperty t JUndefined JUndefined ;;
                   Ok (assign "type"
                              (match lookup "type" subtype with
                               | Some v => v
                               | None => JUndefined
                               end) prop)
               | _ => Throw TypeError
               end
           end
         else Ok prop)
      dataTypes
      (Ok [ ("nullable", JBool (strictly_true allowNull));
            ("readOnly", JBool (strictly_true primaryKey)) ]).

(** [constructProperty(value)] for an attribute; one without a type has no
    [type.constructor]. *)
Definition constructAttribute (value : attribute) : outcome obj :=
  match type value with
  | Some t => constructProperty t (allowNull value) (primaryKey value)
  | None => Throw TypeError
  end.

(** The callback of the [reduce] of [constructRefModel].  The accumulator
    starts empty, so that its [required] is missing or an array, and its
    [properties] missing or an object. *)
Definition refAttribute (accumulator : obj) (value : attribute)
  : outcome obj :=
  let required := match lookup "required" accumulator with
                  | Some (JArr (x :: l)) => x :: l
                  | _ => []
                  end in
  let required := if strictly_false (allowNull value)
                  then required ++ [JStr (fieldName value)]
                  else required in
  let accumulator := assign "required" (JArr required) accumulator in
  let properties := match lookup "properties" accumulator with
                    | Some v => spread v
                    | None => []
                    end in
  property <- constructAttribute value ;;
  Ok (assign "properties"
             (JObj (assign (fieldName value) (JObj property) properties))
             accumulator).

Definition constructRefModel (m : model) : outcome obj :=
  refModel <- fold_left (fun acc value => accumulator <- acc ;;
                                          refAttribute accumulator value)
                        (rawAttributes m) (Ok []) ;;
  Ok [(modelName m, JObj refModel)].

Definition buildFromSequelize (models : list model) : outcome obj :=
  fold_left (fun acc value => accumulator <- acc ;;
                              refModel <- constructRefModel value ;;
                              Ok (assigns refModel accumulator))
            models (Ok []).

End Sequelize.

End Helpers.

(** ** swagger-helpers.js: the tag catalog *)

Record tagObject : Type := { name : string; description : string }.

Module SwaggerHelpers.

Definition _tagDuplicated (target : list tagObject) (tag : tagObject)
  : bool :=
  existsb (fun targetTag => String.eqb (name targetTag) (name tag)) target.

(** [_attachTags] for [conf.tag] an array: [tags] is
    [swaggerObject[propertyName]]. *)
Definition _attachTags (tag : list tagObject) (tags : list tagObject)
  : list tagObject :=
  fold_left (fun tags t => if _tagDuplicated tags t then tags
                           else tags ++ [t])
            tag tags.

End SwaggerHelpers.

(** ** The document assembler *)

(** A tag of an annotation stream, as the comment parser hands it over;
    [None] is a field that is [null] or missing. *)
Record tag : Type := {
  tag_title : string;
  tag_description : option string;
  tag_type : option ty;
  tag_name : option string
}.

(** One parsed comment block: an annotation stream. *)
Record comment : Type := {
  comment_description : string;
  comment_tags : list tag
}.

Record route : Type := { method : string; uri : string }.

(** What [constructProperty] returns. *)
Record parameter : Type := {
  property : obj;
  required : bool;
  location : string   (* the field [in] *)
}.

(** What [fileFormat] returns, [components] left out. *)
Record fragment : Type := {
  paths : obj;
  tags : list tagObject
}.

Definition parseRoute (str : string) : route :=
  let split := Text.split " " str in
  let m := Text.toLowerCase (hd "" split) in
  {| method := if String.eqb m "" then "get" else m;
     uri := match nth_error split 1 with Some u => u | None => "" end |}.

Definition parseDescription (c : comment) : string :=
  Text.replace_first "/**" "" (comment_description c).

Fixpoint parseTag (tags : list tag) : outcome (list string) :=
  match tags with
  | [] => Ok ["default"; ""]
  | t :: tags' =>
      if String.eqb (tag_title t) "group" then
        match tag_description t with
        | Some d => Ok (Text.split "-" d)
        | None => Throw TypeError
        end
      else parseTag tags'
  end.

Section Assembler.

Context {host : Host}.
Variable schemas : obj.

Definition constructProperty (param : tag) : outcome parameter :=
  match tag_name param with
  | None => Throw TypeError
  | Some name =>
      let segments := Text.split "." name in
      let _in := hd "" segments in
      let field := nth_error segments 1 in
      match tag_description param with
      | None => Throw TypeError
      | Some description =>
          accumulated <- optionsReducer description ;;
          options <- constructOptions (JObj accumulated) None ;;
          if negb (mem _in ["query"; "path"; "body"; "headers"])
          then Throw (InvalidLocation field _in)
          else
            match tag_type param with
            | None => Throw TypeError
            | Some type =>
                v <- constructPropertyType schemas field options type ;;
                Ok {| property := [(match field with
                                    | Some f => f
                                    | None => "undefined"
                                    end, v)];
                      required := negb (is_OptionalType type);
                      location := _in |}
            end
      end
  end.

(** The state of the loop of [fileFormat] over the tags of a stream. *)
Record assembly : Type := {
  current : option route;
  assembled : fragment
}.

(** The statements run for a tag whose title is [route]. *)
Definition openRoute (desc : string) (all : list tag) (t : tag)
    (st : assembly) : outcome assembly :=
  match tag_description t with
  | None => Throw TypeError
  | Some d =>
      let r := parseRoute d in
      tag <- parseTag all ;;
      let tag0 := Text.trim (hd "" tag) in
      let currentMethod :=
        JObj [ ("tags", JArr [JStr tag0]);
               ("parameters", JArr []);
               ("requestBody", JObj [ ("description", JStr desc);
                                      ("content", JObj []) ]) ] in
      let present := match lookup (uri r) (paths (assembled st)) with
                     | Some v => spread v
                     | None => []
                     end in
      paths' <- store (uri r) (JObj (assign (method r) currentMethod present))
                      (paths (assembled st)) ;;
      Ok {| current := Some r;
            assembled :=
              {| paths := paths';
                 tags := tags (assembled st)
                         ++ [ {| name := tag0;
                                 description :=
                                   match nth_error tag 1 with
                                   | Some d1 => Text.trim d1
                                   | None => ""
                                   end |} ] |} |}
  end.

Definition fileFormatTag (desc : string) (all : list tag)
    (st : outcome assembly) (t : tag) : outcome assembly :=
  st <- st ;;
  st <- (if String.eqb (tag_title t) "route" then openRoute desc all t st
         else Ok st) ;;
  match current st with
  | Some _ =>
      if String.eqb (tag_title t) "param"
      then _ <- constructProperty t ;; Ok st
      else Ok st
  | None => Ok st
  end.

Definition fileFormat (comments : comment) : outcome fragment :=
  let desc := parseDescription comments in
  st <- fold_left (fileFormatTag desc (comment_tags comments))
                  (comment_tags comments)
                  (Ok {| current := None;
                         assembled := {| paths := []; tags := [] |} |}) ;;
  Ok (assembled st).

Definition filterJsDocComments (jsDocComments : list comment)
  : list comment :=
  filter (fun item => (0 <? List.length (comment_tags item))%nat)
         jsDocComments.

(** The body of the loop over the comments of a file: a stream that
    throws is reported and left out. *)
Definition mount (openapiObject : outcome obj) (c : comment) : outcome obj :=
  openapiObject <- openapiObject ;;
  match fileFormat c with
  | Ok f =>
      match lookup "paths" openapiObject with
      | Some present =>
          match Deepmerge.deepmerge present (JObj (paths f)) with
          | Ok merged => Ok (assign "paths" merged openapiObject)
          | Throw _ => Ok openapiObject
          | Beyond => Beyond
          end
      | None => Beyond
      end
  | Throw _ => Ok openapiObject
  | Beyond => Beyond
  end.

(** [openapiObject.components.schemas = components.schemas] *)
Definition attachSchemas (openapiObject : obj) : outcome obj :=
  match lookup "components" openapiObject with
  | Some (JObj components) =>
      Ok (assign "components" (JObj (assign "schemas" (JObj schemas) components))
            openapiObject)
  | Some (JStr _) | Some (JNum _) | Some (JBool _) => Throw TypeError
  | _ => Beyond
  end.

(** [generateSpecAndMount], from the point where its arguments have been
    found present: [schemas] is the registry after the models have been
    added, [files] the parsed comments of the files in the order of
    [apiFiles]. *)
Definition generateSpecAndMount (openAPI3Definition : obj)
    (files : list (list comment)) : outcome obj :=
  openapiObject <- attachSchemas (Helpers.buildOpenAPI3Base openAPI3Definition) ;;
  fold_left (fun acc parsedFile =>
               fold_left mount (filterJsDocComments parsedFile) acc)
            files (Ok openapiObject).

End Assembler.

(** [components.schemas = {...components.schemas,
    ...helpers.buildFromSequelize(models)}], the statement by which
    [generateSpecAndMount] adds the models to the registry: [schemas] is
    the registry before, [models] the values of its argument. *)
Definition registerModels (DataTypes : string -> bool) (schemas : obj)
    (models : list Helpers.model) : outcome obj :=
  built <- Helpers.buildFromSequelize DataTypes models ;;
  Ok (assigns built schemas).

Definition parseProduces (str : string) : list string :=
  Text.split_spaces str.

Definition parseConsumes (str : string) : list string :=
  Text.split_spaces str.

(** ** Sample inputs *)

(** A host on which no source text runs and no text is JSON. *)
Definition mute : Host := {| evaluate := fun _ => false;
                             JSON_parse := fun _ => None |}.

Definition mkTag (title description : string) : tag :=
  {| tag_title := title; tag_description := Some description;
     tag_type := None; tag_name := None |}.

Definition mkParam (type : ty) (name description : string) : tag :=
  {| tag_title := "param"; tag_description := Some description;
     tag_type := Some type; tag_name := Some name |}.

(** [@param {string} query.name.required - filter] *)
Definition nameParam : tag :=
  mkParam (NameExpression "string") "query.name.required" "filter".

(** [@route GET /users], [@group foo - desc] and the parameter above. *)
Definition usersStream : comment :=
  {| comment_description := "List the users";
     comment_tags := [ mkTag "route" "GET /users"; mkTag "group" "foo - desc";
                       nameParam ] |}.

(** The operation [fileFormat] opens for [usersStream]. *)
Definition usersOperation : json :=
  JObj [ ("tags", JArr [JStr "foo"]);
         ("parameters", JArr []);
         ("requestBody", JObj [ ("description", JStr "List the users");
                                ("content", JObj []) ]) ].

(** A registry with one model, [User], declaring the property [id]. *)
Definition userRegistry : obj :=
  [ ("User", JObj [ ("required", JArr [JStr "id"]);
                    ("properties",
                     JObj [ ("id", JObj [ ("nullable", JBool false);
                                          ("readOnly", JBool true);
                                          ("type", JStr "integer");
                                          ("format", JStr "int32") ]) ]) ]) ].

(** [@param {Unknown.model} body.user - the user] *)
Definition danglingParam : tag :=
  mkParam (NameExpression "Unknown.model") "body.user" "the user".

Definition danglingStream : comment :=
  {| comment_description := "Create a user";
     comment_tags := [ mkTag "route" "POST /users"; danglingParam ] |}.

(** Two streams that name the same group with two descriptions. *)
Definition streamA : comment :=
  {| comment_description := "";
     comment_tags := [ mkTag "route" "GET /a"; mkTag "group" "foo - A" ] |}.

Definition streamB : comment :=
  {| comment_description := "";
     comment_tags := [ mkTag "route" "GET /b"; mkTag "group" "foo - B" ] |}.

(** One stream with two routes. *)
Definition twoRoutes : comment :=
  {| comment_description := "";
     comment_tags := [ mkTag "route" "GET /a"; mkTag "route" "POST /a";
                       mkTag "group" "foo - A" ] |}.


(** [constructOptions(optionsReducer(description))], as [constructProperty]
    calls them. *)
Definition parseOptions {host : Host} (description : string) : outcome obj :=
  accumulated <- optionsReducer description ;;
  constructOptions (JObj accumulated) None.

(** The state in which [fileFormat] starts on a stream. *)
Definition start : outcome assembly :=
  Ok {| current := None; assembled := {| paths := []; tags := [] |} |}.

(** What [fileFormat] returns for [usersStream]. *)
Definition usersFragment : fragment :=
  {| paths := [("/users", JObj [("get", usersOperation)])];
     tags := [ {| name := "foo"; description := "desc" |} ] |}.

(** An operation as [fileFormat] opens it: no parameter, and a request
    body without content. *)
Definition bare_operation (operation : json) : bool :=
  match operation with
  | JObj o =>
      match lookup "parameters" o, lookup "requestBody" o with
      | Some (JArr []), Some (JObj body) =>
          match lookup "content" body with
          | Some (JObj []) => true
          | _ => false
          end
      | _, _ => false
      end
  | _ => false
  end.

Definition bare_item (item : json) : bool :=
  match item with
  | JObj operations => forallb (fun kv => bare_operation (snd kv)) operations
  | _ => false
  end.

Definition bare (paths : obj) : bool :=
  forallb (fun kv => bare_item (snd kv)) paths.

(** The operation [fileFormat] opens for a stream without description
    whose group is [foo]. *)
Definition fooOperation : json :=
  JObj [ ("tags", JArr [JStr "foo"]);
         ("parameters", JArr []);
         ("requestBody", JObj [ ("description", JStr "");
                                ("content", JObj []) ]) ].

Definition paths_of_streamA : obj := [("/a", JObj [("get", fooOperation)])].
Definition paths_of_streamB : obj := [("/b", JObj [("get", fooOperation)])].

(** *** Regular expressions

    What the specification calls a valid regular expression, as far as it
    takes to tell of a text that it is one: the patterns made of the two
    anchors, letters and digits, classes of one range, groups, sequences,
    alternatives and the repetitions [+], [*] and [?].  The text of a
    well-formed pattern is a text that [new RegExp(text)] accepts. *)

Module Regexp.

Inductive pattern : Type :=
| LineStart
| LineEnd
| Letter (c : ascii)
| Range (lo hi : ascii)
| Group (p : pattern)
| Seq (p q : pattern)
| Alt (p q : pattern)
| Plus (p : pattern)
| Star (p : pattern)
| Maybe (p : pattern).

Fixpoint source (p : pattern) : string :=
  match p with
  | LineStart => "^"
  | LineEnd => "$"
  | Letter c => String c ""
  | Range lo hi => String "[" (String lo (String "-" (String hi "]")))
  | Group p => "(" ++ source p ++ ")"
  | Seq p q => source p ++ source q
  | Alt p q => source p ++ "|" ++ source q
  | Plus p => source p ++ "+"
  | Star p => source p ++ "*"
  | Maybe p => source p ++ "?"
  end.

(** The text of the pattern ends with something a repetition applies
    to. *)
Fixpoint repeatable (p : pattern) : bool :=
  match p with
  | Letter _ | Range _ _ | Group _ => true
  | Seq _ q | Alt _ q => repeatable q
  | _ => false
  end.

Fixpoint wellformed (p : pattern) : bool :=
  match p with
  | LineStart | LineEnd => true
  | Letter c => Text.is_alnum c
  | Range lo hi =>
      Text.is_alnum lo && Text.is_alnum hi
      && (nat_of_ascii lo <=? nat_of_ascii hi)%nat
  | Group p => wellformed p
  | Seq p q | Alt p q => wellformed p && wellformed q
  | Plus p | Star p | Maybe p => wellformed p && repeatable p
  end.

Definition valid (text : string) : Prop :=
  exists p : pattern, wellformed p = true /\ source p = text.

End Regexp.

(** *** Descriptions made of declarations *)

(** No character of [s] satisfies [p]. *)
Fixpoint free_of (p : ascii -> bool) (s : string) : bool :=
  match s with
  | "" => true
  | String c s' => negb (p c) && free_of p s'
  end.






(** The lines joined by a separator. *)
Fixpoint join (sep : string) (first : string) (others : list string)
  : string :=
  match others with
  | [] => first
  | next :: others' => first ++ sep ++ join sep next others'
  end.


Definition tilde (c : ascii) : bool := Text.eqc c "~".




(** One turn of the [reduce] of [optionsReducer]. *)
Definition step {host : Host} (acc : outcome obj) (option : string)
  : outcome obj :=
  accumulator <- acc ;; reduceOption accumulator option.


(** *** Notions of the further properties *)

(** The schema [constructDate] and [constructFile] build for one type
    argument. *)
Definition formatSchema {host : Host} (schemas : obj) (field : option string)
    (options : obj) (a : ty) : outcome json :=
  v <- constructPropertyType schemas field options a ;;
  Ok (JObj [("type", JStr "string"); ("format", v)]).

(** What the first call returns, the second returns. *)
Definition settles {A : Type} (m m' : outcome A) : Prop :=
  forall a, m = Ok a -> m' = Ok a.

(** Two type arguments with the same node, the second returning what the
    first returns. *)
Definition follows (a a' : argument) : Prop :=
  arg_node a = arg_node a'
  /\ settles (arg_value a) (arg_value a')
  /\ Forall2 settles (arg_inner a) (arg_inner a').

(** A key of one of the two keyword tables. *)
Definition keyword_key (k : string) : bool :=
  mem k keywordsObject || mem k keywordsParameter.

(** A key the option grammar takes for a keyword: a key of one of the two
    tables, or a member they inherit from [Object.prototype]. *)
Definition option_key (k : string) : bool := keyword_key k || inherited k.

(** A text of ASCII characters: on such a text the letter case and the
    white space of this development are those of the host. *)
Definition ascii_text (s : string) : bool :=
  free_of (fun c => (127 <? nat_of_ascii c)%nat) s.

(** The letters [A] to [Z]. *)
Definition is_upper (c : ascii) : bool :=
  let n := nat_of_ascii c in ((65 <=? n) && (n <=? 90))%nat.

(** A text without colon. *)
Definition colon_free (text : string) : bool :=
  free_of (fun c => Text.eqc c ":") text.

(** A word: a text that is not empty and holds no white space. *)
Definition word (w : string) : bool :=
  negb (String.eqb w "") && free_of Text.is_space w.

(** A tag whose title is [route], or [group]. *)
Definition is_route (t : tag) : bool := String.eqb (tag_title t) "route".

Definition is_group (t : tag) : bool := String.eqb (tag_title t) "group".


(** The URIs of a document: the keys of its [paths]. *)
Definition uris (openapiObject : obj) : list string :=
  match lookup "paths" openapiObject with
  | Some (JObj paths) => keys paths
  | _ => []
  end.

(** A row of [Helpers.dataTypes] that does not set the key [k]. *)
Definition spares (k : string) (row : string * Helpers.rule) : Prop :=
  match snd row with
  | Helpers.Fields fields =>
      forall (t : Helpers.dataType) (set : obj),
        fields t = Ok set -> mem k (keys set) = false
  | _ => String.eqb k "type" = false /\ String.eqb k "items" = false
  end.

(** The names of the attributes whose [allowNull] is [false]. *)
Definition requiredNames (attributes : list Helpers.attribute) : list json :=
  map (fun a => JStr (Helpers.fieldName a))
      (filter (fun a => Helpers.strictly_false (Helpers.allowNull a))
              attributes).

(** The tags [fileFormat] constructs as parameters. *)
Definition is_param (t : tag) : bool := String.eqb (tag_title t) "param".

(** *** Sample models *)

(** An installation whose [DataTypes] has the names [constructProperty]
    tests for, and no other. *)
Definition tabled (name : string) : bool :=
  mem name (map fst Helpers.dataTypes).

(** [DataTypes.INTEGER], as an attribute holds it. *)
Definition integerType : Helpers.dataType :=
  {| Helpers.dt_name := "INTEGER";
     Helpers.dt_length := JUndefined;
     Helpers.dt_options := Some (JUndefined, None);
     Helpers.dt_values := JUndefined;
     Helpers.dt_type := None |}.

(** The primary key [id]. *)
Definition idAttribute : Helpers.attribute :=
  {| Helpers.fieldName := "id";
     Helpers.type := Some integerType;
     Helpers.allowNull := JBool false;
     Helpers.primaryKey := JBool true |}.

(** The model [User], whose only attribute is its primary key. *)
Definition userModel : Helpers.model :=
  {| Helpers.modelName := "User"; Helpers.rawAttributes := [idAttribute] |}.

(** [@param {string} cookie.session - the session] *)
Definition cookieParam : tag :=
  mkParam (NameExpression "string") "cookie.session" "the session".

(** A stream whose only tag is a parameter. *)
Definition routeless : comment :=
  {| comment_description := ""; comment_tags := [cookieParam] |}.

(** A stream whose URI is a member name of [Object.prototype]. *)
Definition memberStream : comment :=
  {| comment_description := "";
     comment_tags := [mkTag "route" "GET toString"] |}.

(** * Properties *)

(** ** Objects *)

Lemma lookup_assign_eq (k : string) (v : json) (o : obj) :
  lookup k (assign k v o) = Some v.
Proof.
  induction o as [|[k' v'] o IH]; cbn.
  - rewrite String.eqb_refl. reflexivity.
  - destruct (String.eqb k k') eqn:Hk; cbn.
    + rewrite String.eqb_refl. reflexivity.
    + rewrite Hk. exact IH.
Qed.

Lemma lookup_assign_neq (k k' : string) (v : json) (o : obj) :
  String.eqb k' k = false -> lookup k' (assign k v o) = lookup k' o.
Proof.
  intros Hne. induction o as [|[k0 v0] o IH]; cbn.
  - rewrite Hne. reflexivity.
  - destruct (String.eqb k k0) eqn:Hk; cbn.
    + apply String.eqb_eq in Hk. subst k0. rewrite Hne. reflexivity.
    + destruct (String.eqb k' k0); [reflexivity | exact IH].
Qed.

Lemma assign_assign (k : string) (v w : json) (o : obj) :
  assign k v (assign k w o) = assign k v o.
Proof.
  induction o as [|[k' v'] o IH]; cbn.
  - rewrite String.eqb_refl. reflexivity.
  - destruct (String.eqb k k') eqn:Hk; cbn.
    + rewrite String.eqb_refl. reflexivity.
    + rewrite Hk, IH. reflexivity.
Qed.


(** ** The type expression compiler *)

Section CompilerFacts.

Context {host : Host}.
Variable schemas : obj.
Variable field : option string.
Variable options : obj.

Local Abbreviation compile := (constructPropertyType schemas field options).
Local Abbreviation schemaOf := (stringSchema schemas field options).

(** A primitive name without type arguments: [typeConstructors] is not
    consulted. *)
Lemma constructNameExpression_primitive (name : string) :
  mem name simpleNameExpressions = true ->
  constructNameExpression schemas field options name None
  = Ok (JObj [("type", JStr name)])
  /\ constructNameExpression schemas field options name (Some [])
     = Ok (JObj [("type", JStr name)]).
Proof.
  intros Hname. unfold constructNameExpression. rewrite Hname.
  split; reflexivity.
Qed.

Lemma mem_In (k : string) (l : list string) : In k l -> mem k l = true.
Proof.
  intros Hin. apply existsb_exists. exists k. split; [assumption|].
  apply String.eqb_refl.
Qed.

(** C9.  A primitive name reference ([string], [number], [integer],
    [boolean]) with no type argument, written alone or applied to an
    empty argument list, compiles to exactly the object [{type: name}]. *)
Theorem C9_primitive_without_arguments (name : string) :
  In name simpleNameExpressions ->
  compile (NameExpression name) = Ok (JObj [("type", JStr name)])
  /\ compile (TypeApplication (NameExpression name) [])
     = Ok (JObj [("type", JStr name)]).
Proof.
  intros Hin. apply mem_In in Hin.
  destruct (constructNameExpression_primitive name Hin) as [Hnone Hnil].
  split.
  - exact Hnone.
  - cbn [constructPropertyType map]. rewrite Hnil. reflexivity.
Qed.

(** The partition made by [constructUnionType] when one element is the
    null literal and one is not. *)
Lemma constructUnionType_null_and_other (m : outcome json) :
  constructUnionType [(true, Throw TypeError); (false, m)]
  = (v <- m ;; Ok (JObj (assign "nullable" (JBool true) (spread v))))
  /\ constructUnionType [(false, m); (true, Throw TypeError)]
     = (v <- m ;; Ok (JObj (assign "nullable" (JBool true) (spread v)))).
Proof.
  unfold constructUnionType; cbn. destruct m; split; reflexivity.
Qed.

(** C8.  A union of the null literal and exactly one other branch, in
    either order, compiles to the compiled schema of the other branch
    with [nullable: true] set on it; an error of the other branch is the
    error of the union. *)
Theorem C8_nullable_union (other : ty) :
  is_NullLiteral other = false ->
  compile (UnionType [NullLiteral; other])
  = (v <- compile other ;;
     Ok (JObj (assign "nullable" (JBool true) (spread v))))
  /\ compile (UnionType [other; NullLiteral])
     = (v <- compile other ;;
        Ok (JObj (assign "nullable" (JBool true) (spread v)))).
Proof.
  intros Hother.
  destruct (constructUnionType_null_and_other (compile other)) as [H1 H2].
  cbn [constructPropertyType map is_NullLiteral]. rewrite Hother.
  split; assumption.
Qed.

Lemma formatOrPattern_map (l : list ty) :
  map (formatOrPattern (host:=host))
      (map (fun a => {| arg_node := a;
                        arg_value := compile a;
                        arg_inner := match a with
                                     | TypeApplication _ l0 => map compile l0
                                     | _ => []
                                     end |}) l)
  = map schemaOf l.
Proof. rewrite map_map. reflexivity. Qed.

Lemma constructNameExpression_string (args : list argument) :
  args <> [] ->
  constructNameExpression schemas field options "string" (Some args)
  = (props <- sequence (map formatOrPattern args) ;;
     match props with
     | [p] => Ok p
     | _ => Ok (JObj [("oneOf", JArr props)])
     end).
Proof.
  intros Hargs. destruct args as [|x args]; [contradiction|]. reflexivity.
Qed.

(** C7, as the code has it.  [string] applied to one type argument
    compiles to [{type: "string", pattern: v}] when [isRegExp] accepts the
    compiled argument [v], and to [{type: "string", format: v}] when it
    does not; applied to two or more arguments it compiles to
    [{oneOf: [...]}] of these schemas, one per argument in order.
    [isRegExp] does not ask whether the argument is a regular expression:
    it asks whether the argument, written as source text into
    [new RegExp(<argument>)], compiles and runs.  So a string literal that
    starts with a character no expression starts with gives a [format],
    and the empty string literal gives a [pattern]. *)
Theorem C7_string_arguments :
  (forall a : ty,
      compile (TypeApplication (NameExpression "string") [a])
      = (v <- compile a ;;
         Ok (JObj [ ("type", JStr "string");
                    (if isRegExp v then "pattern" else "format", v) ])))
  /\ (forall (a b : ty) (rest : list ty),
         compile (TypeApplication (NameExpression "string") (a :: b :: rest))
         = (props <- sequence (map schemaOf (a :: b :: rest)) ;;
            Ok (JObj [("oneOf", JArr props)])))
  /\ (forall (c : ascii) (text : string),
         opens_no_expression c = true ->
         compile (TypeApplication (NameExpression "string")
                    [StringLiteralType (String c text)])
         = Ok (JObj [ ("type", JStr "string");
                      ("format", JStr (String c text)) ]))
  /\ compile (TypeApplication (NameExpression "string")
                [StringLiteralType ""])
     = Ok (JObj [("type", JStr "string"); ("pattern", JStr "")]).
Proof.
  assert (Hone : forall a : ty,
             compile (TypeApplication (NameExpression "string") [a])
             = (v <- compile a ;;
                Ok (JObj [ ("type", JStr "string");
                           (if isRegExp v then "pattern" else "format",
                            v) ]))).
  { intros a. cbn [constructPropertyType].
    rewrite constructNameExpression_string by discriminate.
    rewrite formatOrPattern_map. cbn [map sequence]. unfold schemaOf.
    destruct (compile a); reflexivity. }
  split; [exact Hone|]. split; [|split].
  - intros a b rest. cbn [constructPropertyType].
    rewrite constructNameExpression_string by discriminate.
    rewrite formatOrPattern_map.
    destruct (sequence (map schemaOf (a :: b :: rest)))
      as [props| |] eqn:Hs; cbn [bind]; try reflexivity.
    cbn [map sequence] in Hs.
    destruct (schemaOf a); cbn [bind] in Hs; try discriminate.
    destruct (schemaOf b); cbn [bind] in Hs; try discriminate.
    destruct (sequence (map schemaOf rest)); cbn [bind] in Hs;
      try discriminate.
    inversion Hs; subst. reflexivity.
  - intros c text Hc. rewrite Hone. cbn [constructPropertyType bind].
    unfold isRegExp. rewrite Hc. reflexivity.
  - rewrite Hone. reflexivity.
Qed.

(** Outside its two tables, [constructNameExpression] resolves the name
    against the registry. *)
Lemma constructNameExpression_reference (name : string) :
  mem name simpleNameExpressions = false ->
  mem name typeConstructors = false ->
  inherited name = false ->
  compile (NameExpression name) = reference schemas field name.
Proof.
  intros Hsimple Htable Hinherited. cbn [constructPropertyType].
  unfold constructNameExpression.
  rewrite Hsimple, Htable, Hinherited. reflexivity.
Qed.

Lemma member_absent (o : obj) (k : string) :
  lookup k o = None -> inherited k = false -> member (JObj o) k = Ok JUndefined.
Proof. intros Hk Hi. unfold member. rewrite Hk, Hi. reflexivity. Qed.

Lemma member_present (o : obj) (k : string) (v : json) :
  lookup k o = Some v -> member (JObj o) k = Ok v.
Proof. intros Hk. unfold member. rewrite Hk. reflexivity. Qed.

Lemma eqb_empty_false (s : string) : s <> "" -> String.eqb s "" = false.
Proof. intros Hs. apply String.eqb_neq. exact Hs. Qed.

(** A model that the registry does not hold. *)
Lemma reference_unknown (name : string) :
  hd "" (Text.split "." name) <> "" ->
  lookup (hd "" (Text.split "." name)) schemas = None ->
  inherited (hd "" (Text.split "." name)) = false ->
  reference schemas field name
  = Throw (UnknownModel field (hd "" (Text.split "." name))).
Proof.
  intros Hmodel Hnone Hplain. unfold reference.
  rewrite (eqb_empty_false _ Hmodel), (member_absent _ _ Hnone Hplain).
  reflexivity.
Qed.

(** C5, as the code has it.  A name reference whose name is not
    primitive, not a key of the table of constructors and not a member
    name of [Object.prototype] is split on [.] into a model and an
    optional property.  A model that is not empty, that the registry does
    not hold and that is no member name of [Object.prototype] fails with
    [UnknownModel].  For a model whose schema in the registry has a
    [properties] object, a property that is not empty, that is not among
    these properties and that is no member name of [Object.prototype]
    fails with [UnknownModelProperty], and a property that is among them
    gives the single field [$ref] pointing at it.  For a model the
    registry holds and no property, or an empty one, the result is the
    single field [$ref] pointing at the model. *)
Theorem C5_model_reference (name : string) :
  mem name simpleNameExpressions = false ->
  mem name typeConstructors = false ->
  inherited name = false ->
  let model := hd "" (Text.split "." name) in
  let property := nth_error (Text.split "." name) 1 in
  (model <> "" -> lookup model schemas = None -> inherited model = false ->
   compile (NameExpression name) = Throw (UnknownModel field model))
  /\ (forall (s ps : obj) (p : string),
         lookup model schemas = Some (JObj s) ->
         lookup "properties" s = Some (JObj ps) ->
         property = Some p -> p <> "" ->
         lookup p ps = None -> inherited p = false ->
         compile (NameExpression name)
         = Throw (UnknownModelProperty field p model))
  /\ (forall (s ps : obj) (p : string) (x : json),
         lookup model schemas = Some (JObj s) ->
         lookup "properties" s = Some (JObj ps) ->
         property = Some p -> p <> "" ->
         lookup p ps = Some x -> x <> JUndefined ->
         compile (NameExpression name)
         = Ok (JObj [("$ref", JStr ("#/components/schemas/" ++ model
                                    ++ "/properties/" ++ p))]))
  /\ (forall s : json,
         lookup model schemas = Some s -> s <> JUndefined ->
         property = None \/ property = Some "" ->
         compile (NameExpression name)
         = Ok (JObj [("$ref", JStr ("#/components/schemas/" ++ model))])).
Proof.
  intros Hsimple Htable Hinherited model property.
  rewrite (constructNameExpression_reference name Hsimple Htable Hinherited).
  unfold reference. fold model. fold property.
  repeat split.
  - intros Hmodel Hnone Hplain.
    fold (reference schemas field name).
    apply (reference_unknown name Hmodel Hnone Hplain).
  - intros s ps p Hs Hps Hp Hne Hnone Hplain.
    rewrite (member_present _ _ _ Hs), Hp.
    assert (Hknown : (if String.eqb model "" then Ok false
                      else s0 <- Ok (JObj s) ;; Ok (is_undefined s0))
                     = Ok false) by (destruct (String.eqb model ""); reflexivity).
    rewrite Hknown. cbn [bind]. destruct p as [|c p]; [contradiction|].
    rewrite (member_present _ _ _ Hps). cbn [bind].
    rewrite (member_absent _ _ Hnone Hplain). reflexivity.
  - intros s ps p x Hs Hps Hp Hne Hx Hdef.
    rewrite (member_present _ _ _ Hs), Hp.
    assert (Hknown : (if String.eqb model "" then Ok false
                      else s0 <- Ok (JObj s) ;; Ok (is_undefined s0))
                     = Ok false) by (destruct (String.eqb model ""); reflexivity).
    rewrite Hknown. cbn [bind]. destruct p as [|c p]; [contradiction|].
    rewrite (member_present _ _ _ Hps). cbn [bind].
    rewrite (member_present _ _ _ Hx). cbn [bind].
    destruct x; try reflexivity. contradiction.
  - intros s Hs Hdef Hp.
    rewrite (member_present _ _ _ Hs).
    assert (Hknown : (if String.eqb model "" then Ok false
                      else s0 <- Ok s ;; Ok (is_undefined s0))
                     = Ok false).
    { destruct (String.eqb model ""); [reflexivity|].
      destruct s; try reflexivity. contradiction. }
    rewrite Hknown. cbn [bind]. destruct Hp as [-> | ->]; reflexivity.
Qed.

End CompilerFacts.

(** ** Parameters and streams *)

Lemma append_snoc (cur : string) (c : ascii) (s : string) :
  (Text.snoc cur c ++ s = cur ++ String c s)%string.
Proof.
  unfold Text.snoc. induction cur as [|d cur IH]; cbn; [reflexivity|].
  rewrite IH. reflexivity.
Qed.

Lemma append_empty (s : string) : (s ++ "")%string = s.
Proof. induction s as [|c s IH]; cbn; [reflexivity | rewrite IH; reflexivity]. Qed.

Lemma split_from_dotless (l cur : string) :
  dotless l = true -> Text.split_from "." cur l 0 = [(cur ++ l)%string].
Proof.
  revert cur. induction l as [|c l IH]; intros cur Hl; cbn -[ascii_dec].
  - rewrite append_empty. reflexivity.
  - cbn in Hl. apply andb_prop in Hl as [Hc Hl].
    apply negb_true_iff in Hc.
    destruct (ascii_dec "." c) as [Heq|Hneq].
    + subst c. discriminate.
    + rewrite (IH _ Hl), append_snoc. reflexivity.
Qed.

Lemma split_from_segment (l cur rest : string) :
  dotless l = true ->
  Text.split_from "." cur (l ++ String "." rest) 0
  = (cur ++ l)%string :: Text.split_from "." "" rest 0.
Proof.
  revert cur. induction l as [|c l IH]; intros cur Hl.
  - cbn. rewrite append_empty.
    destruct rest; reflexivity.
  - cbn in Hl. apply andb_prop in Hl as [Hc Hl].
    apply negb_true_iff in Hc. cbn -[ascii_dec].
    destruct (ascii_dec "." c) as [Heq|Hneq].
    + subst c. discriminate.
    + rewrite (IH _ Hl), append_snoc. reflexivity.
Qed.

(** The two segments [constructProperty] reads from the name of a
    parameter. *)
Lemma split_two_segments (loc fld : string) :
  dotless loc = true -> dotless fld = true ->
  Text.split "." (loc ++ "." ++ fld) = [loc; fld].
Proof.
  intros Hloc Hfld. unfold Text.split.
  change (loc ++ "." ++ fld)%string with (loc ++ String "." fld)%string.
  rewrite (split_from_segment _ _ _ Hloc), (split_from_dotless _ _ Hfld).
  reflexivity.
Qed.

Lemma split_more_segments (loc fld rest : string) :
  dotless loc = true -> dotless fld = true ->
  Text.split "." (loc ++ "." ++ fld ++ "." ++ rest)
  = loc :: fld :: Text.split "." rest.
Proof.
  intros Hloc Hfld. unfold Text.split.
  change (loc ++ "." ++ fld ++ "." ++ rest)%string
    with (loc ++ String "." (fld ++ String "." rest))%string.
  rewrite (split_from_segment _ _ _ Hloc), (split_from_segment _ _ _ Hfld).
  reflexivity.
Qed.

Section AssemblerFacts.

Context {host : Host}.
Variable schemas : obj.

(** [constructProperty] reads its parameter's name through the first two
    segments only. *)
Lemma constructProperty_segments (title : string) (d : option string)
    (t : option ty) (n1 n2 : string) :
  hd "" (Text.split "." n1) = hd "" (Text.split "." n2) ->
  nth_error (Text.split "." n1) 1 = nth_error (Text.split "." n2) 1 ->
  constructProperty schemas
    {| tag_title := title; tag_description := d; tag_type := t;
       tag_name := Some n1 |}
  = constructProperty schemas
      {| tag_title := title; tag_description := d; tag_type := t;
         tag_name := Some n2 |}.
Proof.
  intros Hhd Hnth. unfold constructProperty.
  cbn [tag_name tag_description tag_type]. rewrite Hhd, Hnth. reflexivity.
Qed.

Lemma constructProperty_required (param : tag) (r : parameter) :
  constructProperty schemas param = Ok r ->
  exists type : ty,
    tag_type param = Some type /\ required r = negb (is_OptionalType type).
Proof.
  unfold constructProperty. intros H.
  destruct (tag_name param) as [name|]; [|discriminate].
  destruct (tag_description param) as [description|]; [|discriminate].
  destruct (optionsReducer description) as [accumulated| |];
    cbn [bind] in H; try discriminate.
  destruct (constructOptions (JObj accumulated) None) as [options| |];
    cbn [bind] in H; try discriminate.
  destruct (negb (mem (hd "" (Text.split "." name))
                      ["query"; "path"; "body"; "headers"]));
    [discriminate|].
  destruct (tag_type param) as [type|]; [|discriminate].
  destruct (constructPropertyType schemas _ options type);
    cbn [bind] in H; try discriminate.
  inversion H; subst. exists type. split; reflexivity.
Qed.

(** C10.  Whenever [constructProperty] returns, its [required] flag is true
    exactly when the type of the parameter is not an [OptionalType] node;
    and the segments of the parameter's name after the first two, such as
    a trailing [.required], change nothing in what it returns or throws. *)
Theorem C10_required_flag :
  (forall (param : tag) (r : parameter),
      constructProperty schemas param = Ok r ->
      exists type : ty,
        tag_type param = Some type
        /\ (required r = true <-> is_OptionalType type = false))
  /\ (forall (title : string) (d : option string) (t : option ty)
             (loc fld rest : string),
         dotless loc = true -> dotless fld = true ->
         constructProperty schemas
           {| tag_title := title; tag_description := d; tag_type := t;
              tag_name := Some (loc ++ "." ++ fld ++ "." ++ rest)%string |}
         = constructProperty schemas
             {| tag_title := title; tag_description := d; tag_type := t;
                tag_name := Some (loc ++ "." ++ fld)%string |}).
Proof.
  split.
  - intros param r H.
    destruct (constructProperty_required param r H) as (type & Htype & Hreq).
    exists type. split; [exact Htype|]. rewrite Hreq.
    destruct (is_OptionalType type); cbn; split; congruence.
  - intros title d t loc fld rest Hloc Hfld.
    apply constructProperty_segments;
      rewrite (split_more_segments _ _ rest Hloc Hfld),
              (split_two_segments _ _ Hloc Hfld); reflexivity.
Qed.

(** *** Streams that throw *)

Lemma fileFormatTag_Throw (desc : string) (all tags : list tag) (e : error) :
  fold_left (fileFormatTag schemas desc all) tags (Throw e) = Throw e.
Proof. induction tags as [|t tags IH]; cbn; [reflexivity | exact IH]. Qed.

(** A [param] tag met after a route has been opened runs
    [constructProperty]; what that throws leaves [fileFormat]. *)
Lemma fileFormat_param_throws (stream : comment) (opened rest : list tag)
    (param : tag) (st : assembly) (r : route) (e : error) :
  comment_tags stream = opened ++ param :: rest ->
  fold_left (fileFormatTag schemas (parseDescription stream)
                           (comment_tags stream)) opened start = Ok st ->
  current st = Some r ->
  tag_title param = "param" ->
  constructProperty schemas param = Throw e ->
  fileFormat schemas stream = Throw e.
Proof.
  intros Htags Hopened Hroute Htitle Hthrow. unfold fileFormat.
  unfold start in Hopened. rewrite Htags at 2. rewrite fold_left_app, Hopened. cbn [fold_left].
  assert (Hstep : fileFormatTag schemas (parseDescription stream)
                    (comment_tags stream) (Ok st) param = Throw e).
  { unfold fileFormatTag. cbn [bind]. rewrite Htitle.
    change (String.eqb "param" "route") with false.
    change (String.eqb "param" "param") with true.
    cbn [bind]. rewrite Hroute, Hthrow. reflexivity. }
  rewrite Hstep, fileFormatTag_Throw. reflexivity.
Qed.

(** The loop of [generateSpecAndMount] passes over a stream that throws. *)
Lemma mount_Throw (openapiObject : outcome obj) (stream : comment) (e : error) :
  fileFormat schemas stream = Throw e ->
  mount schemas openapiObject stream = openapiObject.
Proof.
  intros Hthrow. unfold mount. rewrite Hthrow.
  destruct openapiObject; reflexivity.
Qed.

Lemma generateSpecAndMount_skips (definition : obj)
    (before after : list (list comment)) (earlier later : list comment)
    (stream : comment) (e : error) :
  fileFormat schemas stream = Throw e ->
  generateSpecAndMount schemas definition
    (before ++ (earlier ++ stream :: later) :: after)
  = generateSpecAndMount schemas definition
      (before ++ (earlier ++ later) :: after).
Proof.
  intros Hthrow. unfold generateSpecAndMount.
  destruct (attachSchemas schemas (Helpers.buildOpenAPI3Base definition))
    as [openapiObject| |]; cbn [bind]; try reflexivity.
  rewrite !fold_left_app. cbn [fold_left]. f_equal.
  unfold filterJsDocComments. rewrite !filter_app, !fold_left_app.
  cbn [filter].
  destruct (0 <? List.length (comment_tags stream))%nat; [|reflexivity].
  cbn [fold_left]. rewrite (mount_Throw _ _ _ Hthrow). reflexivity.
Qed.

Lemma constructProperty_UnknownModel (param : tag)
    (name description nm : string) (accumulated options : obj) :
  tag_name param = Some name ->
  mem (hd "" (Text.split "." name)) ["query"; "path"; "body"; "headers"]
  = true ->
  tag_description param = Some description ->
  optionsReducer description = Ok accumulated ->
  constructOptions (JObj accumulated) None = Ok options ->
  tag_type param = Some (NameExpression nm) ->
  mem nm simpleNameExpressions = false ->
  mem nm typeConstructors = false ->
  inherited nm = false ->
  hd "" (Text.split "." nm) <> "" ->
  lookup (hd "" (Text.split "." nm)) schemas = None ->
  inherited (hd "" (Text.split "." nm)) = false ->
  constructProperty schemas param
  = Throw (UnknownModel (nth_error (Text.split "." name) 1)
                        (hd "" (Text.split "." nm))).
Proof.
  intros Hname Hloc Hd Hacc Hopt Htype Hsimple Htable Hinh Hmodel Hnone Hplain.
  unfold constructProperty.
  rewrite Hname, Hd, Hacc. cbn [bind]. rewrite Hopt. cbn [bind].
  rewrite Hloc, Htype. cbn [negb].
  rewrite (constructNameExpression_reference schemas _ options nm
             Hsimple Htable Hinh).
  rewrite (reference_unknown schemas _ nm Hmodel Hnone Hplain). reflexivity.
Qed.

(** C6.  Take a stream in which a [param] tag, met after a route has been
    opened and carrying a valid location and well-formed options, has for
    type a name whose model the registry does not know.  [fileFormat]
    throws [UnknownModel] on it; the loop of [generateSpecAndMount] leaves
    the document as it was before the stream, whatever it holds, and the
    run gives what it gives without the stream: the streams before and
    after it are processed as usual. *)
Theorem C6_stream_isolation
    (definition : obj) (before after : list (list comment))
    (earlier later : list comment) (stream : comment)
    (opened rest : list tag) (param : tag) (st : assembly) (r : route)
    (name description nm : string) (accumulated options : obj) :
  comment_tags stream = opened ++ param :: rest ->
  fold_left (fileFormatTag schemas (parseDescription stream)
                           (comment_tags stream)) opened start = Ok st ->
  current st = Some r ->
  tag_title param = "param" ->
  tag_name param = Some name ->
  mem (hd "" (Text.split "." name)) ["query"; "path"; "body"; "headers"]
  = true ->
  tag_description param = Some description ->
  optionsReducer description = Ok accumulated ->
  constructOptions (JObj accumulated) None = Ok options ->
  tag_type param = Some (NameExpression nm) ->
  mem nm simpleNameExpressions = false ->
  mem nm typeConstructors = false ->
  inherited nm = false ->
  hd "" (Text.split "." nm) <> "" ->
  lookup (hd "" (Text.split "." nm)) schemas = None ->
  inherited (hd "" (Text.split "." nm)) = false ->
  fileFormat schemas stream
  = Throw (UnknownModel (nth_error (Text.split "." name) 1)
                        (hd "" (Text.split "." nm)))
  /\ (forall openapiObject : outcome obj,
         mount schemas openapiObject stream = openapiObject)
  /\ generateSpecAndMount schemas definition
       (before ++ (earlier ++ stream :: later) :: after)
     = generateSpecAndMount schemas definition
         (before ++ (earlier ++ later) :: after).
Proof.
  intros Htags Hopened Hroute Htitle Hname Hloc Hd Hacc Hopt Htype
         Hsimple Htable Hinh Hmodel Hnone Hplain.
  assert (Hthrow : fileFormat schemas stream
                   = Throw (UnknownModel (nth_error (Text.split "." name) 1)
                                         (hd "" (Text.split "." nm)))).
  { apply (fileFormat_param_throws stream opened rest param st r);
      try assumption.
    apply (constructProperty_UnknownModel param name description nm
             accumulated options); assumption. }
  split; [exact Hthrow|]. split.
  - intros openapiObject. apply (mount_Throw _ _ _ Hthrow).
  - apply (generateSpecAndMount_skips _ _ _ _ _ _ _ Hthrow).
Qed.

(** *** What a stream assembles *)

Lemma forallb_assign (P : json -> bool) (k : string) (v : json) (o : obj) :
  forallb (fun kv => P (snd kv)) o = true -> P v = true ->
  forallb (fun kv => P (snd kv)) (assign k v o) = true.
Proof.
  intros Ho Hv. induction o as [|[k' v'] o IH]; cbn.
  - rewrite Hv. reflexivity.
  - cbn in Ho. apply andb_prop in Ho as [Hv' Ho].
    destruct (String.eqb k k'); cbn.
    + rewrite Hv, Ho. reflexivity.
    + rewrite Hv', (IH Ho). reflexivity.
Qed.

Lemma forallb_lookup (P : json -> bool) (k : string) (v : json) (o : obj) :
  forallb (fun kv => P (snd kv)) o = true -> lookup k o = Some v -> P v = true.
Proof.
  intros Ho Hk. induction o as [|[k' v'] o IH]; cbn in *; [discriminate|].
  apply andb_prop in Ho as [Hv' Ho].
  destruct (String.eqb k k').
  - inversion Hk; subst. exact Hv'.
  - apply (IH Ho Hk).
Qed.

Lemma openRoute_bare (desc : string) (all : list tag) (t : tag)
    (st st' : assembly) :
  bare (paths (assembled st)) = true ->
  openRoute desc all t st = Ok st' ->
  bare (paths (assembled st')) = true.
Proof.
  intros Hbare Hopen. unfold openRoute in Hopen.
  destruct (tag_description t) as [d|]; [|discriminate].
  remember (parseRoute d) as r eqn:Hr. clear Hr.
  destruct (parseTag all) as [tag| |]; cbn [bind] in Hopen; try discriminate.
  unfold store in Hopen.
  destruct (String.eqb (uri r) "__proto__"); [discriminate|].
  cbn [bind] in Hopen. inversion Hopen; subst; clear Hopen.
  cbn [assembled paths]. unfold bare. apply forallb_assign; [exact Hbare|].
  cbn [bare_item]. apply forallb_assign; [|reflexivity].
  destruct (lookup (uri r) (paths (assembled st)))
    as [item|] eqn:Hitem; [|reflexivity].
  pose proof (forallb_lookup _ _ _ _ Hbare Hitem) as Hi.
  destruct item; try discriminate. exact Hi.
Qed.

Lemma fileFormatTag_bare (desc : string) (all : list tag) (t : tag)
    (st st' : assembly) :
  bare (paths (assembled st)) = true ->
  fileFormatTag schemas desc all (Ok st) t = Ok st' ->
  bare (paths (assembled st')) = true.
Proof.
  intros Hbare Hstep. unfold fileFormatTag in Hstep. cbn [bind] in Hstep.
  destruct (String.eqb (tag_title t) "route").
  - destruct (openRoute desc all t st) as [st1| |] eqn:Hopen;
      cbn [bind] in Hstep; try discriminate.
    pose proof (openRoute_bare _ _ _ _ _ Hbare Hopen) as H1.
    destruct (current st1); [|inversion Hstep; subst; exact H1].
    destruct (String.eqb (tag_title t) "param");
      [|inversion Hstep; subst; exact H1].
    destruct (constructProperty schemas t); cbn [bind] in Hstep;
      try discriminate.
    inversion Hstep; subst; exact H1.
  - cbn [bind] in Hstep.
    destruct (current st); [|inversion Hstep; subst; exact Hbare].
    destruct (String.eqb (tag_title t) "param");
      [|inversion Hstep; subst; exact Hbare].
    destruct (constructProperty schemas t); cbn [bind] in Hstep;
      try discriminate.
    inversion Hstep; subst; exact Hbare.
Qed.

Lemma fileFormatTag_Beyond (desc : string) (all tags : list tag) :
  fold_left (fileFormatTag schemas desc all) tags Beyond = Beyond.
Proof. induction tags as [|t tags IH]; cbn; [reflexivity | exact IH]. Qed.

Lemma fileFormatTags_bare (desc : string) (all tags : list tag)
    (st st' : assembly) :
  bare (paths (assembled st)) = true ->
  fold_left (fileFormatTag schemas desc all) tags (Ok st) = Ok st' ->
  bare (paths (assembled st')) = true.
Proof.
  revert st. induction tags as [|t tags IH]; intros st Hbare Hfold.
  - cbn in Hfold. inversion Hfold; subst. exact Hbare.
  - cbn [fold_left] in Hfold.
    destruct (fileFormatTag schemas desc all (Ok st) t) as [st1| |] eqn:Hstep.
    + apply (IH st1); [|exact Hfold].
      apply (fileFormatTag_bare _ _ _ _ _ Hbare Hstep).
    + rewrite fileFormatTag_Throw in Hfold. discriminate.
    + rewrite fileFormatTag_Beyond in Hfold. discriminate.
Qed.

(** C1, as the code has it.  For the stream [@route GET /users],
    [@group foo - desc], [@param {string} query.name.required - filter],
    [fileFormat] assembles [paths["/users"]["get"]] with [tags] equal to
    [["foo"]], and [constructProperty] compiles the parameter to the
    descriptor [{property: {name: {type: "string"}}, required: true,
    in: "query"}]; the descriptor is checked and then dropped: in this and
    in every stream, each operation [fileFormat] returns has an empty
    [parameters] list and a request body without content. *)
Theorem C1_users_scenario :
  fileFormat schemas usersStream = Ok usersFragment
  /\ constructProperty schemas nameParam
     = Ok {| property := [("name", JObj [("type", JStr "string")])];
             required := true;
             location := "query" |}
  /\ (forall (stream : comment) (f : fragment),
         fileFormat schemas stream = Ok f -> bare (paths f) = true).
Proof.
  split; [reflexivity|]. split; [reflexivity|].
  intros stream f Hf. unfold fileFormat in Hf.
  destruct (fold_left _ _ _) as [st| |] eqn:Hfold; cbn [bind] in Hf;
    try discriminate.
  inversion Hf; subst.
  apply (fileFormatTags_bare _ _ _
           {| current := None; assembled := {| paths := []; tags := [] |} |}
           st (eq_refl true) Hfold).
Qed.

(** *** What the run does with tags *)

Lemma mount_tags (openapiObject mounted : obj) (stream : comment) :
  mount schemas (Ok openapiObject) stream = Ok mounted ->
  lookup "tags" mounted = lookup "tags" openapiObject.
Proof.
  unfold mount. cbn [bind]. intros H.
  destruct (fileFormat schemas stream) as [f| |]; try discriminate.
  - destruct (lookup "paths" openapiObject) as [present|]; [|discriminate].
    destruct (Deepmerge.deepmerge present (JObj (paths f))) as [merged| |];
      inversion H; subst; [|reflexivity].
    apply lookup_assign_neq. reflexivity.
  - inversion H; subst. reflexivity.
Qed.

Lemma mount_stuck (streams : list comment) (acc : outcome obj) :
  (forall o, acc <> Ok o) -> fold_left (mount schemas) streams acc = acc.
Proof.
  intros Hacc. induction streams as [|c streams IH]; [reflexivity|].
  cbn [fold_left]. destruct acc as [o| |]; [elim (Hacc o); reflexivity | |];
    exact IH.
Qed.

Lemma mounts_tags (streams : list comment) (openapiObject mounted : obj) :
  fold_left (mount schemas) streams (Ok openapiObject) = Ok mounted ->
  lookup "tags" mounted = lookup "tags" openapiObject.
Proof.
  revert openapiObject. induction streams as [|c streams IH];
    intros openapiObject H.
  - inversion H; subst. reflexivity.
  - cbn [fold_left] in H.
    destruct (mount schemas (Ok openapiObject) c) as [o1| |] eqn:Hc.
    + rewrite (IH o1 H). apply (mount_tags _ _ _ Hc).
    + rewrite mount_stuck in H by discriminate. discriminate.
    + rewrite mount_stuck in H by discriminate. discriminate.
Qed.

Lemma files_tags (files : list (list comment)) (openapiObject mounted : obj) :
  fold_left (fun acc parsedFile =>
               fold_left (mount schemas) (filterJsDocComments parsedFile) acc)
            files (Ok openapiObject) = Ok mounted ->
  lookup "tags" mounted = lookup "tags" openapiObject.
Proof.
  revert openapiObject. induction files as [|parsedFile files IH];
    intros openapiObject H.
  - inversion H; subst. reflexivity.
  - cbn [fold_left] in H.
    destruct (fold_left (mount schemas) (filterJsDocComments parsedFile)
                        (Ok openapiObject)) as [o1| |] eqn:Hfile.
    + rewrite (IH o1 H). apply (mounts_tags _ _ _ Hfile).
    + exfalso. clear -H. induction files as [|f files IHf];
        [discriminate|].
      cbn [fold_left] in H. rewrite mount_stuck in H by discriminate.
      apply IHf, H.
    + exfalso. clear -H. induction files as [|f files IHf];
        [discriminate|].
      cbn [fold_left] in H. rewrite mount_stuck in H by discriminate.
      apply IHf, H.
Qed.

(** C2.  The tags of the streams stay out of the document.  [fileFormat]
    returns the tag of the group once per route, without looking for its
    name among those it has, and [generateSpecAndMount] merges the paths
    of a stream only: whatever the files hold, the [tags] of the document
    are those of the definition it was given.  For two streams of group
    [foo], described as [A] and as [B], and a definition without tags, the
    document has no tag. *)
Theorem C2_tags_not_registered :
  fileFormat schemas streamA
  = Ok {| paths := paths_of_streamA;
          tags := [ {| name := "foo"; description := "A" |} ] |}
  /\ fileFormat schemas streamB
     = Ok {| paths := paths_of_streamB;
             tags := [ {| name := "foo"; description := "B" |} ] |}
  /\ (exists openapiObject : obj,
         generateSpecAndMount schemas [] [[streamA; streamB]]
         = Ok openapiObject
         /\ lookup "tags" openapiObject = Some (JObj []))
  /\ (exists f : fragment,
         fileFormat schemas twoRoutes = Ok f
         /\ tags f = [ {| name := "foo"; description := "A" |};
                       {| name := "foo"; description := "A" |} ])
  /\ (forall (definition : obj) (files : list (list comment))
             (openapiObject : obj),
         generateSpecAndMount schemas definition files = Ok openapiObject ->
         lookup "tags" openapiObject
         = Some (Helpers.or_empty definition "tags")).
Proof.
  split; [reflexivity|]. split; [reflexivity|]. split; [|split].
  - eexists. split; reflexivity.
  - eexists. split; reflexivity.
  - intros definition files openapiObject H.
    unfold generateSpecAndMount in H.
    destruct (attachSchemas schemas (Helpers.buildOpenAPI3Base definition))
      as [attached| |] eqn:Hattached; cbn [bind] in H; try discriminate.
    rewrite (files_tags _ _ _ H).
    unfold attachSchemas in Hattached.
    destruct (lookup "components" (Helpers.buildOpenAPI3Base definition))
      as [[| | | | | |components]|]; try discriminate.
    injection Hattached as <-. reflexivity.
Qed.

End AssemblerFacts.

(** ** Merging documents *)

Section MergeFacts.

Import Deepmerge.

(** Induction on values, through arrays and objects. *)
Lemma json_nested_ind (P : json -> Prop) :
  P JUndefined -> P JNull -> (forall b, P (JBool b)) -> (forall n, P (JNum n)) ->
  (forall s, P (JStr s)) ->
  (forall l, Forall P l -> P (JArr l)) ->
  (forall o, Forall (fun kv => P (snd kv)) o -> P (JObj o)) ->
  forall v, P v.
Proof.
  intros Hu Hn Hb Hz Hs Ha Ho.
  fix IH 1. intros [| |b|n|s|l|o].
  - exact Hu.
  - exact Hn.
  - apply Hb.
  - apply Hz.
  - apply Hs.
  - apply Ha. induction l as [|x l IHl]; constructor; [apply IH | exact IHl].
  - apply Ho. induction o as [|[k x] o IHo]; constructor;
      [apply IH | exact IHo].
Qed.

Lemma mem_cons (k a : string) (l : list string) :
  mem k (a :: l) = String.eqb k a || mem k l.
Proof. reflexivity. Qed.

Lemma mem_app (k : string) (l1 l2 : list string) :
  mem k (l1 ++ l2) = mem k l1 || mem k l2.
Proof. apply existsb_app. Qed.

Lemma lookup_mem (k : string) (o : obj) :
  mem k (keys o) = match lookup k o with Some _ => true | None => false end.
Proof.
  induction o as [|[k' v] o IH]; cbn; [reflexivity|].
  destruct (String.eqb k k'); [reflexivity | exact IH].
Qed.

Lemma keys_assign (k : string) (v : json) (o : obj) :
  keys (assign k v o) = add (keys o) k.
Proof.
  unfold add, keys, mem. induction o as [|[k' v'] o IH]; [reflexivity|].
  cbn [assign map fst existsb].
  destruct (String.eqb k k') eqn:Hk; cbn [map fst orb].
  - apply String.eqb_eq in Hk. subst k'. reflexivity.
  - rewrite IH. destruct (existsb (String.eqb k) (map fst o)); reflexivity.
Qed.

Lemma mem_add (k k' : string) (K : list string) :
  mem k (add K k') = mem k K || String.eqb k k'.
Proof.
  unfold add. destruct (mem k' K) eqn:Hk'.
  - destruct (String.eqb k k') eqn:Hk; [|rewrite orb_false_r; reflexivity].
    apply String.eqb_eq in Hk. subst k'. rewrite Hk'. reflexivity.
  - rewrite mem_app. cbn. rewrite orb_false_r. reflexivity.
Qed.

Lemma mem_fold_add (k : string) (ks K : list string) :
  mem k (fold_left add ks K) = mem k K || mem k ks.
Proof.
  revert K. induction ks as [|k' ks IH]; intros K.
  - cbn. rewrite orb_false_r. reflexivity.
  - cbn [fold_left].
    change (mem k (k' :: ks)) with (String.eqb k k' || mem k ks).
    rewrite IH, mem_add, orb_assoc. reflexivity.
Qed.

Lemma fold_add_absorb (ks K : list string) :
  (forall k, mem k ks = true -> mem k K = true) -> fold_left add ks K = K.
Proof.
  induction ks as [|k ks IH]; intros Hks; cbn [fold_left]; [reflexivity|].
  assert (Hk : mem k K = true).
  { apply Hks. rewrite mem_cons, String.eqb_refl. reflexivity. }
  unfold add at 2. rewrite Hk. apply IH. intros k' Hk'.
  apply Hks. rewrite mem_cons, Hk'. apply orb_true_r.
Qed.

Lemma distinct_snoc (K : list string) (k : string) :
  distinct K = true -> mem k K = false -> distinct (K ++ [k]) = true.
Proof.
  induction K as [|k0 K IH]; intros HK Hk; [reflexivity|].
  cbn [distinct] in HK. rewrite mem_cons in Hk.
  apply andb_prop in HK as [Hk0 HK].
  apply orb_false_elim in Hk as [Hne Hk].
  change ((k0 :: K) ++ [k]) with (k0 :: (K ++ [k])). cbn [distinct].
  rewrite mem_app, (IH HK Hk), mem_cons.
  apply negb_true_iff in Hk0. rewrite Hk0.
  rewrite String.eqb_sym, Hne. reflexivity.
Qed.

Lemma distinct_add (K : list string) (k : string) :
  distinct K = true -> distinct (add K k) = true.
Proof.
  intros HK. unfold add. destruct (mem k K) eqn:Hk; [exact HK|].
  apply distinct_snoc; assumption.
Qed.

Lemma distinct_fold_add (ks K : list string) :
  distinct K = true -> distinct (fold_left add ks K) = true.
Proof.
  revert K. induction ks as [|k ks IH]; intros K HK; cbn; [exact HK|].
  apply IH, distinct_add, HK.
Qed.

(** Two objects with the same keys in the same order, each once, and the
    same value under each, are the same. *)
Lemma obj_ext (a b : obj) :
  distinct (keys a) = true -> keys a = keys b ->
  (forall k, lookup k a = lookup k b) -> a = b.
Proof.
  revert b. induction a as [|[k v] a IH]; intros [|[k' w] b] Hd Hkeys Hlook;
    try discriminate; [reflexivity|].
  cbn in Hkeys. inversion Hkeys as [[Hk Hrest]]. subst k'.
  cbn in Hd. apply andb_prop in Hd as [Hfresh Hd].
  apply negb_true_iff in Hfresh.
  pose proof (Hlook k) as Hv. cbn in Hv. rewrite String.eqb_refl in Hv.
  inversion Hv; subst w. f_equal.
  apply IH; [exact Hd | exact Hrest |].
  intros k'. destruct (String.eqb k' k) eqn:Hk'.
  - apply String.eqb_eq in Hk'. subst k'.
    pose proof (lookup_mem k a) as Ha. pose proof (lookup_mem k b) as Hb.
    unfold keys in Hrest. unfold keys in Ha, Hb.
    rewrite <- Hrest in Hb. rewrite Hfresh in Ha, Hb.
    destruct (lookup k a); [discriminate|].
    destruct (lookup k b); [discriminate|]. reflexivity.
  - pose proof (Hlook k') as H. cbn in H. rewrite Hk' in H. exact H.
Qed.

Lemma keys_mergeObject (t s d : obj) :
  keys (mergeObject t s d) = fold_left add (keys s) (keys d).
Proof.
  revert d. induction s as [|[k v] s IH]; intros d; cbn; [reflexivity|].
  rewrite IH, keys_assign. reflexivity.
Qed.

Lemma lookup_mergeObject (t s d : obj) (k : string) :
  distinct (keys s) = true ->
  lookup k (mergeObject t s d)
  = match lookup k s with
    | Some v => Some (combine t k v)
    | None => lookup k d
    end.
Proof.
  revert d. induction s as [|[k0 v0] s IH]; intros d Hs; cbn; [reflexivity|].
  cbn in Hs. apply andb_prop in Hs as [Hfresh Hs].
  apply negb_true_iff in Hfresh. rewrite (IH _ Hs).
  destruct (String.eqb k k0) eqn:Hk.
  - apply String.eqb_eq in Hk. subst k0.
    pose proof (lookup_mem k s) as Hm. unfold keys in Hm.
    rewrite Hfresh in Hm. destruct (lookup k s); [discriminate|].
    apply lookup_assign_eq.
  - destruct (lookup k s); [reflexivity|].
    apply lookup_assign_neq. exact Hk.
Qed.

Lemma skeleton_object (o : obj) :
  skeleton (JObj o) = JObj (skeleton_fields o).
Proof.
  cbn. f_equal. induction o as [|[k x] o IH]; cbn; [reflexivity|].
  rewrite IH. reflexivity.
Qed.

Lemma keys_skeleton_fields (o : obj) : keys (skeleton_fields o) = keys o.
Proof.
  unfold keys, skeleton_fields. rewrite map_map. reflexivity.
Qed.

Lemma lookup_skeleton_fields (k : string) (o : obj) :
  lookup k (skeleton_fields o) = option_map skeleton (lookup k o).
Proof.
  induction o as [|[k' x] o IH]; cbn; [reflexivity|].
  destruct (String.eqb k k'); [reflexivity | exact IH].
Qed.

Lemma overlay_objects (t s : obj) :
  overlay (JObj t) (JObj s) = JObj (mergeObject t s t).
Proof.
  cbn [overlay]. f_equal. generalize t at 2 4 as d.
  induction s as [|[k v] s IH]; intros d; cbn; [reflexivity|].
  rewrite IH. reflexivity.
Qed.

Lemma lookup_In (k : string) (v : json) (o : obj) :
  lookup k o = Some v -> In (k, v) o.
Proof.
  induction o as [|[k' v'] o IH]; cbn; [discriminate|].
  destruct (String.eqb k k') eqn:Hk.
  - apply String.eqb_eq in Hk. intros H; inversion H; subst. left; reflexivity.
  - intros H. right. apply IH, H.
Qed.

Lemma plain_object (o : obj) :
  plain (JObj o) = true ->
  distinct (keys o) = true
  /\ (forall k x, In (k, x) o -> plain x = true).
Proof.
  cbn. intros H. apply andb_prop in H as [Hd Hall]. split; [exact Hd|].
  clear Hd. induction o as [|[k' x'] o IH]; intros k x Hin; [contradiction|].
  apply andb_prop in Hall as [Hx Hall]. apply andb_prop in Hx as [_ Hx].
  destruct Hin as [Heq|Hin].
  - inversion Heq; subst. exact Hx.
  - apply (IH Hall k x Hin).
Qed.

(** What the loop over the incoming keys does the second time. *)
Lemma mergeObject_again (t s : obj) :
  distinct (keys t) = true -> distinct (keys s) = true ->
  (forall k x v, lookup k t = Some x -> lookup k s = Some v ->
                 isMergeableObject v = true ->
                 skeleton (overlay (overlay x v) v) = skeleton (overlay x v)) ->
  (forall k v, lookup k s = Some v -> isMergeableObject v = true ->
               skeleton (overlay v v) = skeleton v) ->
  let R := mergeObject t s t in
  skeleton_fields (mergeObject R s R) = skeleton_fields R.
Proof.
  intros Ht Hs Hmain Hself R.
  assert (HkeysR : keys R = fold_left add (keys s) (keys t))
    by apply keys_mergeObject.
  assert (Hkeys : keys (mergeObject R s R) = keys R).
  { rewrite keys_mergeObject. apply fold_add_absorb.
    intros k Hk. rewrite HkeysR, mem_fold_add, Hk. apply orb_true_r. }
  apply obj_ext.
  - rewrite keys_skeleton_fields, Hkeys, HkeysR.
    apply distinct_fold_add, Ht.
  - rewrite !keys_skeleton_fields. exact Hkeys.
  - intros k. rewrite !lookup_skeleton_fields.
    rewrite (lookup_mergeObject R s R k Hs).
    assert (HR : lookup k R = match lookup k s with
                              | Some v => Some (combine t k v)
                              | None => lookup k t
                              end)
      by apply (lookup_mergeObject t s t k Hs).
    destruct (lookup k s) as [v|] eqn:Hv; [|reflexivity].
    rewrite HR. cbn [option_map]. f_equal.
    unfold combine at 1. rewrite HR. unfold combine.
    destruct (isMergeableObject v) eqn:Hm.
    + destruct (lookup k t) as [x|] eqn:Hx.
      * apply (Hmain k x v Hx Hv Hm).
      * apply (Hself k v Hv Hm).
    + destruct (lookup k t); reflexivity.
Qed.

Lemma mergeObject_itself (s : obj) :
  distinct (keys s) = true ->
  (forall k v, lookup k s = Some v -> isMergeableObject v = true ->
               skeleton (overlay v v) = skeleton v) ->
  skeleton_fields (mergeObject s s s) = skeleton_fields s.
Proof.
  intros Hs Hself.
  assert (Hkeys : keys (mergeObject s s s) = keys s).
  { rewrite keys_mergeObject. apply fold_add_absorb. intros k Hk; exact Hk. }
  apply obj_ext.
  - rewrite keys_skeleton_fields, Hkeys. exact Hs.
  - rewrite !keys_skeleton_fields. exact Hkeys.
  - intros k. rewrite !lookup_skeleton_fields.
    rewrite (lookup_mergeObject s s s k Hs).
    destruct (lookup k s) as [v|] eqn:Hv; [|reflexivity].
    cbn [option_map]. f_equal. unfold combine. rewrite Hv.
    destruct (isMergeableObject v) eqn:Hm; [|reflexivity].
    apply (Hself k v Hv Hm).
Qed.

Lemma overlay_twice (v : json) :
  plain v = true ->
  (forall x, plain x = true ->
             skeleton (overlay (overlay x v) v) = skeleton (overlay x v))
  /\ skeleton (overlay v v) = skeleton v.
Proof.
  induction v as [| | | | |l IHl|s IHs] using json_nested_ind; intros Hv;
    try (split; [intros x _|]; reflexivity).
  - (* arrays are concatenated *)
    split; [intros x _|]; [destruct x|]; reflexivity.
  - destruct (plain_object s Hv) as [Hs Hvalues].
    assert (Hself : forall k v, lookup k s = Some v ->
                                isMergeableObject v = true ->
                                skeleton (overlay v v) = skeleton v).
    { intros k v Hk _. apply lookup_In in Hk.
      rewrite Forall_forall in IHs.
      apply (IHs (k, v) Hk), (Hvalues k v Hk). }
    assert (Hitself : skeleton (overlay (JObj s) (JObj s)) = skeleton (JObj s)).
    { rewrite overlay_objects, !skeleton_object.
      rewrite (mergeObject_itself s Hs Hself). reflexivity. }
    split; [|exact Hitself].
    assert (Hobjects : forall t, plain (JObj t) = true ->
               skeleton (overlay (overlay (JObj t) (JObj s)) (JObj s))
               = skeleton (overlay (JObj t) (JObj s))).
    { intros t Hplain. destruct (plain_object t Hplain) as [Ht Htvalues].
      rewrite !overlay_objects, !skeleton_object. f_equal.
      apply mergeObject_again; try assumption.
      intros k x v Hx Hk _. apply lookup_In in Hk. apply lookup_In in Hx.
      rewrite Forall_forall in IHs.
      apply (IHs (k, v) Hk); [apply (Hvalues k v Hk) | apply (Htvalues k x Hx)]. }
    intros x Hx. destruct x; try exact (Hobjects [] eq_refl).
    + (* the present value is an array: the incoming object replaces it *)
      exact Hitself.
    + apply Hobjects, Hx.
Qed.

(** *** The package and the plain merge *)

Lemma clone_object (o : obj) : clone (JObj o) = JObj (cloneFields o []).
Proof.
  cbn [clone]. f_equal. unfold cloneFields. generalize (@nil (string * json)).
  induction o as [|[k x] o IH]; intros d; cbn [fold_left fst snd];
    [reflexivity | apply IH].
Qed.

Lemma merge_object (target : json) (s : obj) :
  (forall l, target <> JArr l) ->
  merge target (JObj s)
  = JObj (mergeFields target
            (match target with JObj t => t | _ => [] end) s
            (map (fun kv => (fst kv, clone (snd kv)))
                 (match target with JObj t => t | _ => [] end))).
Proof.
  intros Htarget. 
  assert (Hloop : forall t d,
             (fix mergeObject (s : obj) (destination : obj) : obj :=
                match s with
                | [] => destination
                | (key, v) :: s' =>
                    mergeObject s'
                      (if propertyIsUnsafe target key then destination
                       else
                         assign key
                           (match lookup key t with
                            | Some x =>
                                if isMergeableObject v then merge x v
                                else clone v
                            | None => clone v
                            end)
                           destination)
                end) s d
             = mergeFields target t s d).
  { intros t. unfold mergeFields, merged. induction s as [|[k v] s IH]; intros d;
      cbn [fold_left fst snd]; [reflexivity | apply IH]. }
  destruct target as [| | | | |l|t]; cbn [merge]; rewrite ?Hloop; try reflexivity.
  elim (Htarget l). reflexivity.
Qed.

Lemma overlay_object (target : json) (s : obj) :
  (forall l, target <> JArr l) ->
  overlay target (JObj s)
  = JObj (mergeObject (match target with JObj t => t | _ => [] end) s
                      (match target with JObj t => t | _ => [] end)).
Proof.
  intros Htarget.
  assert (Hloop : forall t d,
             (fix mergeObject (s : obj) (destination : obj) : obj :=
                match s with
                | [] => destination
                | (key, v) :: s' =>
                    mergeObject s'
                      (assign key
                         (match lookup key t with
                          | Some x =>
                              if isMergeableObject v then overlay x v else v
                          | None => v
                          end)
                         destination)
                end) s d
             = mergeObject t s d).
  { intros t. induction s as [|[k v] s IH]; intros d; cbn; [reflexivity | apply IH]. }
  destruct target as [| | | | |l|t]; cbn [overlay]; rewrite ?Hloop; try reflexivity.
  elim (Htarget l). reflexivity.
Qed.

Lemma assign_fresh (k : string) (v : json) (o : obj) :
  mem k (keys o) = false -> assign k v o = o ++ [(k, v)].
Proof.
  induction o as [|[k' v'] o IH]; [reflexivity|].
  cbn [keys map fst]. rewrite mem_cons. intros H.
  apply orb_false_iff in H as [Hk H]. cbn [assign]. rewrite Hk.
  cbn [List.app]. f_equal. apply IH, H.
Qed.

Lemma distinct_middle (A B : list string) (k : string) :
  distinct (A ++ k :: B) = true -> mem k A = false.
Proof.
  induction A as [|a A IH]; [reflexivity|].
  cbn [List.app distinct]. intros H. apply andb_prop in H as [Ha H].
  apply negb_true_iff in Ha. rewrite mem_app, mem_cons in Ha.
  apply orb_false_iff in Ha as [_ Ha]. apply orb_false_iff in Ha as [Ha _].
  rewrite mem_cons, String.eqb_sym, Ha. exact (IH H).
Qed.

Lemma plain_fields (o : obj) :
  plain (JObj o) = true ->
  distinct (keys o) = true
  /\ (forall k x, In (k, x) o -> inherited k = false /\ plain x = true).
Proof.
  cbn. intros H. apply andb_prop in H as [Hd Hall]. split; [exact Hd|].
  clear Hd. induction o as [|[k' x'] o IH]; intros k x Hin; [contradiction|].
  apply andb_prop in Hall as [Hx Hall]. apply andb_prop in Hx as [Hk Hx].
  destruct Hin as [Heq|Hin].
  - inversion Heq; subst. split; [apply negb_true_iff, Hk | exact Hx].
  - apply (IH Hall k x Hin).
Qed.

Lemma plain_intro (o : obj) :
  distinct (keys o) = true ->
  (forall k x, In (k, x) o -> inherited k = false /\ plain x = true) ->
  plain (JObj o) = true.
Proof.
  intros Hd Hall. cbn -[inherited]. rewrite Hd. cbn [andb]. clear Hd.
  induction o as [|[k x] o IH]; [reflexivity|].
  destruct (Hall k x (or_introl eq_refl)) as [Hk Hx].
  rewrite Hk, Hx. cbn [negb andb]. apply IH.
  intros k' x' Hin. apply Hall. right. exact Hin.
Qed.

Lemma plain_items (l : list json) :
  plain (JArr l) = true <-> Forall (fun x => plain x = true) l.
Proof.
  cbn. induction l as [|x l IH]; [split; [constructor | reflexivity]|].
  split.
  - intros H. apply andb_prop in H as [Hx H]. constructor; [exact Hx | apply IH, H].
  - intros H. inversion H; subst. apply andb_true_intro. split; [assumption | apply IH; assumption].
Qed.

Lemma cloneFields_plain (o d : obj) :
  distinct (keys d ++ keys o) = true ->
  (forall k x, In (k, x) o -> inherited k = false /\ clone x = x) ->
  cloneFields o d = d ++ o.
Proof.
  revert d. induction o as [|[k x] o IH]; intros d Hd Hall.
  - cbn. rewrite List.app_nil_r. reflexivity.
  - destruct (Hall k x (or_introl eq_refl)) as [Hk Hx].
    unfold cloneFields. cbn [fold_left fst snd]. rewrite Hk, Hx.
    cbn [keys map fst] in Hd.
    rewrite (assign_fresh k x d (distinct_middle _ _ _ Hd)).
    fold (cloneFields o (d ++ [(k, x)])). rewrite IH.
    + rewrite <- List.app_assoc. reflexivity.
    + unfold keys. rewrite map_app. cbn [map fst]. rewrite <- List.app_assoc. exact Hd.
    + intros k' x' Hin. apply Hall. right. exact Hin.
Qed.

Lemma clone_plain (v : json) : plain v = true -> clone v = v.
Proof.
  induction v as [| | | | |l IHl|o IHo] using json_nested_ind; intros Hv;
    try reflexivity.
  - cbn [clone]. f_equal. apply plain_items in Hv.
    induction l as [|x l IH]; [reflexivity|].
    inversion IHl; subst. inversion Hv; subst. cbn [map]. f_equal; auto.
  - rewrite clone_object. f_equal.
    destruct (plain_fields o Hv) as [Hd Hall].
    rewrite (cloneFields_plain o []); [reflexivity | exact Hd |].
    intros k x Hin. destruct (Hall k x Hin) as [Hk Hx]. split; [exact Hk|].
    rewrite Forall_forall in IHo. exact (IHo (k, x) Hin Hx).
Qed.

Lemma map_clone_plain (l : list json) :
  Forall (fun x => plain x = true) l -> map clone l = l.
Proof.
  induction 1 as [|x l Hx _ IH]; [reflexivity|].
  cbn [map]. rewrite (clone_plain x Hx), IH. reflexivity.
Qed.

Lemma clone_values_plain (t : obj) :
  (forall k x, In (k, x) t -> plain x = true) ->
  map (fun kv => (fst kv, clone (snd kv))) t = t.
Proof.
  induction t as [|[k x] t IH]; intros Hall; [reflexivity|].
  cbn [map fst snd]. rewrite (clone_plain x (Hall k x (or_introl eq_refl))).
  f_equal. apply IH. intros k' x' Hin. apply (Hall k' x'). right. exact Hin.
Qed.

Lemma plain_target (target : json) :
  plain target = true ->
  (forall k x, In (k, x) (match target with JObj t => t | _ => [] end) ->
               plain x = true)
  /\ distinct (keys (match target with JObj t => t | _ => [] end)) = true
  /\ (forall k x, In (k, x) (match target with JObj t => t | _ => [] end) ->
                  inherited k = false).
Proof.
  intros H. destruct target as [| | | | |l|t];
    try (repeat split; [intros k x [] | intros k x []]).
  destruct (plain_fields t H) as [Hd Hall]. repeat split; [|exact Hd|];
    intros k x Hin; apply (Hall k x Hin).
Qed.

(** On values without member names of [Object.prototype] among their
    keys the package merges as [overlay] does. *)
Lemma mergeFields_plain (target : json) (t s d : obj) :
  (forall k v, In (k, v) s ->
               inherited k = false /\ merged t k v = combine t k v) ->
  mergeFields target t s d = mergeObject t s d.
Proof.
  revert d. induction s as [|[k v] s IH]; intros d Hall; [reflexivity|].
  destruct (Hall k v (or_introl eq_refl)) as [Hk Hv].
  unfold mergeFields. cbn [fold_left fst snd mergeObject].
  assert (Hsafe : propertyIsUnsafe target k = false)
    by (destruct target; cbn [propertyIsUnsafe]; rewrite ?Hk; reflexivity).
  rewrite Hsafe, Hv. apply IH. intros k' v' Hin. apply Hall. right. exact Hin.
Qed.

Lemma merge_overlay (s : json) :
  plain s = true ->
  forall t, plain t = true -> merge t s = overlay t s.
Proof.
  induction s as [| | | | |l IHl|s IHs] using json_nested_ind; intros Hs t Ht;
    try reflexivity.
  - assert (Hl : Forall (fun x => plain x = true) l) by (apply plain_items, Hs).
    destruct t as [| | | | |lt|ot]; cbn [merge overlay];
      try exact (clone_plain (JArr l) Hs).
    f_equal. apply map_clone_plain. apply Forall_app. split; [|exact Hl].
    apply plain_items, Ht.
  - destruct (plain_fields s Hs) as [Hd Hall].
    destruct (plain_target t Ht) as (Hvalues & _ & _).
    assert (Hobject : (forall l, t <> JArr l) -> merge t (JObj s) = overlay t (JObj s)).
    { intros Hnot. rewrite (merge_object t s Hnot), (overlay_object t s Hnot).
      f_equal. rewrite (clone_values_plain _ Hvalues).
      apply mergeFields_plain. intros k v Hin.
      destruct (Hall k v Hin) as [Hk Hv]. split; [exact Hk|].
      unfold merged, combine.
      destruct (lookup k (match t with JObj t0 => t0 | _ => [] end))
        as [x|] eqn:Hx; [|exact (clone_plain v Hv)].
      destruct (isMergeableObject v); [|exact (clone_plain v Hv)].
      rewrite Forall_forall in IHs. apply (IHs (k, v) Hin Hv).
      apply lookup_In in Hx. exact (Hvalues k x Hx). }
    destruct t as [| | | | |lt|ot]; try (apply Hobject; discriminate).
    exact (clone_plain (JObj s) Hs).
Qed.

Lemma In_lookup (k : string) (x : json) (o : obj) :
  distinct (keys o) = true -> In (k, x) o -> lookup k o = Some x.
Proof.
  induction o as [|[k' x'] o IH]; intros Hd Hin; [contradiction|].
  cbn [keys map fst distinct] in Hd. apply andb_prop in Hd as [Hfresh Hd].
  apply negb_true_iff in Hfresh. cbn [lookup].
  destruct Hin as [Heq|Hin].
  - inversion Heq; subst. rewrite String.eqb_refl. reflexivity.
  - destruct (String.eqb k k') eqn:Hk; [|exact (IH Hd Hin)].
    apply String.eqb_eq in Hk. subst k'.
    pose proof (lookup_mem k o) as Hm. fold (keys o) in Hfresh.
    rewrite Hfresh, (IH Hd Hin) in Hm. discriminate Hm.
Qed.

Lemma plain_overlay (s : json) :
  plain s = true ->
  forall t, plain t = true -> plain (overlay t s) = true.
Proof.
  induction s as [| | | | |l IHl|s IHs] using json_nested_ind; intros Hs t Ht;
    try exact Hs.
  - destruct t as [| | | | |lt|ot]; cbn [overlay]; try exact Hs.
    apply plain_items, Forall_app. split; apply plain_items; assumption.
  - destruct (plain_fields s Hs) as [Hd Hall].
    destruct (plain_target t Ht) as (Hvalues & Hdt & Hkeys).
    assert (Hobject : (forall l, t <> JArr l) -> plain (overlay t (JObj s)) = true).
    { intros Hnot. rewrite (overlay_object t s Hnot).
      set (t0 := match t with JObj t0 => t0 | _ => [] end) in *.
      assert (HdR : distinct (keys (mergeObject t0 s t0)) = true)
        by (rewrite keys_mergeObject; apply distinct_fold_add, Hdt).
      apply plain_intro; [exact HdR|].
      intros k x Hin. apply (In_lookup _ _ _ HdR) in Hin.
      rewrite (lookup_mergeObject t0 s t0 k Hd) in Hin.
      destruct (lookup k s) as [v|] eqn:Hv.
      - injection Hin as <-. apply lookup_In in Hv.
        destruct (Hall k v Hv) as [Hk Hplain]. split; [exact Hk|].
        unfold combine. destruct (lookup k t0) as [x0|] eqn:Hx0; [|exact Hplain].
        destruct (isMergeableObject v); [|exact Hplain].
        rewrite Forall_forall in IHs. apply (IHs (k, v) Hv Hplain).
        apply lookup_In in Hx0. exact (Hvalues k x0 Hx0).
      - apply lookup_In in Hin. split; [exact (Hkeys k x Hin) | exact (Hvalues k x Hin)]. }
    destruct t as [| | | | |lt|ot]; try (apply Hobject; discriminate).
    exact Hs.
Qed.

End MergeFacts.

Lemma openRoute_again (desc : string) (all : list tag) (t : tag)
    (st st1 st2 : assembly) :
  openRoute desc all t st = Ok st1 ->
  openRoute desc all t st1 = Ok st2 ->
  paths (assembled st2) = paths (assembled st1).
Proof.
  unfold openRoute. intros H1 H2.
  destruct (tag_description t) as [d|]; [|discriminate].
  remember (parseRoute d) as r eqn:Hr. clear Hr.
  destruct (parseTag all) as [tag| |]; cbn [bind] in H1, H2; try discriminate.
  unfold store in H1, H2.
  destruct (String.eqb (uri r) "__proto__"); [discriminate|].
  cbn [bind] in H1, H2.
  inversion H1; subst st1; clear H1. cbn [assembled paths] in H2.
  rewrite lookup_assign_eq in H2. cbn [spread] in H2.
  rewrite !assign_assign in H2. inversion H2; subst st2. reflexivity.
Qed.

(** C3, as the code has it.  Merging a fragment into the document a second
    time changes nothing but the contents of arrays: the two results have
    the same keys at every level (URIs, methods, fields), in the same
    order, and the same values outside arrays.  Within a stream,
    registering a route again puts the same operation under the same URI
    and method and leaves the paths as they were. *)
Theorem C3_merge_twice :
  (forall D F : json,
      Deepmerge.plain D = true -> Deepmerge.plain F = true ->
      Deepmerge.skeleton (Deepmerge.merge (Deepmerge.merge D F) F)
      = Deepmerge.skeleton (Deepmerge.merge D F))
  /\ (forall (desc : string) (all : list tag) (t : tag)
             (st st1 st2 : assembly),
         openRoute desc all t st = Ok st1 ->
         openRoute desc all t st1 = Ok st2 ->
         paths (assembled st2) = paths (assembled st1)).
Proof.
  split.
  - intros D F HD HF.
    rewrite (merge_overlay F HF D HD).
    rewrite (merge_overlay F HF _ (plain_overlay F HF D HD)).
    apply (proj1 (overlay_twice F HF) D HD).
  - apply openRoute_again.
Qed.

(** ** Descriptions made of declarations *)

Lemma append_assoc (a b c : string) : ((a ++ b) ++ c = a ++ (b ++ c))%string.
Proof. induction a as [|x a IH]; cbn; [reflexivity | rewrite IH; reflexivity]. Qed.

Lemma bullet_match_other (c : ascii) (s : string) :
  Text.eqc c Text.LF = false -> Text.bullet_match (String c s) = None.
Proof. intros Hc. cbn. rewrite Hc. reflexivity. Qed.

Lemma replace_bullets_line (sep l s : string) :
  free_of (fun c => Text.eqc c Text.LF) l = true ->
  Text.replace_bullets sep (l ++ s) 0 = (l ++ Text.replace_bullets sep s 0)%string.
Proof.
  intros Hl. induction l as [|c l IH]; [reflexivity|].
  cbn [free_of] in Hl. apply andb_prop in Hl as [Hc Hl].
  apply negb_true_iff in Hc.
  cbn [append Text.replace_bullets].
  rewrite (bullet_match_other c _ Hc), (IH Hl). reflexivity.
Qed.



Lemma prefix_other (sep : string) (a c : ascii) (s : string) :
  Ascii.eqb c a = false -> prefix (String a sep) (String c s) = false.
Proof.
  intros Hc. cbn -[ascii_dec]. destruct (ascii_dec a c) as [Heq|_]; [|reflexivity].
  subst c. rewrite Ascii.eqb_refl in Hc. discriminate.
Qed.

Lemma split_from_line (cur l s : string) :
  free_of tilde l = true ->
  Text.split_from "~~~" cur (l ++ s) 0 = Text.split_from "~~~" (cur ++ l) s 0.
Proof.
  revert cur. induction l as [|c l IH]; intros cur Hl.
  - rewrite append_empty. reflexivity.
  - cbn [free_of] in Hl. apply andb_prop in Hl as [Hc Hl].
    apply negb_true_iff in Hc. unfold tilde, Text.eqc in Hc.
    cbn [append Text.split_from].
    rewrite (prefix_other "~~" "~" c _ Hc), (IH _ Hl), append_snoc.
    reflexivity.
Qed.





Lemma take_append (key s : string) : Text.take (String.length key) (key ++ s) = key.
Proof.
  induction key as [|c key IH]; [destruct s; reflexivity|].
  cbn. rewrite IH. reflexivity.
Qed.


Lemma split_keys_skip (cur pre rest : string) (bol : bool) :
  pre <> "" ->
  Text.split_keys_from cur (pre ++ rest) (String.length pre) bol
  = Text.split_keys_from cur rest 0 false.
Proof.
  revert bol. induction pre as [|c pre IH]; intros bol Hpre; [contradiction|].
  cbn [append String.length Text.split_keys_from].
  destruct pre as [|d pre]; [reflexivity|].
  apply IH. discriminate.
Qed.


Lemma length_append (a b : string) :
  String.length (a ++ b) = (String.length a + String.length b)%nat.
Proof. induction a as [|c a IH]; cbn; [reflexivity | rewrite IH; reflexivity]. Qed.




Lemma free_of_append (p : ascii -> bool) (a b : string) :
  free_of p (a ++ b) = free_of p a && free_of p b.
Proof.
  induction a as [|c a IH]; [reflexivity|].
  cbn [append free_of]. rewrite IH, andb_assoc. reflexivity.
Qed.






(** ** Options *)

Section OptionsFacts.

Context {host : Host}.












Lemma sequence_length {A : Type} (l : list (outcome A)) (values : list A) :
  sequence l = Ok values -> List.length values = List.length l.
Proof.
  revert values. induction l as [|m l IH]; intros values H.
  - inversion H; reflexivity.
  - cbn [sequence] in H. destruct m as [a| |]; cbn [bind] in H; try discriminate.
    destruct (sequence l) as [r| |]; cbn [bind] in H; try discriminate.
    inversion H; subst. cbn. rewrite (IH r eq_refl). reflexivity.
Qed.



End OptionsFacts.

(** ** The tag catalog of swagger-helpers.js *)

(** [_attachTags] keeps the first tag of a name: a second tag of the same
    name, whatever its description, is left out. *)
Lemma attachTags_first_wins (catalog : list tagObject) (a b : tagObject) :
  name b = name a ->
  SwaggerHelpers._tagDuplicated catalog a = false ->
  SwaggerHelpers._attachTags [b] (SwaggerHelpers._attachTags [a] catalog)
  = catalog ++ [a].
Proof.
  intros Hname Hnew. unfold SwaggerHelpers._attachTags. cbn [fold_left].
  rewrite Hnew. unfold SwaggerHelpers._tagDuplicated.
  rewrite existsb_app. cbn [existsb]. rewrite Hname, String.eqb_refl.
  rewrite orb_true_r. reflexivity.
Qed.

(** ** The claims on sample inputs *)

(** The fragment of the users stream: the operation under [/users] and
    [get] has an empty [parameters] list. *)
Lemma C1_counterexample :
  (forall (host : Host) (schemas : obj),
      fileFormat schemas usersStream = Ok usersFragment)
  /\ lookup "/users" (paths usersFragment)
     = Some (JObj [("get", usersOperation)])
  /\ lookup "parameters" (spread usersOperation) = Some (JArr []).
Proof. repeat split. Qed.

(** The users stream, whose fragment carries no parameter and no content. *)
Lemma C1_witness :
  fileFormat (host:=mute) [] usersStream = Ok usersFragment
  /\ bare (paths usersFragment) = true.
Proof.
  split; [reflexivity|].
  apply (proj2 (proj2 (C1_users_scenario (host:=mute) [])) usersStream).
  reflexivity.
Defined.

(** Merging the paths of the users stream into themselves repeats the tag
    [foo], and a file holding the stream twice does not give the document
    of a file holding it once. *)
Lemma C3_counterexample :
  Deepmerge.deepmerge (JObj []) (JObj (paths usersFragment))
  = Ok (JObj (paths usersFragment))
  /\ Deepmerge.deepmerge (JObj (paths usersFragment))
                         (JObj (paths usersFragment))
     = Ok (JObj [("/users",
                  JObj [("get",
                         JObj [ ("tags", JArr [JStr "foo"; JStr "foo"]);
                                ("parameters", JArr []);
                                ("requestBody",
                                 JObj [ ("description", JStr "List the users");
                                        ("content", JObj []) ]) ])])])
  /\ (forall (host : Host) (schemas : obj),
         generateSpecAndMount schemas [] [[usersStream; usersStream]]
         <> generateSpecAndMount schemas [] [[usersStream]]).
Proof.
  split; [reflexivity|]. split; [reflexivity|].
  intros host schemas H. vm_compute in H. discriminate H.
Qed.

(** The paths of the users stream merged twice into a document that has
    another method under the same URI. *)
Lemma C3_witness :
  Deepmerge.plain (JObj [("/users", JObj [("post", fooOperation)])]) = true
  /\ Deepmerge.plain (JObj (paths usersFragment)) = true
  /\ Deepmerge.skeleton
       (Deepmerge.merge
          (Deepmerge.merge (JObj [("/users", JObj [("post", fooOperation)])])
                           (JObj (paths usersFragment)))
          (JObj (paths usersFragment)))
     = Deepmerge.skeleton
         (Deepmerge.merge (JObj [("/users", JObj [("post", fooOperation)])])
                          (JObj (paths usersFragment))).
Proof.
  split; [reflexivity|]. split; [reflexivity|].
  apply (proj1 C3_merge_twice); reflexivity.
Defined.



(** [Date] is not a primitive name, and compiles with any registry. *)
Lemma C5_counterexample :
  mem "Date" simpleNameExpressions = false
  /\ (forall (host : Host) (schemas : obj) (field : option string),
         constructPropertyType schemas field [] (NameExpression "Date")
         = Ok (JObj [("type", JStr "string")])).
Proof. split; reflexivity. Qed.

(** The four cases, for a registry that holds the model [User]. *)
Lemma C5_witness :
  constructPropertyType (host:=mute) userRegistry (Some "user") []
    (NameExpression "Unknown.model")
  = Throw (UnknownModel (Some "user") "Unknown")
  /\ constructPropertyType (host:=mute) userRegistry (Some "user") []
       (NameExpression "User.model")
     = Throw (UnknownModelProperty (Some "user") "model" "User")
  /\ constructPropertyType (host:=mute) userRegistry (Some "user") []
       (NameExpression "User.id")
     = Ok (JObj [("$ref", JStr "#/components/schemas/User/properties/id")])
  /\ constructPropertyType (host:=mute) userRegistry (Some "user") []
       (NameExpression "User")
     = Ok (JObj [("$ref", JStr "#/components/schemas/User")]).
Proof.
  pose proof (fun name => C5_model_reference (host:=mute) userRegistry
                            (Some "user") [] name) as H.
  split; [|split; [|split]].
  - apply (proj1 (H "Unknown.model" eq_refl eq_refl eq_refl));
      [discriminate | reflexivity | reflexivity].
  - eapply (proj1 (proj2 (H "User.model" eq_refl eq_refl eq_refl)));
      try reflexivity. discriminate.
  - eapply (proj1 (proj2 (proj2 (H "User.id" eq_refl eq_refl eq_refl))));
      try reflexivity; discriminate.
  - eapply (proj2 (proj2 (proj2 (H "User" eq_refl eq_refl eq_refl))));
      [reflexivity | discriminate | left; reflexivity].
Defined.

(** A stream with a parameter of unknown model, between two others. *)
Lemma C6_witness :
  fileFormat (host:=mute) userRegistry danglingStream
  = Throw (UnknownModel (Some "user") "Unknown")
  /\ (forall openapiObject : outcome obj,
         mount (host:=mute) userRegistry openapiObject danglingStream
         = openapiObject)
  /\ generateSpecAndMount (host:=mute) userRegistry []
       [[usersStream; danglingStream; streamA]]
     = generateSpecAndMount (host:=mute) userRegistry []
         [[usersStream; streamA]].
Proof.
  eapply (C6_stream_isolation (host:=mute) userRegistry [] [] []
            [usersStream] [streamA] danglingStream
            [mkTag "route" "POST /users"] [] danglingParam _ _
            "body.user" "the user" "Unknown.model");
    try reflexivity.
  discriminate.
Defined.

(** [^[a-z]+$] is a regular expression, and as the one type argument of
    [string] it gives a [format], not a [pattern]. *)
Lemma C7_counterexample :
  Regexp.valid "^[a-z]+$"
  /\ (forall (host : Host) (schemas : obj) (field : option string)
             (options : obj),
         constructPropertyType schemas field options
           (TypeApplication (NameExpression "string")
                            [StringLiteralType "^[a-z]+$"])
         = Ok (JObj [ ("type", JStr "string");
                      ("format", JStr "^[a-z]+$") ]))
  /\ JObj [("type", JStr "string"); ("format", JStr "^[a-z]+$")]
     <> JObj [("type", JStr "string"); ("pattern", JStr "^[a-z]+$")].
Proof.
  split; [|split; [reflexivity | discriminate]].
  exists (Regexp.Seq Regexp.LineStart
            (Regexp.Seq (Regexp.Plus (Regexp.Range "a" "z"))
                        Regexp.LineEnd)).
  split; reflexivity.
Qed.

(** [string.<"^[a-z]+$">] and [string.<"">] *)
Lemma C7_witness :
  opens_no_expression "^" = true
  /\ constructPropertyType (host:=mute) [] None []
       (TypeApplication (NameExpression "string")
                        [StringLiteralType "^[a-z]+$"])
     = Ok (JObj [("type", JStr "string"); ("format", JStr "^[a-z]+$")])
  /\ constructPropertyType (host:=mute) [] None []
       (TypeApplication (NameExpression "string") [StringLiteralType ""])
     = Ok (JObj [("type", JStr "string"); ("pattern", JStr "")]).
Proof.
  split; [reflexivity|].
  pose proof (C7_string_arguments (host:=mute) [] None [])
    as (_ & _ & Hformat & Hpattern).
  split; [exact (Hformat "^"%char "[a-z]+$" eq_refl) | exact Hpattern].
Defined.

(** [null | string] *)
Lemma C8_witness :
  is_NullLiteral (NameExpression "string") = false
  /\ constructPropertyType (host:=mute) [] None []
       (UnionType [NullLiteral; NameExpression "string"])
     = Ok (JObj [("type", JStr "string"); ("nullable", JBool true)]).
Proof.
  split; [reflexivity|].
  rewrite (proj1 (C8_nullable_union (host:=mute) [] None []
                    (NameExpression "string") eq_refl)).
  reflexivity.
Defined.

(** [integer] *)
Lemma C9_witness :
  In "integer" simpleNameExpressions
  /\ constructPropertyType (host:=mute) [] None [] (NameExpression "integer")
     = Ok (JObj [("type", JStr "integer")]).
Proof.
  assert (Hin : In "integer" simpleNameExpressions)
    by (right; right; left; reflexivity).
  split; [exact Hin|].
  apply (proj1 (C9_primitive_without_arguments (host:=mute) [] None []
                  "integer" Hin)).
Defined.

(** [query.name.required] against [query.name], for a type that is not
    optional. *)
Lemma C10_witness :
  dotless "query" = true /\ dotless "name" = true
  /\ constructProperty (host:=mute) [] nameParam
     = constructProperty (host:=mute) []
         (mkParam (NameExpression "string") "query.name" "filter")
  /\ exists type : ty,
       tag_type nameParam = Some type
       /\ (true = true <-> is_OptionalType type = false).
Proof.
  split; [reflexivity|]. split; [reflexivity|]. split.
  - apply (proj2 (C10_required_flag (host:=mute) []) "param" (Some "filter")
             (Some (NameExpression "string")) "query" "name" "required");
      reflexivity.
  - apply (proj1 (C10_required_flag (host:=mute) []) nameParam
             {| property := [("name", JObj [("type", JStr "string")])];
                required := true; location := "query" |}).
    reflexivity.
Defined.

(** * Further properties *)

(** ** Folds that stop at the first error *)

Lemma fold_Throw {A B : Type} (f : outcome A -> B -> outcome A)
    (l : list B) (e : error) :
  (forall b, f (Throw e) b = Throw e) -> fold_left f l (Throw e) = Throw e.
Proof. intros Hf. induction l as [|b l IH]; cbn; [|rewrite Hf]; auto. Qed.

Lemma fold_Beyond {A B : Type} (f : outcome A -> B -> outcome A)
    (l : list B) :
  (forall b, f Beyond b = Beyond) -> fold_left f l Beyond = Beyond.
Proof. intros Hf. induction l as [|b l IH]; cbn; [|rewrite Hf]; auto. Qed.

(** ** The constructors of the compiler *)

Section CompilerMore.

Context {host : Host}.
Variable schemas : obj.
Variable field : option string.
Variable options : obj.

Local Abbreviation compile :=
  (constructPropertyType (host:=host) schemas field options).

(** The node and the results a constructor receives for a type argument. *)
Local Abbreviation received :=
  (fun a => {| arg_node := a;
               arg_value := compile a;
               arg_inner := match a with
                            | TypeApplication _ l => map compile l
                            | _ => []
                            end |}).

Lemma reduce_from (l : list (outcome json)) (acc : outcome json)
    {B : Type} (k : outcome B) :
  (_ <- fold_left (fun acc m => _ <- acc ;; m) l acc ;; k)
  = (_ <- acc ;; _ <- sequence l ;; k).
Proof.
  revert acc. induction l as [|m l IH]; intros acc; cbn [fold_left sequence].
  - destruct acc; reflexivity.
  - rewrite IH. destruct acc as [a| |]; cbn [bind]; try reflexivity.
    destruct m as [b| |]; cbn [bind]; try reflexivity.
    destruct (sequence l); reflexivity.
Qed.

Lemma reduce_last_snoc (l : list (outcome json)) (m : outcome json) :
  reduce_last (l ++ [m]) = (_ <- sequence l ;; m).
Proof.
  unfold reduce_last. rewrite fold_left_app. cbn [fold_left].
  rewrite (reduce_from l (Ok (JObj [])) m). reflexivity.
Qed.

Lemma received_values (l : list ty) :
  map arg_value (map received l) = map compile l.
Proof. rewrite map_map. apply map_ext. reflexivity. Qed.

(** X1.  [Array] without type arguments throws a [TypeError]; applied to
    no argument it compiles to an array of [{}]; applied to arguments, all
    of them are compiled, in order, and the schema of the last one is the
    [items] of [{type: "array", items}]. *)
Theorem X1_array_items :
  compile (NameExpression "Array") = Throw TypeError
  /\ compile (TypeApplication (NameExpression "Array") [])
     = Ok (JObj [("type", JStr "array"); ("items", JObj [])])
  /\ (forall (before : list ty) (last : ty),
         compile (TypeApplication (NameExpression "Array") (before ++ [last]))
         = (_ <- sequence (map compile before) ;;
            items <- compile last ;;
            Ok (JObj [("type", JStr "array"); ("items", items)]))).
Proof.
  split; [reflexivity|]. split; [reflexivity|].
  intros before last.
  cbn [constructPropertyType].
  change (constructNameExpression schemas field options "Array"
            (Some (map received (before ++ [last]))))
    with (constructArray (Some (map received (before ++ [last])))).
  unfold constructArray.
  rewrite !map_app. cbn [map arg_value]. rewrite reduce_last_snoc.
  rewrite received_values.
  destruct (sequence (map compile before)) as [vs| |]; cbn [bind];
    try reflexivity.
  destruct (compile last); reflexivity.
Qed.

Lemma assigns_cons (k : string) (v : json) (fields o : obj) :
  assigns ((k, v) :: fields) o = assigns fields (assign k v o).
Proof. reflexivity. Qed.

(** The type argument [k.<t>]. *)
Local Abbreviation entry :=
  (fun kv : string * ty => TypeApplication (NameExpression (fst kv)) [snd kv]).

Lemma constructObject_entries (fields : list (string * ty)) (acc : obj) :
  forallb (fun kv => negb (String.eqb (fst kv) "__proto__")) fields = true ->
  fold_left
    (fun acc application =>
       accumulator <- acc ;;
       match arg_node application with
       | TypeApplication (NameExpression propertyName) _ =>
           v <- reduce_last (arg_inner application) ;;
           store propertyName v accumulator
       | TypeApplication OtherSyntax _ => Beyond
       | TypeApplication _ _ =>
           v <- reduce_last (arg_inner application) ;;
           store "undefined" v accumulator
       | _ => Throw TypeError
       end)
    (map received (map entry fields)) (Ok acc)
  = (values <- sequence (map (fun kv => compile (snd kv)) fields) ;;
     Ok (assigns (combine (map fst fields) values) acc)).
Proof.
  match goal with |- context [fold_left ?f] => set (step := f) end.
  assert (Hstep : forall (o : obj) (k : string) (t : ty),
             String.eqb k "__proto__" = false ->
             step (Ok o)
                  {| arg_node := TypeApplication (NameExpression k) [t];
                     arg_value := compile (TypeApplication (NameExpression k) [t]);
                     arg_inner := [compile t] |}
             = (v <- compile t ;; Ok (assign k v o))).
  { intros o k t Hk. unfold step, reduce_last, store.
    cbn [arg_node arg_inner map fold_left bind fst snd]. rewrite Hk.
    reflexivity. }
  revert acc. induction fields as [|[k t] fields IH]; intros acc Hkeys.
  - reflexivity.
  - cbn [forallb fst] in Hkeys. apply andb_prop in Hkeys as [Hk Hkeys].
    apply negb_true_iff in Hk.
    cbn [map fold_left fst snd sequence]. rewrite Hstep by exact Hk.
    destruct (compile t) as [v| |]; cbn [bind].
    + rewrite IH by exact Hkeys.
      destruct (sequence (map (fun kv => compile (snd kv)) fields));
        reflexivity.
    + apply fold_Throw. reflexivity.
    + apply fold_Beyond. reflexivity.
Qed.

(** X2.  [Object.<k1.<T1>, ..., kn.<Tn>>] compiles the types [T1] to [Tn]
    in order and returns [{type: "object", properties}], where [properties]
    holds each compiled type under its key, a repeated key keeping its
    first place and its last value.  A type argument that is a bare name,
    and [Object] without arguments, throw a [TypeError]. *)
Theorem X2_object_properties :
  (forall fields : list (string * ty),
      forallb (fun kv => negb (String.eqb (fst kv) "__proto__")) fields = true ->
      compile (TypeApplication (NameExpression "Object") (map entry fields))
      = (values <- sequence (map (fun kv => compile (snd kv)) fields) ;;
         Ok (JObj [ ("type", JStr "object");
                    ("properties",
                     JObj (assigns (combine (map fst fields) values) [])) ])))
  /\ (forall (name : string) (rest : list ty),
         compile (TypeApplication (NameExpression "Object")
                    (NameExpression name :: rest))
         = Throw TypeError)
  /\ compile (NameExpression "Object") = Throw TypeError.
Proof.
  split; [|split; [|reflexivity]].
  - intros fields Hkeys. cbn [constructPropertyType].
    change (constructNameExpression schemas field options "Object"
              (Some (map received (map entry fields))))
      with (constructObject (Some (map received (map entry fields)))).
    unfold constructObject. rewrite constructObject_entries by exact Hkeys.
    destruct (sequence (map (fun kv => compile (snd kv)) fields));
      reflexivity.
  - intros name rest. cbn [constructPropertyType].
    change (constructNameExpression schemas field options "Object"
              (Some (map received (NameExpression name :: rest))))
      with (constructObject (Some (map received (NameExpression name :: rest)))).
    unfold constructObject. cbn [map fold_left arg_node bind].
    rewrite fold_Throw by reflexivity. reflexivity.
Qed.

(** X3.  [Enum] applied to type arguments compiles to
    [{type: "string", enum}] with the compiled arguments in order: for
    string literals, the literals themselves.  Without arguments, [enum]
    is [options.items] when that is truthy and the empty list otherwise. *)
Theorem X3_enum_values :
  (forall (a : ty) (rest : list ty),
      compile (TypeApplication (NameExpression "Enum") (a :: rest))
      = (values <- sequence (map compile (a :: rest)) ;;
         Ok (JObj [("type", JStr "string"); ("enum", JArr values)])))
  /\ (forall (value : string) (values : list string),
         compile (TypeApplication (NameExpression "Enum")
                    (map StringLiteralType (value :: values)))
         = Ok (JObj [ ("type", JStr "string");
                      ("enum", JArr (map JStr (value :: values))) ]))
  /\ compile (NameExpression "Enum")
     = Ok (JObj [ ("type", JStr "string");
                  ("enum", match lookup "items" options with
                           | Some v => if truthy v then v else JArr []
                           | None => JArr []
                           end) ]).
Proof.
  assert (Hargs : forall (a : ty) (rest : list ty),
             compile (TypeApplication (NameExpression "Enum") (a :: rest))
             = (values <- sequence (map compile (a :: rest)) ;;
                Ok (JObj [("type", JStr "string"); ("enum", JArr values)]))).
  { intros a rest. cbn [constructPropertyType].
    change (constructNameExpression schemas field options "Enum"
              (Some (map received (a :: rest))))
      with (constructEnum options (Some (map received (a :: rest)))).
    unfold constructEnum.
    change (nonempty (Some (map received (a :: rest)))) with true.
    cbn [arguments]. rewrite received_values.
    destruct (sequence (map compile (a :: rest))); reflexivity. }
  split; [exact Hargs|]. split; [|reflexivity].
  intros value values. cbn [map]. rewrite Hargs.
  assert (Hliterals : forall l : list string,
             sequence (map compile (map StringLiteralType l))
             = Ok (map JStr l)).
  { induction l as [|x l IH]; [reflexivity|].
    cbn [map sequence]. change (map compile (map StringLiteralType l))
      with (map compile (map StringLiteralType l)) in IH.
    cbn [constructPropertyType bind]. rewrite IH. reflexivity. }
  change (compile (StringLiteralType value)
          :: map compile (map StringLiteralType values))
    with (map compile (map StringLiteralType (value :: values))).
  change (StringLiteralType value :: map StringLiteralType values)
    with (map StringLiteralType (value :: values)).
  rewrite Hliterals. reflexivity.
Qed.

Local Abbreviation formatOf :=
  (formatSchema (host:=host) schemas field options).

Lemma with_format_received (l : list ty) :
  map with_format (map received l) = map formatOf l.
Proof. rewrite map_map. apply map_ext. reflexivity. Qed.

(** X4.  [Date] applied to arguments compiles to [{anyOf}] of one
    [{type: "string", format}] per argument, even for a single argument;
    [File] applied to one argument compiles to that single schema and to
    [{oneOf}] for two arguments or more.  Without arguments both compile to
    [{type: "string"}], with [options.format] when it is truthy. *)
Theorem X4_date_and_file :
  (forall (a : ty) (rest : list ty),
      compile (TypeApplication (NameExpression "Date") (a :: rest))
      = (l <- sequence (map formatOf (a :: rest)) ;;
         Ok (JObj [("anyOf", JArr l)])))
  /\ (forall a : ty,
         compile (TypeApplication (NameExpression "File") [a])
         = (v <- compile a ;;
            Ok (JObj [("type", JStr "string"); ("format", v)])))
  /\ (forall (a b : ty) (rest : list ty),
         compile (TypeApplication (NameExpression "File") (a :: b :: rest))
         = (l <- sequence (map formatOf (a :: b :: rest)) ;;
            Ok (JObj [("oneOf", JArr l)])))
  /\ compile (NameExpression "Date") = compile (NameExpression "File")
  /\ compile (NameExpression "File")
     = Ok (JObj (("type", JStr "string")
                 :: match lookup "format" options with
                    | Some v => if truthy v then [("format", v)] else []
                    | None => []
                    end)).
Proof.
  split; [|split; [|split; [|split; reflexivity]]].
  - intros a rest. cbn [constructPropertyType].
    change (constructNameExpression schemas field options "Date"
              (Some (map received (a :: rest))))
      with (constructDate options (Some (map received (a :: rest)))).
    unfold constructDate.
    change (nonempty (Some (map received (a :: rest)))) with true.
    cbn [arguments]. rewrite with_format_received.
    destruct (sequence (map formatOf (a :: rest))); reflexivity.
  - intros a. cbn [constructPropertyType].
    change (constructNameExpression schemas field options "File"
              (Some (map received [a])))
      with (constructFile options (Some (map received [a]))).
    unfold constructFile.
    change (nonempty (Some (map received [a]))) with true.
    cbn [arguments]. rewrite with_format_received.
    cbn [map sequence]. unfold formatSchema.
    destruct (compile a); reflexivity.
  - intros a b rest. cbn [constructPropertyType].
    change (constructNameExpression schemas field options "File"
              (Some (map received (a :: b :: rest))))
      with (constructFile options (Some (map received (a :: b :: rest)))).
    unfold constructFile.
    change (nonempty (Some (map received (a :: b :: rest)))) with true.
    cbn [arguments]. rewrite with_format_received.
    destruct (sequence (map formatOf (a :: b :: rest)))
      as [props| |] eqn:Hs; cbn [bind]; try reflexivity.
    apply sequence_length in Hs. cbn [map List.length] in Hs.
    destruct props as [|p [|q props]]; try discriminate Hs. reflexivity.
Qed.

Lemma union_nullable (elements : list ty) :
  existsb fst (map (fun e => (is_NullLiteral e, compile e)) elements)
  = existsb is_NullLiteral elements.
Proof.
  induction elements as [|e l IH]; [reflexivity|].
  cbn [map existsb fst]. rewrite IH. reflexivity.
Qed.

Lemma union_others (elements : list ty) :
  filter (fun e => negb (fst e))
         (map (fun e => (is_NullLiteral e, compile e)) elements)
  = map (fun e => (is_NullLiteral e, compile e))
        (filter (fun e => negb (is_NullLiteral e)) elements).
Proof.
  induction elements as [|e l IH]; [reflexivity|].
  cbn [map filter fst].
  destruct (is_NullLiteral e) eqn:He; cbn [negb map].
  - exact IH.
  - rewrite He, IH. reflexivity.
Qed.

(** X5.  A union compiles from its branches that are not the null
    literal: without such a branch it throws a [TypeError]; with exactly
    one it gives the schema of that branch with [nullable] set; with two
    or more it gives [{anyOf, nullable}] of their schemas in order.
    [nullable] tells whether the union has a null literal among its
    branches. *)
Theorem X5_union_branches (elements : list ty) :
  let others := filter (fun e => negb (is_NullLiteral e)) elements in
  let nullable := JBool (existsb is_NullLiteral elements) in
  (others = [] -> compile (UnionType elements) = Throw TypeError)
  /\ (forall other : ty,
         others = [other] ->
         compile (UnionType elements)
         = (v <- compile other ;;
            Ok (JObj (assign "nullable" nullable (spread v)))))
  /\ ((2 <= List.length others)%nat ->
      compile (UnionType elements)
      = (l <- sequence (map compile others) ;;
         Ok (JObj [("anyOf", JArr l); ("nullable", nullable)]))).
Proof.
  intros others nullable. cbn [constructPropertyType].
  unfold constructUnionType. rewrite union_nullable, union_others.
  fold others. fold nullable. rewrite length_map.
  split; [|split].
  - intros Hnone. rewrite Hnone. reflexivity.
  - intros other Hone. rewrite Hone. cbn [map List.length Nat.ltb Nat.leb snd].
    destruct (compile other); reflexivity.
  - intros Hmany. rewrite map_map. cbn [snd].
    destruct (Nat.ltb_spec 1 (List.length others)) as [_|Hfew]; [|lia].
    destruct (sequence (map (fun x => compile x) others)) eqn:Hs;
      cbn [bind].
    + reflexivity.
    + reflexivity.
    + reflexivity.
Qed.

End CompilerMore.

(** ** The registry grows *)

Lemma ty_nested_ind (P : ty -> Prop) :
  P NullLiteral -> P AllLiteral ->
  (forall name, P (NameExpression name)) ->
  (forall value, P (StringLiteralType value)) ->
  (forall expression, P expression -> P (OptionalType expression)) ->
  (forall expression applications,
      P expression -> Forall P applications ->
      P (TypeApplication expression applications)) ->
  (forall elements, Forall P elements -> P (UnionType elements)) ->
  P OtherSyntax ->
  forall t, P t.
Proof.
  intros Hnull Hall Hname Hstring Hoptional Happlication Hunion Hother.
  fix IH 1. intros [| | | |e|e l|l|].
  - exact Hnull.
  - exact Hall.
  - apply Hname.
  - apply Hstring.
  - apply Hoptional, IH.
  - apply Happlication; [apply IH|].
    induction l as [|a l IHl]; constructor; [apply IH | exact IHl].
  - apply Hunion.
    induction l as [|a l IHl]; constructor; [apply IH | exact IHl].
  - exact Hother.
Qed.

Lemma settles_refl {A : Type} (m : outcome A) : settles m m.
Proof. intros a H. exact H. Qed.

Lemma settles_bind {A B : Type} (m m' : outcome A) (k k' : A -> outcome B) :
  settles m m' -> (forall a, settles (k a) (k' a)) ->
  settles (bind m k) (bind m' k').
Proof.
  intros Hm Hk b H. destruct m as [a| |]; try discriminate H.
  rewrite (Hm a eq_refl). cbn [bind] in *. apply Hk, H.
Qed.

Lemma settles_sequence {A : Type} (l l' : list (outcome A)) :
  Forall2 settles l l' -> settles (sequence l) (sequence l').
Proof.
  induction 1 as [|m m' l l' Hm _ IH]; [apply settles_refl|].
  cbn [sequence]. apply settles_bind; [exact Hm|]. intros a.
  apply settles_bind; [exact IH|]. intros r. apply settles_refl.
Qed.

Lemma settles_fold {A B : Type} (f f' : outcome A -> B -> outcome A)
    (l l' : list B) (R : B -> B -> Prop) :
  (forall acc acc' b b', settles acc acc' -> R b b' ->
                         settles (f acc b) (f' acc' b')) ->
  Forall2 R l l' ->
  forall acc acc', settles acc acc' ->
                   settles (fold_left f l acc) (fold_left f' l' acc').
Proof.
  intros Hf Hl. induction Hl as [|b b' l l' Hb _ IH]; intros acc acc' Hacc.
  - exact Hacc.
  - cbn [fold_left]. apply IH, Hf; assumption.
Qed.

Lemma settles_reduce_last (l l' : list (outcome json)) :
  Forall2 settles l l' -> settles (reduce_last l) (reduce_last l').
Proof.
  intros Hl. unfold reduce_last.
  apply (settles_fold _ _ l l' settles); [|exact Hl|apply settles_refl].
  intros acc acc' m m' Hacc Hm. apply settles_bind; [exact Hacc|].
  intros _. exact Hm.
Qed.

Lemma Forall2_map {A B C : Type} (R : B -> C -> Prop) (f : A -> B)
    (g : A -> C) (l : list A) :
  Forall (fun a => R (f a) (g a)) l -> Forall2 R (map f l) (map g l).
Proof. induction 1; cbn [map]; constructor; assumption. Qed.

Section Growth.

Context {host : Host}.
Variables schemas schemas' : obj.
Variables field field' : option string.
Variable options : obj.

Hypothesis kept :
  forall (model : string) (s : json),
    lookup model schemas = Some s -> lookup model schemas' = Some s.

Lemma member_kept (model : string) (s : json) :
  member (JObj schemas) model = Ok s -> is_undefined s = false ->
  member (JObj schemas') model = Ok s.
Proof.
  cbn [member]. intros Hs Hdefined.
  destruct (lookup model schemas) as [x|] eqn:Hx.
  - rewrite (kept _ _ Hx). exact Hs.
  - destruct (inherited model); [discriminate|].
    injection Hs as <-. discriminate Hdefined.
Qed.

Lemma property_kept (s : json) (model property : string) :
  settles
    (ps <- member s "properties" ;;
     p <- member ps property ;;
     if is_undefined p
     then Throw (UnknownModelProperty field property model)
     else Ok (JObj [("$ref", JStr ("#/components/schemas/" ++ model
                                   ++ "/properties/" ++ property))]))
    (ps <- member s "properties" ;;
     p <- member ps property ;;
     if is_undefined p
     then Throw (UnknownModelProperty field' property model)
     else Ok (JObj [("$ref", JStr ("#/components/schemas/" ++ model
                                   ++ "/properties/" ++ property))])).
Proof.
  intros v H.
  destruct (member s "properties") as [ps| |]; cbn [bind] in *;
    try discriminate H.
  destruct (member ps property) as [p| |]; cbn [bind] in *;
    try discriminate H.
  destruct (is_undefined p); [discriminate H | exact H].
Qed.

Lemma reference_kept (name : string) :
  settles (reference schemas field name) (reference schemas' field' name).
Proof.
  intros v. unfold reference.
  set (model := hd "" (Text.split "." name)).
  set (modelProperty := nth_error (Text.split "." name) 1).
  destruct (String.eqb model "") eqn:Hmodel; cbn [bind].
  - destruct modelProperty as [[|c property]|]; try (intros H; exact H).
    destruct (member (JObj schemas) model) as [s| |] eqn:Hs;
      cbn [bind]; try discriminate.
    cbn [member] in Hs.
    destruct (lookup model schemas) as [x|] eqn:Hx.
    + injection Hs as ->. cbn [member]. rewrite (kept _ _ Hx).
      cbn [bind]. apply property_kept.
    + destruct (inherited model); [discriminate|]. injection Hs as <-.
      cbn [member bind]. discriminate.
  - destruct (member (JObj schemas) model) as [s| |] eqn:Hs;
      cbn [bind]; try discriminate.
    destruct (is_undefined s) eqn:Hdefined; [discriminate|].
    rewrite (member_kept _ _ Hs Hdefined). cbn [bind]. rewrite Hdefined.
    destruct modelProperty as [[|c property]|]; try (intros H; exact H).
    apply property_kept.
Qed.

Lemma constructArray_follows (l l' : list argument) :
  Forall2 follows l l' ->
  settles (constructArray (Some l)) (constructArray (Some l')).
Proof.
  intros Hl. unfold constructArray. apply settles_bind.
  - apply settles_reduce_last.
    induction Hl as [|a a' l l' (_ & Ha & _) _ IH]; cbn [map]; constructor;
      assumption.
  - intros a. apply settles_refl.
Qed.

Lemma values_follow (l l' : list argument) :
  Forall2 follows l l' -> Forall2 settles (map arg_value l) (map arg_value l').
Proof.
  induction 1 as [|a a' l l' (_ & Ha & _) _ IH]; cbn [map]; constructor;
    assumption.
Qed.

Lemma constructObject_follows (l l' : list argument) :
  Forall2 follows l l' ->
  settles (constructObject (Some l)) (constructObject (Some l')).
Proof.
  intros Hl. unfold constructObject. apply settles_bind.
  - apply (settles_fold _ _ l l' follows); [|exact Hl|apply settles_refl].
    intros acc acc' a a' Hacc (Hnode & _ & Hinner).
    apply settles_bind; [exact Hacc|]. intros accumulator.
    rewrite <- Hnode.
    destruct (arg_node a) as [| | | | |e args| |]; try apply settles_refl.
    destruct e; try apply settles_refl;
      (apply settles_bind;
       [apply settles_reduce_last; exact Hinner | intros v; apply settles_refl]).
  - intros a. apply settles_refl.
Qed.

Lemma nonempty_follows (l l' : list argument) :
  Forall2 follows l l' -> nonempty (Some l) = nonempty (Some l').
Proof. destruct 1; reflexivity. Qed.

Lemma mapped_follow (f : argument -> outcome json) (l l' : list argument) :
  (forall a a', follows a a' -> settles (f a) (f a')) ->
  Forall2 follows l l' -> Forall2 settles (map f l) (map f l').
Proof.
  intros Hf. induction 1; cbn [map]; constructor; [apply Hf|]; assumption.
Qed.

Lemma with_format_follows (a a' : argument) :
  follows a a' -> settles (with_format a) (with_format a').
Proof.
  intros (_ & Ha & _). unfold with_format. apply settles_bind; [exact Ha|].
  intros v. apply settles_refl.
Qed.

Lemma formatOrPattern_follows (a a' : argument) :
  follows a a' -> settles (formatOrPattern a) (formatOrPattern a').
Proof.
  intros (_ & Ha & _). unfold formatOrPattern.
  apply settles_bind; [exact Ha|]. intros v. apply settles_refl.
Qed.

Lemma constructNameExpression_follows (name : string)
    (applications applications' : option (list argument)) :
  match applications, applications' with
  | Some l, Some l' => Forall2 follows l l'
  | None, None => True
  | _, _ => False
  end ->
  settles (constructNameExpression schemas field options name applications)
          (constructNameExpression schemas' field' options name applications').
Proof.
  intros Happlications. unfold constructNameExpression.
  destruct (mem name simpleNameExpressions).
  { destruct applications as [l|], applications' as [l'|];
      try contradiction; [|apply settles_refl].
    rewrite (nonempty_follows _ _ Happlications).
    destruct (nonempty (Some l') && String.eqb name "string");
      [|apply settles_refl].
    cbn [arguments]. apply settles_bind.
    - apply settles_sequence, mapped_follow;
        [exact formatOrPattern_follows | exact Happlications].
    - intros props. apply settles_refl. }
  destruct (mem name typeConstructors).
  { destruct applications as [l|], applications' as [l'|];
      try contradiction.
    - destruct (String.eqb name "Array");
        [apply constructArray_follows; exact Happlications|].
      destruct (String.eqb name "Object");
        [apply constructObject_follows; exact Happlications|].
      destruct (String.eqb name "Enum").
      { unfold constructEnum. rewrite (nonempty_follows _ _ Happlications).
        apply settles_bind; [|intros; apply settles_refl].
        destruct (nonempty (Some l')); [|apply settles_refl].
        cbn [arguments]. apply settles_bind; [|intros; apply settles_refl].
        apply settles_sequence, values_follow, Happlications. }
      destruct (String.eqb name "Date").
      { unfold constructDate. rewrite (nonempty_follows _ _ Happlications).
        destruct (nonempty (Some l')); [|apply settles_refl].
        cbn [arguments]. apply settles_bind; [|intros; apply settles_refl].
        apply settles_sequence, mapped_follow;
          [exact with_format_follows | exact Happlications]. }
      destruct (String.eqb name "File").
      { unfold constructFile. rewrite (nonempty_follows _ _ Happlications).
        destruct (nonempty (Some l')); [|apply settles_refl].
        cbn [arguments]. apply settles_bind; [|intros; apply settles_refl].
        apply settles_sequence, mapped_follow;
          [exact with_format_follows | exact Happlications]. }
      apply settles_refl.
    - apply settles_refl. }
  destruct (inherited name); [apply settles_refl|].
  apply reference_kept.
Qed.

Lemma constructUnionType_follows (elements elements' : list (bool * outcome json)) :
  Forall2 (fun e e' => fst e = fst e' /\ settles (snd e) (snd e'))
          elements elements' ->
  settles (constructUnionType elements) (constructUnionType elements').
Proof.
  intros He. unfold constructUnionType.
  assert (Hnullable : existsb fst elements = existsb fst elements').
  { induction He as [|e e' l l' [Hfst _] _ IH]; [reflexivity|].
    cbn [existsb]. rewrite Hfst, IH. reflexivity. }
  assert (Hothers : Forall2 (fun e e' => settles (snd e) (snd e'))
                      (filter (fun e => negb (fst e)) elements)
                      (filter (fun e => negb (fst e)) elements')).
  { clear Hnullable.
    induction He as [|e e' l l' [Hfst Hsnd] _ IH]; [constructor|].
    cbn [filter]. rewrite Hfst. destruct (negb (fst e'));
      [constructor|]; assumption. }
  rewrite Hnullable.
  set (others := filter (fun e => negb (fst e)) elements) in *.
  set (others' := filter (fun e => negb (fst e)) elements') in *.
  rewrite (Forall2_length Hothers).
  apply settles_bind; [|intros; apply settles_refl].
  destruct (1 <? List.length others')%nat.
  - apply settles_bind; [|intros; apply settles_refl].
    apply settles_sequence.
    induction Hothers; cbn [map]; constructor; assumption.
  - destruct Hothers as [|e e' l l' Hsnd _]; [apply settles_refl|].
    apply settles_bind; [exact Hsnd | intros; apply settles_refl].
Qed.

Lemma constructPropertyType_kept (t : ty) :
  settles (constructPropertyType schemas field options t)
          (constructPropertyType schemas' field' options t)
  /\ match t with
     | TypeApplication _ l =>
         Forall2 settles (map (constructPropertyType schemas field options) l)
                 (map (constructPropertyType schemas' field' options) l)
     | _ => True
     end.
Proof.
  induction t as [| |name|value|e IHe|e l IHe IHl|l IHl|] using ty_nested_ind;
    try (split; [apply settles_refl | exact I]).
  - split; [|exact I]. cbn [constructPropertyType].
    apply constructNameExpression_follows. exact I.
  - split; [|exact I]. cbn [constructPropertyType].
    apply settles_bind; [apply IHe | intros; apply settles_refl].
  - assert (Hinner : Forall2 settles
                       (map (constructPropertyType schemas field options) l)
                       (map (constructPropertyType schemas' field' options) l)).
    { apply Forall2_map. eapply Forall_impl; [|exact IHl].
      intros a [Ha _]. exact Ha. }
    split; [|exact Hinner]. cbn [constructPropertyType].
    apply settles_bind; [|intros; apply settles_refl].
    destruct e; try apply IHe.
    apply constructNameExpression_follows.
    apply Forall2_map. eapply Forall_impl; [|exact IHl].
    intros a [Ha Hargs]. repeat split; [exact Ha|].
    destruct a; try constructor. exact Hargs.
  - split; [|exact I]. cbn [constructPropertyType].
    apply constructUnionType_follows. apply Forall2_map.
    eapply Forall_impl; [|exact IHl]. intros a [Ha _]. split; [reflexivity|].
    exact Ha.
Qed.

End Growth.

(** X6.  A type expression that compiles keeps its schema when the
    registry gains models and when the field named in error messages
    changes: the compiler reads of the registry only whether the models and
    properties it is asked for are there. *)
Theorem X6_registry_grows {host : Host} (schemas schemas' : obj)
    (field field' : option string) (options : obj) (t : ty) (v : json) :
  (forall (model : string) (s : json),
      lookup model schemas = Some s -> lookup model schemas' = Some s) ->
  constructPropertyType schemas field options t = Ok v ->
  constructPropertyType schemas' field' options t = Ok v.
Proof.
  intros Hkept.
  exact (proj1 (constructPropertyType_kept schemas schemas' field field'
                  options Hkept t) v).
Qed.

Section OptionalParameters.

Context {host : Host}.
Variable schemas : obj.

(** X7.  A parameter of optional type [{T=}] is constructed as the
    parameter of type [{T}], errors included, with [required] false and
    the schema spread into a fresh object, which leaves an object schema as
    it is. *)
Theorem X7_optional_parameter (title : string) (d : option string)
    (t : ty) (n : option string) :
  constructProperty schemas
    {| tag_title := title; tag_description := d;
       tag_type := Some (OptionalType t); tag_name := n |}
  = (r <- constructProperty schemas
            {| tag_title := title; tag_description := d;
               tag_type := Some t; tag_name := n |} ;;
     Ok {| property := map (fun kv => (fst kv, JObj (spread (snd kv))))
                           (property r);
           required := false;
           location := location r |}).
Proof.
  unfold constructProperty. cbn [tag_name tag_description tag_type].
  destruct n as [name|]; [|reflexivity].
  destruct d as [description|]; [|reflexivity].
  destruct (optionsReducer description) as [accumulated| |]; cbn [bind];
    try reflexivity.
  destruct (constructOptions (JObj accumulated) None) as [options| |];
    cbn [bind]; try reflexivity.
  destruct (negb (mem (hd "" (Text.split "." name))
                      ["query"; "path"; "body"; "headers"])); [reflexivity|].
  cbn [constructPropertyType is_OptionalType negb].
  destruct (constructPropertyType schemas (nth_error (Text.split "." name) 1)
              options t) as [v| |]; cbn [bind]; reflexivity.
Qed.

End OptionalParameters.

Lemma forallb_keys_assign (P : string -> bool) (k : string) (v : json)
    (o : obj) :
  P k = true -> forallb P (keys o) = true ->
  forallb P (keys (assign k v o)) = true.
Proof.
  intros Hk. induction o as [|[k' v'] o IH]; cbn [assign keys map forallb fst].
  - rewrite Hk. reflexivity.
  - intros H. apply andb_prop in H as [Hk' Ho].
    destruct (String.eqb k k'); cbn [map forallb fst].
    + rewrite Hk. exact Ho.
    + rewrite Hk'. apply IH, Ho.
Qed.

Section OptionsMore.

Context {host : Host}.

(** [constructOptions] on an object is the loop over its entries. *)
Lemma constructOptions_loop (P : obj -> Prop) (Q : string -> bool)
    (level : option string) (entries : obj) :
  P [] ->
  (forall levelStore levelStore' key option,
      Q key = true -> P levelStore ->
      constructOption constructOptions level levelStore key option
      = Ok levelStore' ->
      P levelStore') ->
  forallb Q (keys entries) = true ->
  forall options,
    constructOptions (JObj entries) level = Ok options -> P options.
Proof.
  intros Hstart Hturn. cbn [constructOptions].
  revert Hstart. generalize (@nil (string * json)).
  induction entries as [|[key option] entries IH];
    intros levelStore Hstore Hkeys options.
  - intros H. injection H as <-. exact Hstore.
  - intros H. cbn [keys map forallb fst] in Hkeys.
    apply andb_prop in Hkeys as [Hkey Hkeys].
    destruct (constructOption constructOptions level levelStore key option)
      as [levelStore'| |] eqn:Hk; cbn [bind] in H; try discriminate H.
    exact (IH levelStore' (Hturn _ _ _ _ Hkey Hstore Hk) Hkeys options H).
Qed.

Lemma promote_keys (P : string -> bool) (levelKey key : string)
    (option : json) (levelStore levelStore' : obj) :
  P levelKey = true -> forallb P (keys levelStore) = true ->
  promote levelKey key option levelStore = Ok levelStore' ->
  forallb P (keys levelStore') = true.
Proof.
  intros HP Hstore. unfold promote.
  destruct option; try discriminate.
  destruct (lookup levelKey levelStore) as [[]|]; try discriminate;
    intros H; injection H as <-; apply forallb_keys_assign; assumption.
Qed.

Lemma constructOption_keys (nested : json -> option string -> outcome obj)
    (levelStore levelStore' : obj) (key : string) (option : json) :
  (String.eqb key "level" = false -> option_key key = true) ->
  forallb option_key (keys levelStore) = true ->
  constructOption nested None levelStore key option = Ok levelStore' ->
  forallb option_key (keys levelStore') = true.
Proof.
  intros Hkey Hstore. unfold constructOption.
  destruct (String.eqb key "level").
  { intros H. injection H as <-. exact Hstore. }
  specialize (Hkey eq_refl).
  destruct (String.eqb key "__proto__"); [discriminate|].
  destruct (mem key keywordsParameter || inherited key).
  { assert (Hpromote : forall levelStore',
               promote "anyOf" key option levelStore = Ok levelStore' ->
               forallb option_key (keys levelStore') = true).
    { intros s. apply promote_keys; [reflexivity | exact Hstore]. }
    destruct option as [| | | |[|c [|c' s]]|[|v [|v' l]]|o];
      try apply Hpromote;
      try (intros H; injection H as <-; apply forallb_keys_assign;
           assumption).
    destruct (lookup "length" o) as [[| | |[| | |[|[| |]|]]| | |]|];
      try discriminate;
      intros H; injection H as <-; apply forallb_keys_assign; assumption. }
  destruct (mem key compositions).
  { destruct (nested option (Some key)); try discriminate.
    intros H; injection H as <-; apply forallb_keys_assign; assumption. }
  destruct (String.eqb key "not").
  { destruct (nested option None); try discriminate.
    intros H; injection H as <-; apply forallb_keys_assign; assumption. }
  destruct (keyword key option); try discriminate.
  intros H; injection H as <-; apply forallb_keys_assign; assumption.
Qed.

(** The keys [optionsReducer] writes. *)
Local Abbreviation stored :=
  (fun k => String.eqb k "level" || option_key k).

Lemma stored_keyword (k : string) : option_key k = true -> stored k = true.
Proof. intros H. cbn beta. rewrite H. apply orb_true_r. Qed.

Lemma accumulate_keys (P : string -> bool) (key : string) (v : json)
    (accumulator accumulator' : obj) :
  P key = true -> forallb P (keys accumulator) = true ->
  accumulate key v accumulator = Ok accumulator' ->
  forallb P (keys accumulator') = true.
Proof.
  intros HP Hacc. unfold accumulate.
  destruct (lookup key accumulator) as [[]|]; try discriminate;
    intros H; injection H as <-; apply forallb_keys_assign; assumption.
Qed.

Lemma mem_keywordsObject (k : string) :
  mem k keywordsObject = true -> option_key k = true.
Proof. intros H. unfold option_key, keyword_key. rewrite H. reflexivity. Qed.

Lemma mem_keywordsParameter (k : string) :
  mem k keywordsParameter = true -> option_key k = true.
Proof.
  intros H. unfold option_key, keyword_key. rewrite H, orb_true_r.
  reflexivity.
Qed.

Lemma reduceOption_keys (accumulator accumulator' : obj) (option : string) :
  forallb stored (keys accumulator) = true ->
  reduceOption accumulator option = Ok accumulator' ->
  forallb stored (keys accumulator') = true.
Proof.
  intros Hacc. unfold reduceOption.
  set (pieces := filter (fun v => negb (String.eqb v "")) (Text.split_keys option)).
  destruct (nth_error pieces 0) as [key0|].
  2:{ intros H; injection H as <-. apply forallb_keys_assign;
        [reflexivity | exact Hacc]. }
  set (key := if Text.test_key key0 then Text.strip_colon key0 else key0).
  set (value := match nth_error pieces 1 with
                | Some v => JStr (if Text.test_key key0 then Text.trim v else v)
                | None => JUndefined
                end).
  destruct (mem key keywordsObject || inherited key) eqn:Hobject.
  { assert (Hkey : stored key = true).
    { apply stored_keyword. unfold option_key, keyword_key.
      apply orb_true_iff in Hobject as [-> | ->];
        [reflexivity | apply orb_true_r]. }
    destruct (mem key ["not"; "allOf"; "anyOf"; "oneOf"]);
      [|destruct (String.eqb key "__proto__")];
      intros H; injection H as <-.
    - apply forallb_keys_assign; [reflexivity|].
      apply forallb_keys_assign; [exact Hkey | exact Hacc].
    - exact Hacc.
    - apply forallb_keys_assign; [exact Hkey | exact Hacc]. }
  destruct (mem key keywordsParameter) eqn:Hparameter.
  { assert (Hkey : stored key = true)
      by (apply stored_keyword, mem_keywordsParameter, Hparameter).
    destruct (lookup "level" accumulator) as [[| | | |level| |]|];
      try (intros H; injection H as <-; exact Hacc);
      try (destruct (coerce key value) as [v| |]; cbn [bind];
           try discriminate;
           apply accumulate_keys; [exact Hkey | exact Hacc]).
    destruct (mem level ["allOf"; "anyOf"; "oneOf"; "not"]) eqn:Hlevel.
    2:{ intros H; injection H as <-; exact Hacc. }
    destruct (coerce key value) as [v| |]; cbn [bind]; try discriminate.
    destruct (lookup level accumulator) as [[| | | | | |nested]|];
      try discriminate.
    destruct (accumulate key v nested); cbn [bind]; try discriminate.
    intros H; injection H as <-. apply forallb_keys_assign; [|exact Hacc].
    apply stored_keyword, mem_keywordsObject.
    apply existsb_exists in Hlevel as (l & Hin & Hl).
    apply String.eqb_eq in Hl. subst l.
    repeat (destruct Hin as [<- | Hin]; [reflexivity|]). contradiction. }
  intros H; injection H as <-. apply forallb_keys_assign;
    [reflexivity | exact Hacc].
Qed.

Lemma optionsReducer_keys (description : string) (accumulated : obj) :
  optionsReducer description = Ok accumulated ->
  forallb stored (keys accumulated) = true.
Proof.
  unfold optionsReducer.
  generalize (Text.split "~~~" (Text.replace_bullets "~~~" description 0)).
  assert (Hstart : forallb stored (keys [("level", JUndefined)]) = true)
    by reflexivity.
  revert Hstart. generalize [("level", JUndefined)].
  intros start Hstart lines. revert start Hstart.
  induction lines as [|line lines IH]; intros start Hstart; cbn [fold_left].
  - intros H; injection H as <-. exact Hstart.
  - cbn [bind]. destruct (reduceOption start line) as [next| |] eqn:Hline.
    + apply IH. exact (reduceOption_keys _ _ _ Hstart Hline).
    + rewrite fold_Throw by reflexivity. discriminate.
    + rewrite fold_Beyond by reflexivity. discriminate.
Qed.

Lemma lookup_outside (P : string -> bool) (k : string) (o : obj) :
  forallb P (keys o) = true -> P k = false -> lookup k o = None.
Proof.
  intros Ho Hk. induction o as [|[k' v] o IH]; [reflexivity|].
  cbn [keys map forallb fst] in Ho. apply andb_prop in Ho as [Hk' Ho].
  cbn [lookup]. destruct (String.eqb k k') eqn:Heq.
  - apply String.eqb_eq in Heq. subst k'. congruence.
  - apply IH, Ho.
Qed.

(** X8.  The options parsed from a description have no key outside the
    two keyword tables and the member names of [Object.prototype], which
    the tables inherit: the line [toString: x] gives [{toString: "x"}].
    In particular the options have no [items], so that an [Enum] without
    type arguments compiles with them to an empty [enum]. *)
Theorem X8_option_keys (description : string) (options : obj) :
  parseOptions description = Ok options ->
  forallb option_key (keys options) = true
  /\ lookup "items" options = None
  /\ (forall (schemas : obj) (field : option string),
         constructPropertyType schemas field options (NameExpression "Enum")
         = Ok (JObj [("type", JStr "string"); ("enum", JArr [])])).
Proof.
  unfold parseOptions.
  destruct (optionsReducer description) as [accumulated| |] eqn:Hreduced;
    cbn [bind]; try discriminate.
  intros Hoptions.
  assert (Hkeys : forallb option_key (keys options) = true).
  { apply (constructOptions_loop
             (fun o => forallb option_key (keys o) = true)
             (fun k => String.eqb k "level" || option_key k)
             None accumulated); [reflexivity| |
             exact (optionsReducer_keys _ _ Hreduced) | exact Hoptions].
    intros levelStore levelStore' key option Hkey Hstore.
    apply constructOption_keys; [|exact Hstore].
    intros Hlevel. rewrite Hlevel in Hkey. exact Hkey. }
  assert (Hitems : lookup "items" options = None)
    by (apply (lookup_outside option_key); [exact Hkeys | reflexivity]).
  split; [exact Hkeys|]. split; [exact Hitems|].
  intros schemas field. cbn [constructPropertyType].
  change (constructNameExpression schemas field options "Enum" None)
    with (constructEnum options None).
  unfold constructEnum, option_or. cbn [nonempty]. rewrite Hitems.
  reflexivity.
Qed.

(** A description of one line. *)
Lemma optionsReducer_line (line : string) :
  free_of (fun c => Text.eqc c Text.LF) line = true ->
  free_of tilde line = true ->
  optionsReducer line = reduceOption [("level", JUndefined)] line.
Proof.
  intros HLF Htilde. unfold optionsReducer.
  pose proof (replace_bullets_line "~~~" line "" HLF) as Hbullets.
  rewrite append_empty in Hbullets. cbn [Text.replace_bullets] in Hbullets.
  rewrite append_empty in Hbullets. rewrite Hbullets.
  unfold Text.split.
  pose proof (split_from_line "" line "" Htilde) as Hsplit.
  rewrite append_empty in Hsplit. rewrite Hsplit. reflexivity.
Qed.


Lemma free_of_drop (p : ascii -> bool) (n : nat) (s : string) :
  free_of p s = true -> free_of p (Text.drop n s) = true.
Proof.
  revert s. induction n as [|n IH]; intros [|c s] H; cbn [Text.drop];
    try exact H.
  cbn [free_of] in H. apply andb_prop in H as [_ H]. apply IH, H.
Qed.

Lemma key_match_colon_free (s : string) :
  colon_free s = true -> Text.key_match s = None.
Proof.
  intros H. unfold Text.key_match.
  pose proof (free_of_drop _ (Text.span_length Text.is_alnum s) s H) as Hd.
  destruct (Text.drop (Text.span_length Text.is_alnum s) s) as [|c r];
    [reflexivity|].
  cbn [free_of] in Hd. apply andb_prop in Hd as [Hc _].
  apply negb_true_iff in Hc. rewrite Hc. reflexivity.
Qed.

Lemma split_keys_colon_free (s cur : string) (bol : bool) :
  colon_free s = true ->
  Text.split_keys_from cur s 0 bol = [(cur ++ s)%string].
Proof.
  revert cur bol. induction s as [|c s IH]; intros cur bol H.
  - cbn [Text.split_keys_from]. rewrite append_empty. reflexivity.
  - cbn [Text.split_keys_from]. rewrite (key_match_colon_free _ H).
    destruct bol; (rewrite IH;
      [rewrite append_snoc; reflexivity
      | cbn [colon_free free_of] in H; apply andb_prop in H as [_ H];
        exact H]).
Qed.

Lemma test_key_colon_free (s : string) (bol : bool) :
  colon_free s = true -> Text.test_key_from s bol = false.
Proof.
  revert bol. induction s as [|c s IH]; intros bol H; [reflexivity|].
  cbn [Text.test_key_from]. rewrite (key_match_colon_free _ H).
  rewrite IH.
  - destruct bol; reflexivity.
  - cbn [colon_free free_of] in H. apply andb_prop in H as [_ H]. exact H.
Qed.

(** X10.  A one-line description without colon that is no keyword is
    kept whole as [options.description]; the empty description gives a
    [description] that is [undefined]. *)
Theorem X10_free_text :
  parseOptions "" = Ok [("description", JUndefined)]
  /\ (forall text : string,
         text <> "" ->
         colon_free text = true ->
         free_of (fun c => Text.eqc c Text.LF) text = true ->
         free_of tilde text = true ->
         keyword_key text = false ->
         inherited text = false ->
         parseOptions text = Ok [("description", JStr text)]).
Proof.
  split; [reflexivity|].
  intros text Htext Hcolon HLF Htilde Hkeyword Hown.
  apply orb_false_iff in Hkeyword as [Hobject Hparameter].
  unfold parseOptions. rewrite (optionsReducer_line _ HLF Htilde).
  unfold reduceOption, Text.split_keys.
  rewrite (split_keys_colon_free text "" true Hcolon).
  cbn [append filter]. rewrite (eqb_empty_false _ Htext).
  cbn [negb nth_error]. unfold Text.test_key.
  rewrite (test_key_colon_free text true Hcolon).
  rewrite Hown, Hobject, Hparameter. reflexivity.
Qed.









End OptionsMore.

(** ** Splitting on one character *)

Lemma prefix_char (sep c : ascii) (s : string) :
  prefix (String sep "") (String c s) = Ascii.eqb sep c.
Proof.
  cbn -[ascii_dec]. destruct (ascii_dec sep c) as [->|Hne].
  - rewrite Ascii.eqb_refl. destruct s; reflexivity.
  - symmetry. apply Ascii.eqb_neq. exact Hne.
Qed.

Lemma split_from_piece (sep : ascii) (l cur : string) :
  free_of (Text.eqc sep) l = true ->
  Text.split_from (String sep "") cur l 0 = [(cur ++ l)%string].
Proof.
  revert cur. induction l as [|c l IH]; intros cur Hl.
  - cbn [Text.split_from]. rewrite append_empty. reflexivity.
  - cbn [free_of] in Hl. apply andb_prop in Hl as [Hc Hl].
    apply negb_true_iff in Hc. unfold Text.eqc in Hc.
    cbn [Text.split_from]. rewrite prefix_char, Hc.
    rewrite (IH _ Hl), append_snoc. reflexivity.
Qed.

Lemma split_from_pieces (sep : ascii) (l cur rest : string) :
  free_of (Text.eqc sep) l = true ->
  Text.split_from (String sep "") cur (l ++ String sep rest) 0
  = (cur ++ l)%string :: Text.split_from (String sep "") "" rest 0.
Proof.
  revert cur. induction l as [|c l IH]; intros cur Hl.
  - cbn [append Text.split_from]. rewrite prefix_char, Ascii.eqb_refl.
    rewrite append_empty. cbn [String.length Nat.sub].
    destruct rest; reflexivity.
  - cbn [free_of] in Hl. apply andb_prop in Hl as [Hc Hl].
    apply negb_true_iff in Hc. unfold Text.eqc in Hc.
    cbn [append Text.split_from]. rewrite prefix_char, Hc.
    rewrite (IH _ Hl), append_snoc. reflexivity.
Qed.

Lemma split_from_nonempty (sep cur s : string) (skip : nat) :
  Text.split_from sep cur s skip <> [].
Proof.
  revert cur skip. induction s as [|c s IH]; intros cur skip;
    cbn [Text.split_from]; [discriminate|].
  destruct skip; [|apply IH].
  destruct (prefix sep (String c s)); [discriminate | apply IH].
Qed.

(** ** parseRoute *)

Lemma lower_not_upper (c : ascii) : is_upper (Text.lower c) = false.
Proof. destruct c as [[] [] [] [] [] [] [] []]; reflexivity. Qed.

Lemma toLowerCase_not_upper (s : string) :
  free_of is_upper (Text.toLowerCase s) = true.
Proof.
  induction s as [|c s IH]; [reflexivity|].
  cbn [Text.toLowerCase free_of]. rewrite lower_not_upper, IH. reflexivity.
Qed.

(** X17.  The method of a parsed route is never empty and holds none of
    the letters [A] to [Z].  For [m u] with [m] of ASCII characters and no
    space in [m] and [u], the method is [m] in lower case ([get] when [m]
    is empty) and the URI is [u]; what follows a second space is ignored,
    and without space the URI is empty. *)
Theorem X17_route_method :
  (forall str : string,
      method (parseRoute str) <> ""
      /\ free_of is_upper (method (parseRoute str)) = true)
  /\ (forall m u : string,
         ascii_text m = true ->
         free_of (Text.eqc " ") m = true ->
         free_of (Text.eqc " ") u = true ->
         parseRoute (m ++ " " ++ u)
         = {| method := match m with
                        | "" => "get"
                        | _ => Text.toLowerCase m
                        end;
              uri := u |}
         /\ (forall rest : string,
                parseRoute (m ++ " " ++ u ++ " " ++ rest)
                = parseRoute (m ++ " " ++ u))
         /\ uri (parseRoute m) = "").
Proof.
  split.
  - intros str. unfold parseRoute. cbn [method].
    destruct (String.eqb (Text.toLowerCase (hd "" (Text.split " " str))) "")
      eqn:He.
    + split; [discriminate | reflexivity].
    + split; [|apply toLowerCase_not_upper].
      intros H. rewrite H in He. discriminate He.
  - intros m u _ Hm Hu.
    assert (Hmethod : (if String.eqb (Text.toLowerCase m) ""
                       then "get" else Text.toLowerCase m)
                      = match m with "" => "get" | _ => Text.toLowerCase m end).
    { destruct m; reflexivity. }
    split; [|split].
    + unfold parseRoute, Text.split.
      change (m ++ " " ++ u)%string with (m ++ String " " u)%string.
      rewrite (split_from_pieces " " m "" u Hm).
      rewrite (split_from_piece " " u "" Hu). cbn [hd nth_error append].
      rewrite Hmethod. reflexivity.
    + intros rest. unfold parseRoute, Text.split.
      change (m ++ " " ++ u ++ " " ++ rest)%string
        with (m ++ String " " (u ++ String " " rest))%string.
      change (m ++ " " ++ u)%string with (m ++ String " " u)%string.
      rewrite !(split_from_pieces " " m "" _ Hm).
      rewrite (split_from_pieces " " u "" rest Hu).
      rewrite (split_from_piece " " u "" Hu). reflexivity.
    + unfold parseRoute, Text.split.
      rewrite (split_from_piece " " m "" Hm). reflexivity.
Qed.

(** ** parseTag *)

Lemma parseTag_other (before rest : list tag) :
  forallb (fun t => negb (is_group t)) before = true ->
  parseTag (before ++ rest) = parseTag rest.
Proof.
  induction before as [|t before IH]; intros H; [reflexivity|].
  cbn [forallb] in H. apply andb_prop in H as [Ht H].
  apply negb_true_iff in Ht. unfold is_group in Ht.
  cbn [List.app parseTag]. rewrite Ht. apply IH, H.
Qed.

(** X16.  [parseTag] returns [["default", ""]] for tags without [group],
    and otherwise the description of the first [group] tag cut at every
    dash: it returns at least one piece, and the first piece of
    [name-rest] is [name] when [name] has no dash. *)
Theorem X16_first_group :
  (forall tags : list tag,
      forallb (fun t => negb (is_group t)) tags = true ->
      parseTag tags = Ok ["default"; ""])
  /\ (forall (before after : list tag) (g : tag) (d : string),
         forallb (fun t => negb (is_group t)) before = true ->
         is_group g = true ->
         tag_description g = Some d ->
         parseTag (before ++ g :: after) = Ok (Text.split "-" d))
  /\ (forall name rest : string,
         free_of (Text.eqc "-") name = true ->
         hd "" (Text.split "-" (name ++ "-" ++ rest)) = name)
  /\ (forall (tags : list tag) (group : list string),
         parseTag tags = Ok group -> group <> []).
Proof.
  split; [|split; [|split]].
  - intros tags H. rewrite <- (app_nil_r tags).
    rewrite (parseTag_other tags [] H). reflexivity.
  - intros before after g d Hbefore Hg Hd.
    rewrite (parseTag_other before _ Hbefore). cbn [parseTag].
    unfold is_group in Hg. rewrite Hg, Hd. reflexivity.
  - intros name rest Hname. unfold Text.split.
    change (name ++ "-" ++ rest)%string with (name ++ String "-" rest)%string.
    rewrite (split_from_pieces "-" name "" rest Hname). reflexivity.
  - intros tags. induction tags as [|t tags IH]; intros group H.
    + injection H as <-. discriminate.
    + cbn [parseTag] in H. destruct (String.eqb (tag_title t) "group").
      * destruct (tag_description t); [|discriminate H].
        injection H as <-. apply split_from_nonempty.
      * exact (IH group H).
Qed.

Section AssemblerMore.

Context {host : Host}.
Variable schemas : obj.

(** ** Streams without a route *)

Lemma fileFormatTag_closed (desc : string) (all : list tag) (t : tag)
    (st : assembly) :
  is_route t = false -> current st = None ->
  fileFormatTag schemas desc all (Ok st) t = Ok st.
Proof.
  intros Ht Hst. unfold fileFormatTag. cbn [bind].
  unfold is_route in Ht. rewrite Ht. cbn [bind]. rewrite Hst. reflexivity.
Qed.

(** X14.  A stream without [route] tag assembles to nothing: [fileFormat]
    returns empty [paths] and [tags], whatever the other tags are, without
    looking at its parameters. *)
Theorem X14_no_route (stream : comment) :
  forallb (fun t => negb (is_route t)) (comment_tags stream) = true ->
  fileFormat schemas stream = Ok {| paths := []; tags := [] |}.
Proof.
  intros Htags. unfold fileFormat.
  assert (Hfold : forall (desc : string) (all tags : list tag) (st : assembly),
             forallb (fun t => negb (is_route t)) tags = true ->
             current st = None ->
             fold_left (fileFormatTag schemas desc all) tags (Ok st) = Ok st).
  { intros desc all tags st. induction tags as [|t tags IH]; intros H Hst;
      [reflexivity|].
    cbn [forallb] in H. apply andb_prop in H as [Ht H].
    apply negb_true_iff in Ht. cbn [fold_left].
    rewrite (fileFormatTag_closed _ _ _ _ Ht Hst). exact (IH H Hst). }
  rewrite Hfold; [reflexivity | exact Htags | reflexivity].
Qed.

(** ** The tags of a stream *)





(** ** Routes of one stream *)


(** ** The location of a parameter *)

(** X13.  When [constructProperty] returns, [in] is the first segment of
    the parameter's name and one of [query], [path], [body], [headers],
    and [property] has one key, the second segment ([undefined] when there
    is none).  For any other first segment it throws [InvalidLocation],
    unless the description fails to parse: that error comes first. *)
Theorem X13_parameter_location (param : tag) :
  (forall r : parameter,
      constructProperty schemas param = Ok r ->
      exists (name : string) (v : json),
        tag_name param = Some name
        /\ location r = hd "" (Text.split "." name)
        /\ mem (location r) ["query"; "path"; "body"; "headers"] = true
        /\ property r = [(match nth_error (Text.split "." name) 1 with
                          | Some f => f
                          | None => "undefined"
                          end, v)])
  /\ (forall name description : string,
         tag_name param = Some name ->
         tag_description param = Some description ->
         mem (hd "" (Text.split "." name)) ["query"; "path"; "body"; "headers"]
         = false ->
         constructProperty schemas param
         = (_ <- parseOptions description ;;
            Throw (InvalidLocation (nth_error (Text.split "." name) 1)
                                   (hd "" (Text.split "." name))))).
Proof.
  split.
  - intros r. unfold constructProperty.
    destruct (tag_name param) as [name|]; [|discriminate].
    destruct (tag_description param) as [description|]; [|discriminate].
    destruct (optionsReducer description) as [accumulated| |]; cbn [bind];
      try discriminate.
    destruct (constructOptions (JObj accumulated) None) as [options| |];
      cbn [bind]; try discriminate.
    destruct (mem (hd "" (Text.split "." name))
                  ["query"; "path"; "body"; "headers"]) eqn:Hvalid;
      cbn [negb]; [|discriminate].
    destruct (tag_type param) as [type|]; [|discriminate].
    destruct (constructPropertyType schemas _ options type) as [v| |];
      cbn [bind]; try discriminate.
    intros H. injection H as <-. exists name, v. cbn [location property].
    repeat split. exact Hvalid.
  - intros name description Hname Hdescription Hinvalid.
    unfold constructProperty, parseOptions. rewrite Hname, Hdescription.
    destruct (optionsReducer description) as [accumulated| |]; cbn [bind];
      try reflexivity.
    destruct (constructOptions (JObj accumulated) None) as [options| |];
      cbn [bind]; try reflexivity.
    rewrite Hinvalid. reflexivity.
Qed.

(** ** What mounting leaves alone *)

Lemma keys_assign_present (k : string) (v x : json) (o : obj) :
  lookup k o = Some x -> keys (assign k v o) = keys o.
Proof.
  induction o as [|[k' v'] o IH]; [discriminate|].
  cbn [lookup assign]. destruct (String.eqb k k') eqn:Hk.
  - intros _. apply String.eqb_eq in Hk. subst k'. reflexivity.
  - intros H. cbn [keys map fst]. f_equal. exact (IH H).
Qed.

Lemma mount_frame (openapiObject mounted : obj) (stream : comment) :
  mount schemas (Ok openapiObject) stream = Ok mounted ->
  keys mounted = keys openapiObject
  /\ (forall k : string,
         String.eqb k "paths" = false ->
         lookup k mounted = lookup k openapiObject).
Proof.
  unfold mount. cbn [bind]. intros H.
  destruct (fileFormat schemas stream) as [f| |]; try discriminate.
  - destruct (lookup "paths" openapiObject) as [present|] eqn:Hpaths;
      [|discriminate].
    destruct (Deepmerge.deepmerge present (JObj (paths f))) as [merged| |];
      inversion H; subst; [|split; reflexivity].
    split; [exact (keys_assign_present _ _ _ _ Hpaths)|].
    intros k Hk. apply lookup_assign_neq, Hk.
  - inversion H; subst. split; reflexivity.
Qed.

Lemma mounts_fold (P : obj -> obj -> Prop) :
  (forall o, P o o) ->
  (forall a b c, P a b -> P b c -> P a c) ->
  (forall o o' stream, mount schemas (Ok o) stream = Ok o' -> P o o') ->
  forall (streams : list comment) (o o' : obj),
    fold_left (mount schemas) streams (Ok o) = Ok o' -> P o o'.
Proof.
  intros Hrefl Htrans Hmount streams.
  induction streams as [|c streams IH]; intros o o' H.
  - injection H as <-. apply Hrefl.
  - cbn [fold_left] in H.
    destruct (mount schemas (Ok o) c) as [o1| |] eqn:Hc.
    + exact (Htrans _ _ _ (Hmount _ _ _ Hc) (IH _ _ H)).
    + rewrite mount_stuck in H by discriminate. discriminate.
    + rewrite mount_stuck in H by discriminate. discriminate.
Qed.

Lemma files_stuck (files : list (list comment)) (acc : outcome obj) :
  (forall o, acc <> Ok o) ->
  fold_left (fun acc parsedFile =>
               fold_left (mount schemas) (filterJsDocComments parsedFile) acc)
            files acc = acc.
Proof.
  intros Hacc. induction files as [|f files IH]; [reflexivity|].
  cbn [fold_left]. rewrite mount_stuck by exact Hacc. exact IH.
Qed.

Lemma files_fold (P : obj -> obj -> Prop) :
  (forall o, P o o) ->
  (forall a b c, P a b -> P b c -> P a c) ->
  (forall o o' stream, mount schemas (Ok o) stream = Ok o' -> P o o') ->
  forall (files : list (list comment)) (o o' : obj),
    fold_left (fun acc parsedFile =>
                 fold_left (mount schemas) (filterJsDocComments parsedFile) acc)
              files (Ok o) = Ok o' ->
    P o o'.
Proof.
  intros Hrefl Htrans Hmount files.
  induction files as [|parsedFile files IH]; intros o o' H.
  - injection H as <-. apply Hrefl.
  - cbn [fold_left] in H.
    destruct (fold_left (mount schemas) (filterJsDocComments parsedFile) (Ok o))
      as [o1| |] eqn:Hfile.
    + exact (Htrans _ _ _ (mounts_fold P Hrefl Htrans Hmount _ _ _ Hfile)
               (IH _ _ H)).
    + rewrite files_stuck in H by discriminate. discriminate.
    + rewrite files_stuck in H by discriminate. discriminate.
Qed.

(** X19.  The document [generateSpecAndMount] returns has the six keys
    of [buildOpenAPI3Base] in their order, [openapi] equal to [3.0.1],
    [info] and [servers] as the definition gives them, and the
    [components] of the definition with [schemas] replaced by the
    registry. *)
Theorem X19_document_frame (definition : obj) (files : list (list comment))
    (openapiObject : obj) :
  generateSpecAndMount schemas definition files = Ok openapiObject ->
  keys openapiObject
  = ["openapi"; "info"; "servers"; "tags"; "paths"; "components"]
  /\ lookup "openapi" openapiObject = Some (JStr "3.0.1")
  /\ lookup "info" openapiObject = Some (Helpers.or_empty definition "info")
  /\ lookup "servers" openapiObject
     = Some (Helpers.or_empty definition "servers")
  /\ (exists components : obj,
         Helpers.or_empty definition "components" = JObj components
         /\ lookup "components" openapiObject
            = Some (JObj (assign "schemas" (JObj schemas) components))).
Proof.
  unfold generateSpecAndMount, attachSchemas.
  destruct (lookup "components" (Helpers.buildOpenAPI3Base definition))
    as [[| | | | | |components]|] eqn:Hcomponents; cbn [bind];
    try discriminate.
  intros Hfiles.
  apply (files_fold
           (fun o o' => keys o' = keys o
                        /\ forall k, String.eqb k "paths" = false ->
                                     lookup k o' = lookup k o)) in Hfiles.
  - destruct Hfiles as [Hkeys Hframe].
    rewrite Hkeys, !Hframe by reflexivity.
    cbn in Hcomponents. injection Hcomponents as Hcomponents.
    repeat split. exists components. split; [exact Hcomponents|reflexivity].
  - intros o. split; reflexivity.
  - intros a b c [Hab Hab'] [Hbc Hbc']. split; [congruence|].
    intros k Hk. rewrite (Hbc' k Hk). exact (Hab' k Hk).
  - exact mount_frame.
Qed.

(** ** Paths that are kept, and paths that are dropped *)

Lemma keys_cloneFields (o d : obj) (u : string) :
  mem u (keys (Deepmerge.cloneFields o d))
  = mem u (keys d) || (mem u (keys o) && negb (inherited u)).
Proof.
  revert d. induction o as [|[k x] o IH]; intros d.
  - cbn. rewrite orb_false_r. reflexivity.
  - unfold Deepmerge.cloneFields. cbn [fold_left fst snd].
    fold (Deepmerge.cloneFields o
            (if inherited k then d
             else assign k (Deepmerge.clone x) d)).
    rewrite IH. cbn [keys map fst]. rewrite mem_cons.
    destruct (String.eqb u k) eqn:Hu.
    + apply String.eqb_eq in Hu. subst k.
      destruct (inherited u) eqn:Hi; cbn [orb andb negb].
      * rewrite andb_false_r. reflexivity.
      * rewrite keys_assign, mem_add, String.eqb_refl, andb_true_r.
        rewrite orb_true_r. reflexivity.
    + cbn [orb]. destruct (inherited k); [reflexivity|].
      rewrite keys_assign, mem_add, Hu, orb_false_r. reflexivity.
Qed.

Lemma keys_mergeFields (target : json) (t s d : obj) (u : string) :
  mem u (keys (Deepmerge.mergeFields target t s d))
  = mem u (keys d)
    || (mem u (keys s) && negb (Deepmerge.propertyIsUnsafe target u)).
Proof.
  revert d. induction s as [|[k v] s IH]; intros d.
  - cbn. rewrite orb_false_r. reflexivity.
  - unfold Deepmerge.mergeFields. cbn [fold_left fst snd].
    fold (Deepmerge.mergeFields target t s
            (if Deepmerge.propertyIsUnsafe target k then d
             else assign k (Deepmerge.merged t k v) d)).
    rewrite IH. cbn [keys map fst]. rewrite mem_cons.
    destruct (String.eqb u k) eqn:Hu.
    + apply String.eqb_eq in Hu. subst k.
      destruct (Deepmerge.propertyIsUnsafe target u) eqn:Hi;
        cbn [orb andb negb].
      * rewrite andb_false_r. reflexivity.
      * rewrite keys_assign, mem_add, String.eqb_refl, andb_true_r.
        rewrite orb_true_r. reflexivity.
    + cbn [orb]. destruct (Deepmerge.propertyIsUnsafe target k);
        [reflexivity|].
      rewrite keys_assign, mem_add, Hu, orb_false_r. reflexivity.
Qed.

Lemma keys_cloned (t : obj) :
  keys (map (fun kv => (fst kv, Deepmerge.clone (snd kv))) t) = keys t.
Proof. unfold keys. rewrite map_map. reflexivity. Qed.

(** The keys of an object merged into a present value: those the present
    object has, and those of the incoming object that are safe. *)
Lemma keys_merge (present : json) (s : obj) :
  exists merged : obj,
    Deepmerge.merge present (JObj s) = JObj merged
    /\ forall u : string,
         mem u (keys merged)
         = match present with
           | JArr _ => mem u (keys s) && negb (inherited u)
           | JObj t =>
               mem u (keys t)
               || (mem u (keys s)
                   && negb (inherited u && negb (mem u (keys t))))
           | _ => mem u (keys s)
           end.
Proof.
  assert (Hobject : (forall l, present <> JArr l) ->
                    exists merged : obj,
                      Deepmerge.merge present (JObj s) = JObj merged
                      /\ forall u : string,
                           mem u (keys merged)
                           = mem u (keys match present with
                                          | JObj t => t
                                          | _ => []
                                          end)
                             || (mem u (keys s)
                                 && negb (Deepmerge.propertyIsUnsafe
                                            present u))).
  { intros Hnot. eexists. split; [exact (merge_object present s Hnot)|].
    intros u. rewrite keys_mergeFields, keys_cloned. reflexivity. }
  destruct present as [| | | | |l|t];
    try (destruct Hobject as (merged & Hmerged & Hkeys); [discriminate|];
         exists merged; split; [exact Hmerged|];
         intros u; rewrite (Hkeys u); cbn [keys map mem existsb orb
                                            Deepmerge.propertyIsUnsafe];
         rewrite ?andb_true_r; reflexivity).
  exists (Deepmerge.cloneFields s []). split.
  - change (Deepmerge.merge (JArr l) (JObj s)) with (Deepmerge.clone (JObj s)).
    apply clone_object.
  - intros u. rewrite keys_cloneFields. reflexivity.
Qed.

Lemma mount_uris (openapiObject mounted : obj) (stream : comment) :
  mount schemas (Ok openapiObject) stream = Ok mounted ->
  (forall u : string,
      mem u (uris openapiObject) = true -> mem u (uris mounted) = true)
  /\ (forall (f : fragment) (u : string),
         fileFormat schemas stream = Ok f ->
         mem u (keys (paths f)) = true -> inherited u = false ->
         mem u (uris mounted) = true)
  /\ (forall t : obj,
         lookup "paths" openapiObject = Some (JObj t) ->
         exists t' : obj,
           lookup "paths" mounted = Some (JObj t')
           /\ forall u : string,
                inherited u = true -> mem u (keys t') = true ->
                mem u (keys t) = true).
Proof.
  unfold mount. cbn [bind]. intros H.
  destruct (fileFormat schemas stream) as [f| |]; try discriminate.
  - destruct (lookup "paths" openapiObject) as [present|] eqn:Hpaths;
      [|discriminate].
    unfold Deepmerge.deepmerge in H.
    destruct (Deepmerge.isMergeableObject (JObj (paths f))
              && Deepmerge.proto_free present); [|discriminate].
    destruct (keys_merge present (paths f)) as (merged & Hmerged & Hkeys).
    assert (Hmounted : mounted = assign "paths" (JObj merged) openapiObject)
      by (cbv beta iota in H; rewrite Hmerged in H; congruence).
    clear H. rewrite Hmounted.
    assert (Huris : uris (assign "paths" (JObj merged) openapiObject)
                    = keys merged)
      by (unfold uris; rewrite lookup_assign_eq; reflexivity).
    rewrite Huris. split; [|split].
    + intros u Hu. rewrite (Hkeys u).
      unfold uris in Hu. rewrite Hpaths in Hu.
      destruct present; try discriminate Hu. rewrite Hu. reflexivity.
    + intros f' u Hf Hu Hown. injection Hf as <-.
      rewrite (Hkeys u), Hu, Hown.
      destruct present; cbn [andb negb]; rewrite ?orb_true_r; reflexivity.
    + intros t Ht. injection Ht as ->. exists merged.
      split; [apply lookup_assign_eq|].
      intros u Hu. rewrite (Hkeys u), Hu. cbn [andb].
      destruct (mem u (keys t)); [reflexivity|].
      cbn [negb orb]. rewrite andb_false_r. discriminate.
  - injection H as <-. split; [auto|]. split.
    + intros f u Hf. discriminate Hf.
    + intros t Ht. exists t. split; [exact Ht | auto].
Qed.

Lemma mounts_uris (streams : list comment) (o o' : obj) :
  fold_left (mount schemas) streams (Ok o) = Ok o' ->
  (forall u : string, mem u (uris o) = true -> mem u (uris o') = true)
  /\ (forall (stream : comment) (f : fragment) (u : string),
         In stream streams ->
         fileFormat schemas stream = Ok f ->
         mem u (keys (paths f)) = true -> inherited u = false ->
         mem u (uris o') = true).
Proof.
  revert o. induction streams as [|c streams IH]; intros o H.
  - injection H as <-. split; [auto|]. intros stream f u [].
  - cbn [fold_left] in H.
    destruct (mount schemas (Ok o) c) as [o1| |] eqn:Hc.
    + destruct (mount_uris _ _ _ Hc) as (Hkept & Hnew & _).
      destruct (IH o1 H) as [Hkept' Hnew']. split.
      * intros u Hu. apply Hkept', Hkept, Hu.
      * intros stream f u [<- | Hin] Hf Hu Hown.
        -- apply Hkept'. exact (Hnew f u Hf Hu Hown).
        -- exact (Hnew' stream f u Hin Hf Hu Hown).
    + rewrite mount_stuck in H by discriminate. discriminate.
    + rewrite mount_stuck in H by discriminate. discriminate.
Qed.

Lemma files_uris (files : list (list comment)) (o o' : obj) :
  fold_left (fun acc parsedFile =>
               fold_left (mount schemas) (filterJsDocComments parsedFile) acc)
            files (Ok o) = Ok o' ->
  (forall u : string, mem u (uris o) = true -> mem u (uris o') = true)
  /\ (forall (parsedFile : list comment) (stream : comment) (f : fragment)
             (u : string),
         In parsedFile files ->
         In stream (filterJsDocComments parsedFile) ->
         fileFormat schemas stream = Ok f ->
         mem u (keys (paths f)) = true -> inherited u = false ->
         mem u (uris o') = true).
Proof.
  revert o. induction files as [|file files IH]; intros o H.
  - injection H as <-. split; [auto|]. intros parsedFile stream f u [].
  - cbn [fold_left] in H.
    destruct (fold_left (mount schemas) (filterJsDocComments file) (Ok o))
      as [o1| |] eqn:Hfile.
    + destruct (mounts_uris _ _ _ Hfile) as [Hkept Hnew].
      destruct (IH o1 H) as [Hkept' Hnew']. split.
      * intros u Hu. apply Hkept', Hkept, Hu.
      * intros parsedFile stream f u [<- | Hin] Hstream Hf Hu Hown.
        -- apply Hkept'. exact (Hnew stream f u Hstream Hf Hu Hown).
        -- exact (Hnew' parsedFile stream f u Hin Hstream Hf Hu Hown).
    + rewrite files_stuck in H by discriminate. discriminate.
    + rewrite files_stuck in H by discriminate. discriminate.
Qed.

(** X20.  Mounting keeps the paths, the member names of
    [Object.prototype] apart.  Every URI of the definition, and every URI
    of a stream that [fileFormat] accepts that is no such name, is a URI
    of the document returned.  A URI that is such a name is a URI of the
    document only when the definition has it: the merge leaves it out of
    what the fragments bring. *)
Theorem X20_paths_kept (definition : obj) (files : list (list comment))
    (openapiObject : obj) :
  generateSpecAndMount schemas definition files = Ok openapiObject ->
  (forall (present : obj) (u : string),
      Helpers.or_empty definition "paths" = JObj present ->
      mem u (keys present) = true ->
      mem u (uris openapiObject) = true)
  /\ (forall (parsedFile : list comment) (stream : comment) (f : fragment)
             (u : string),
         In parsedFile files ->
         In stream (filterJsDocComments parsedFile) ->
         fileFormat schemas stream = Ok f ->
         mem u (keys (paths f)) = true ->
         inherited u = false ->
         mem u (uris openapiObject) = true)
  /\ (forall (present : obj) (u : string),
         Helpers.or_empty definition "paths" = JObj present ->
         inherited u = true ->
         mem u (uris openapiObject) = true ->
         mem u (keys present) = true).
Proof.
  unfold generateSpecAndMount, attachSchemas.
  destruct (lookup "components" (Helpers.buildOpenAPI3Base definition))
    as [[| | | | | |components]|] eqn:Hcomponents; cbn [bind];
    try discriminate.
  intros Hfiles. destruct (files_uris _ _ _ Hfiles) as [Hkept Hnew].
  split; [|split; [exact Hnew|]].
  - intros present u Hpresent Hu. apply Hkept.
    unfold uris. cbn. rewrite Hpresent. exact Hu.
  - intros present u Hpresent Hu Hdocument.
    pose (P := fun o o' : obj =>
                 forall t : obj,
                   lookup "paths" o = Some (JObj t) ->
                   exists t' : obj,
                     lookup "paths" o' = Some (JObj t')
                     /\ forall u : string,
                          inherited u = true -> mem u (keys t') = true ->
                          mem u (keys t) = true).
    assert (Hrefl : forall o, P o o).
    { intros o t Ht. exists t. split; [exact Ht | auto]. }
    assert (Htrans : forall a b c, P a b -> P b c -> P a c).
    { intros a b c Hab Hbc t Ht.
      destruct (Hab t Ht) as (t1 & Ht1 & H1).
      destruct (Hbc t1 Ht1) as (t2 & Ht2 & H2).
      exists t2. split; [exact Ht2|]. intros u0 Hu0 Hmem.
      exact (H1 u0 Hu0 (H2 u0 Hu0 Hmem)). }
    assert (Hmount : forall o o' stream,
               mount schemas (Ok o) stream = Ok o' -> P o o').
    { intros o o' stream Hm. exact (proj2 (proj2 (mount_uris _ _ _ Hm))). }
    destruct (files_fold P Hrefl Htrans Hmount _ _ _ Hfiles present)
      as (t' & Ht' & Hdropped).
    { cbn. rewrite Hpresent. reflexivity. }
    apply (Hdropped u Hu). unfold uris in Hdocument.
    rewrite Ht' in Hdocument. exact Hdocument.
Qed.

End AssemblerMore.

Lemma lookup_assigns_outside (k : string) (fields o : obj) :
  mem k (keys fields) = false -> lookup k (assigns fields o) = lookup k o.
Proof.
  revert o. induction fields as [|[k' v] fields IH]; intros o H; [reflexivity|].
  cbn [keys map fst] in H. rewrite mem_cons in H.
  apply orb_false_iff in H as [Hk H].
  change (assigns ((k', v) :: fields) o) with (assigns fields (assign k' v o)).
  rewrite (IH _ H). apply lookup_assign_neq, Hk.
Qed.

Section SequelizeFacts.

Import Helpers.

Variable DataTypes : string -> bool.

Local Abbreviation construct := (Helpers.constructProperty DataTypes).

(** The statement of [constructProperty] for one row of the table. *)
Local Abbreviation statement :=
  (fun (type : dataType) (acc : outcome obj) (row : string * rule) =>
     prop <- acc ;;
     if String.eqb (dt_name type) (fst row) then
       match snd row with
       | Fields fields => set <- fields type ;; Ok (assigns set prop)
       | Items =>
           match dt_type type with
           | Some t =>
               subtype <- construct t JUndefined JUndefined ;;
               Ok (assigns [ ("type", JStr "array");
                             ("items", JObj subtype) ] prop)
           | None => Throw TypeError
           end
       | Subtype =>
           match dt_options type with
           | Some (_, Some t) =>
               subtype <- construct t JUndefined JUndefined ;;
               Ok (assign "type"
                          (match lookup "type" subtype with
                           | Some v => v
                           | None => JUndefined
                           end) prop)
           | _ => Throw TypeError
           end
       end
     else Ok prop).

Lemma constructProperty_unfold (type : dataType) (allowNull primaryKey : json) :
  construct type allowNull primaryKey
  = if negb (DataTypes (dt_name type)) then Ok []
    else fold_left (statement type) dataTypes
           (Ok [ ("nullable", JBool (strictly_true allowNull));
                 ("readOnly", JBool (strictly_true primaryKey)) ]).
Proof. destruct type; reflexivity. Qed.

Lemma dataTypes_spare (k : string) :
  String.eqb k "type" = false -> String.eqb k "items" = false ->
  mem k ["format"; "maxLength"; "pattern"; "enum"; "required"; "properties"]
  = false ->
  Forall (spares k) dataTypes.
Proof.
  intros Htype Hitems Hothers.
  cbn [mem existsb] in Hothers.
  repeat (apply orb_false_iff in Hothers as [? Hothers]).
  assert (Hsets : forall fields : obj,
             forallb (fun f => mem f ["type"; "format"; "maxLength"; "pattern";
                                      "enum"; "required"; "properties"])
                     (keys fields) = true ->
             mem k (keys fields) = false).
  { intros fields. induction fields as [|[f v] fields IH]; [reflexivity|].
    change (keys ((f, v) :: fields)) with (f :: keys fields).
    cbn [forallb]. intros Hf. apply andb_prop in Hf as [Hf Hfs].
    rewrite mem_cons, (IH Hfs), orb_false_r.
    apply existsb_exists in Hf as (x & Hin & Hx). apply String.eqb_eq in Hx.
    subst x. repeat (destruct Hin as [<- | Hin]; [assumption|]).
    contradiction. }
  unfold dataTypes.
  repeat (apply Forall_cons;
          [first [ split; assumption
                 | intros t set Hset; apply Hsets;
                   first [ injection Hset as <-; reflexivity
                         | unfold optionalLength in Hset;
                           destruct (dt_options t) as [[length subtype]|];
                           [injection Hset as <-; reflexivity
                           |discriminate Hset] ] ]|]).
  apply Forall_nil.
Qed.

Lemma statement_spares (k : string) (type : dataType) (row : string * rule)
    (prop prop' : obj) :
  spares k row ->
  statement type (Ok prop) row = Ok prop' ->
  lookup k prop' = lookup k prop.
Proof.
  unfold spares. cbn [bind]. intros Hrow.
  destruct (String.eqb (dt_name type) (fst row));
    [|intros H; injection H as <-; reflexivity].
  destruct (snd row) as [fields| |].
  - destruct (fields type) as [set| |] eqn:Hset; cbn [bind];
      try discriminate.
    intros H; injection H as <-.
    apply lookup_assigns_outside. exact (Hrow _ _ Hset).
  - destruct Hrow as [Htype Hitems].
    destruct (dt_type type) as [t|]; [|discriminate].
    destruct (construct t JUndefined JUndefined); cbn [bind];
      try discriminate.
    intros H; injection H as <-.
    rewrite !lookup_assign_neq by assumption. reflexivity.
  - destruct Hrow as [Htype _].
    destruct (dt_options type) as [[length [t|]]|]; try discriminate.
    destruct (construct t JUndefined JUndefined); cbn [bind];
      try discriminate.
    intros H; injection H as <-. apply lookup_assign_neq, Htype.
Qed.

Lemma statements_spare (k : string) (type : dataType)
    (rows : list (string * rule)) (prop prop' : obj) :
  Forall (spares k) rows ->
  fold_left (statement type) rows (Ok prop) = Ok prop' ->
  lookup k prop' = lookup k prop.
Proof.
  intros Hrows. revert prop.
  induction Hrows as [|row rows Hrow _ IH]; intros prop H.
  - injection H as <-. reflexivity.
  - cbn [fold_left] in H.
    destruct (statement type (Ok prop) row) as [prop1| |] eqn:Hstep.
    + rewrite (IH _ H). exact (statement_spares _ _ _ _ _ Hrow Hstep).
    + rewrite fold_Throw in H by reflexivity. discriminate H.
    + rewrite fold_Beyond in H by reflexivity. discriminate H.
Qed.

(** X21.  For a data type that [DataTypes] knows, the property
    [constructProperty] returns has [nullable] true exactly when
    [allowNull] is [true] and [readOnly] true exactly when [primaryKey] is
    [true], whatever its type; for any other type it is the empty
    object. *)
Theorem X21_property_flags (type : dataType) (allowNull primaryKey : json)
    (prop : obj) :
  construct type allowNull primaryKey = Ok prop ->
  if DataTypes (dt_name type)
  then lookup "nullable" prop = Some (JBool (strictly_true allowNull))
       /\ lookup "readOnly" prop = Some (JBool (strictly_true primaryKey))
  else prop = [].
Proof.
  rewrite constructProperty_unfold.
  destruct (DataTypes (dt_name type)); cbn [negb].
  - intros H. split.
    + rewrite (statements_spare "nullable" _ _ _ _
                 (dataTypes_spare "nullable" eq_refl eq_refl eq_refl) H).
      reflexivity.
    + rewrite (statements_spare "readOnly" _ _ _ _
                 (dataTypes_spare "readOnly" eq_refl eq_refl eq_refl) H).
      reflexivity.
  - intros H. injection H as <-. reflexivity.
Qed.

(** ** Models *)

Local Abbreviation refStep :=
  (fun (acc : outcome obj) (value : attribute) =>
     accumulator <- acc ;; refAttribute DataTypes accumulator value).

Lemma refAttribute_next (value : attribute) (accumulator : obj)
    (R : list json) (P : obj) :
  accumulator = [] /\ R = [] /\ P = []
  \/ accumulator = [("required", JArr R); ("properties", JObj P)] ->
  refAttribute DataTypes accumulator value
  = (property <- constructAttribute DataTypes value ;;
     Ok [ ("required", JArr (R ++ requiredNames [value]));
          ("properties", JObj (assign (fieldName value) (JObj property) P)) ]).
Proof.
  intros Hacc. unfold refAttribute, requiredNames. cbn [filter].
  assert (Hrequired :
            match lookup "required" accumulator with
            | Some (JArr (x :: l)) => x :: l
            | _ => []
            end = R).
  { destruct Hacc as [(-> & -> & ->) | ->]; [reflexivity|].
    cbn [lookup String.eqb Ascii.eqb Bool.eqb]. destruct R; reflexivity. }
  rewrite Hrequired.
  destruct (constructAttribute DataTypes value) as [property| |];
    cbn [bind]; try reflexivity.
  destruct Hacc as [(-> & -> & ->) | ->];
    destruct (strictly_false (allowNull value)); cbn [map List.app];
    rewrite ?app_nil_r; reflexivity.
Qed.

Lemma refAttributes_all (attributes : list attribute) (R : list json)
    (P : obj) :
  fold_left refStep attributes
            (Ok [("required", JArr R); ("properties", JObj P)])
  = (properties <- sequence (map (constructAttribute DataTypes) attributes) ;;
     Ok [ ("required", JArr (R ++ requiredNames attributes));
          ("properties",
           JObj (assigns (combine (map fieldName attributes)
                                  (map JObj properties)) P)) ]).
Proof.
  revert R P. induction attributes as [|a attributes IH]; intros R P.
  - cbn. rewrite app_nil_r. reflexivity.
  - cbn [fold_left bind map sequence].
    rewrite (refAttribute_next a _ R P) by (right; reflexivity).
    destruct (constructAttribute DataTypes a) as [property| |]; cbn [bind].
    + rewrite IH.
      destruct (sequence (map (constructAttribute DataTypes) attributes))
        as [properties| |]; cbn [bind]; try reflexivity.
      unfold requiredNames. cbn [filter combine map].
      destruct (strictly_false (allowNull a)); cbn [map List.app];
        rewrite <- ?app_assoc; rewrite ?app_nil_r; reflexivity.
    + apply fold_Throw. reflexivity.
    + apply fold_Beyond. reflexivity.
Qed.

Lemma constructRefModel_all (m : model) :
  Helpers.constructRefModel DataTypes m
  = match rawAttributes m with
    | [] => Ok [(modelName m, JObj [])]
    | attributes =>
        properties <- sequence (map (constructAttribute DataTypes) attributes) ;;
        Ok [ (modelName m,
              JObj [ ("required", JArr (requiredNames attributes));
                     ("properties",
                      JObj (assigns (combine (map fieldName attributes)
                                             (map JObj properties)) [])) ]) ]
    end.
Proof.
  unfold constructRefModel.
  destruct (rawAttributes m) as [|a attributes]; [reflexivity|].
  cbn [fold_left bind].
  rewrite (refAttribute_next a [] [] []) by (left; repeat split).
  cbn [map sequence].
  destruct (constructAttribute DataTypes a) as [property| |]; cbn [bind].
  - rewrite refAttributes_all.
    destruct (sequence (map (constructAttribute DataTypes) attributes))
      as [properties| |]; cbn [bind]; try reflexivity.
    unfold requiredNames. cbn [filter].
    destruct (strictly_false (allowNull a)); reflexivity.
  - rewrite fold_Throw by reflexivity. reflexivity.
  - rewrite fold_Beyond by reflexivity. reflexivity.
Qed.

(** X22.  [constructRefModel] returns one entry under the name of the
    model.  For a model without attributes it is the empty object.
    Otherwise its [required] lists, in order, the names of the attributes
    whose [allowNull] is [false], and its [properties] holds the property
    of each attribute under its name; the first attribute whose property
    fails makes the whole call fail. *)
Theorem X22_reference_model (m : model) :
  (rawAttributes m = [] ->
   Helpers.constructRefModel DataTypes m = Ok [(modelName m, JObj [])])
  /\ (rawAttributes m <> [] ->
      Helpers.constructRefModel DataTypes m
      = (properties <- sequence (map (constructAttribute DataTypes)
                                     (rawAttributes m)) ;;
         Ok [ (modelName m,
               JObj [ ("required", JArr (requiredNames (rawAttributes m)));
                      ("properties",
                       JObj (assigns (combine (map fieldName (rawAttributes m))
                                              (map JObj properties)) [])) ]) ])).
Proof.
  rewrite constructRefModel_all. split.
  - intros ->. reflexivity.
  - destruct (rawAttributes m); [intros H; contradiction H; reflexivity|].
    reflexivity.
Qed.

(** ** The registry after the models *)



Lemma distinct_assign (k : string) (v : json) (o : obj) :
  Deepmerge.distinct (keys o) = true ->
  Deepmerge.distinct (keys (assign k v o)) = true.
Proof. intros H. rewrite keys_assign. apply distinct_add, H. Qed.

Lemma distinct_assigns (fields o : obj) :
  Deepmerge.distinct (keys o) = true ->
  Deepmerge.distinct (keys (assigns fields o)) = true.
Proof.
  revert o. induction fields as [|[k v] fields IH]; intros o H; [exact H|].
  apply IH, distinct_assign, H.
Qed.

Lemma constructRefModel_entry (m : model) (r : obj) :
  Helpers.constructRefModel DataTypes m = Ok r ->
  exists refModel : obj, r = [(modelName m, JObj refModel)].
Proof.
  unfold constructRefModel.
  destruct (fold_left _ (rawAttributes m) _) as [refModel| |]; cbn [bind];
    try discriminate.
  intros H. injection H as <-. exists refModel. reflexivity.
Qed.

Local Abbreviation buildStep :=
  (fun (acc : outcome obj) (value : model) =>
     accumulator <- acc ;;
     refModel <- Helpers.constructRefModel DataTypes value ;;
     Ok (assigns refModel accumulator)).

Lemma build_models (models : list model) (accumulator built : obj) :
  fold_left buildStep models (Ok accumulator) = Ok built ->
  (Deepmerge.distinct (keys accumulator) = true ->
   Deepmerge.distinct (keys built) = true)
  /\ (forall k : string,
         mem k (map modelName models) = false ->
         lookup k built = lookup k accumulator)
  /\ (Deepmerge.distinct (map modelName models) = true ->
      forall m : model,
        In m models ->
        exists refModel : obj,
          Helpers.constructRefModel DataTypes m
          = Ok [(modelName m, JObj refModel)]
          /\ lookup (modelName m) built = Some (JObj refModel)).
Proof.
  revert accumulator. induction models as [|m0 models IH];
    intros accumulator H.
  - injection H as <-. repeat split; auto. intros _ m [].
  - cbn [fold_left bind] in H.
    destruct (Helpers.constructRefModel DataTypes m0) as [r0| |] eqn:Hm0;
      cbn [bind] in H;
      [|rewrite fold_Throw in H by reflexivity; discriminate H
       |rewrite fold_Beyond in H by reflexivity; discriminate H].
    destruct (constructRefModel_entry _ _ Hm0) as (ref0 & ->).
    change (assigns [(modelName m0, JObj ref0)] accumulator)
      with (assign (modelName m0) (JObj ref0) accumulator) in H.
    destruct (IH _ H) as (Hdistinct & Hother & Hmodels).
    split; [|split].
    + intros Hd. apply Hdistinct, distinct_assign, Hd.
    + intros k Hk. cbn [map] in Hk. rewrite mem_cons in Hk.
      apply orb_false_iff in Hk as [Hne Hk].
      rewrite (Hother k Hk). apply lookup_assign_neq, Hne.
    + intros Hd m Hin. cbn [map Deepmerge.distinct] in Hd.
      apply andb_prop in Hd as [Hnew Hd]. apply negb_true_iff in Hnew.
      destruct Hin as [<- | Hin].
      * exists ref0. split; [exact Hm0|].
        rewrite (Hother _ Hnew). apply lookup_assign_eq.
      * exact (Hmodels Hd m Hin).
Qed.





End SequelizeFacts.


Lemma mem_keys_assigns (k : string) (fields o : obj) :
  mem k (keys o) = true -> mem k (keys (assigns fields o)) = true.
Proof.
  revert o. induction fields as [|[k' v] fields IH]; intros o H; [exact H|].
  change (assigns ((k', v) :: fields) o) with (assigns fields (assign k' v o)).
  apply IH. rewrite keys_assign, mem_add, H. reflexivity.
Qed.

(** X24.  Registering models leaves the models of other names as they
    were and removes none; when none of the new names was registered
    before, every type expression that compiled compiles to the same
    schema afterwards. *)
Theorem X24_models_registered {host : Host} (DataTypes : string -> bool)
    (schemas schemas' : obj) (models : list Helpers.model) :
  registerModels DataTypes schemas models = Ok schemas' ->
  (forall k : string,
      mem k (map Helpers.modelName models) = false ->
      lookup k schemas' = lookup k schemas)
  /\ (forall k : string,
         mem k (keys schemas) = true -> mem k (keys schemas') = true)
  /\ ((forall k : string,
          mem k (map Helpers.modelName models) = true ->
          lookup k schemas = None) ->
      forall (field field' : option string) (options : obj) (t : ty)
             (v : json),
        constructPropertyType schemas field options t = Ok v ->
        constructPropertyType schemas' field' options t = Ok v).
Proof.
  intros Hregistered.
  unfold registerModels, Helpers.buildFromSequelize in Hregistered.
  match type of Hregistered with
  | bind ?s _ = _ => destruct s as [built| |] eqn:Hbuilt
  end; cbn [bind] in Hregistered; try discriminate Hregistered.
  injection Hregistered as <-.
  destruct (build_models DataTypes _ _ _ Hbuilt) as (_ & Hother & _).
  assert (Hkept : forall k : string,
             mem k (map Helpers.modelName models) = false ->
             lookup k (assigns built schemas) = lookup k schemas).
  { intros k Hk. apply lookup_assigns_outside.
    rewrite lookup_mem, (Hother k Hk). reflexivity. }
  split; [exact Hkept|]. split; [intros k; apply mem_keys_assigns|].
  intros Hnew field field' options t v.
  assert (Hgrows : forall (model : string) (s : json),
             lookup model schemas = Some s ->
             lookup model (assigns built schemas) = Some s).
  { intros model s Hs.
    destruct (mem model (map Helpers.modelName models)) eqn:Hmodel.
    - rewrite (Hnew model Hmodel) in Hs. discriminate Hs.
    - rewrite (Hkept model Hmodel). exact Hs. }
  exact (proj1 (constructPropertyType_kept schemas (assigns built schemas)
                  field field' options Hgrows t) v).
Qed.

(** ** parseProduces, parseConsumes *)

Lemma split_spaces_word (w cur s : string) (inside : bool) :
  free_of Text.is_space w = true ->
  Text.split_spaces_from cur (w ++ s) inside
  = match w with
    | "" => Text.split_spaces_from cur s inside
    | _ => Text.split_spaces_from (cur ++ w) s false
    end.
Proof.
  revert cur inside. induction w as [|c w IH]; intros cur inside Hw;
    [reflexivity|].
  cbn [free_of] in Hw. apply andb_prop in Hw as [Hc Hw].
  apply negb_true_iff in Hc.
  cbn [append Text.split_spaces_from]. rewrite Hc, (IH _ _ Hw).
  destruct w; rewrite ?append_snoc; cbn [append]; rewrite ?append_empty;
    reflexivity.
Qed.

Lemma split_spaces_words (first : string) (others : list string)
    (cur : string) (inside : bool) :
  forallb word (first :: others) = true ->
  Text.split_spaces_from cur (join " " first others) inside
  = (cur ++ first)%string :: others.
Proof.
  revert first cur inside.
  induction others as [|next others IH]; intros first cur inside Hwords.
  - cbn [forallb] in Hwords. apply andb_prop in Hwords as [Hfirst _].
    apply andb_prop in Hfirst as [Hne Hfirst].
    cbn [join]. rewrite <- (append_empty first) at 1.
    rewrite (split_spaces_word first cur "" inside Hfirst).
    destruct first; [discriminate Hne|]. reflexivity.
  - cbn [forallb] in Hwords. apply andb_prop in Hwords as [Hfirst Hwords].
    apply andb_prop in Hfirst as [Hne Hfirst].
    cbn [join].
    rewrite (split_spaces_word first cur _ inside Hfirst).
    destruct first as [|c first]; [discriminate Hne|].
    cbn [append Text.split_spaces_from]. change (Text.is_space " ") with true.
    cbn match. rewrite (IH next "" true Hwords). reflexivity.
Qed.

Lemma split_spaces_pieces (s cur : string) (inside : bool) :
  free_of Text.is_space cur = true ->
  Text.split_spaces_from cur s inside <> []
  /\ forallb (free_of Text.is_space) (Text.split_spaces_from cur s inside)
     = true.
Proof.
  revert cur inside. induction s as [|c s IH]; intros cur inside Hcur.
  - cbn. rewrite Hcur. split; [discriminate | reflexivity].
  - cbn [Text.split_spaces_from]. destruct (Text.is_space c) eqn:Hc.
    + destruct inside; [apply IH, Hcur|].
      destruct (IH "" true eq_refl) as [_ Hrest].
      cbn [forallb]. rewrite Hcur, Hrest. split; [discriminate | reflexivity].
    + apply IH. unfold Text.snoc. rewrite free_of_append, Hcur.
      cbn [free_of]. rewrite Hc. reflexivity.
Qed.

(** X25.  [parseProduces] cuts at every run of white space: it returns
    at least one piece, no piece holds one of the six white-space
    characters of ASCII, and words of ASCII characters joined by single
    spaces are returned as they were.  [parseConsumes] is the same
    function. *)
Theorem X25_produces_words :
  (forall str : string,
      parseProduces str <> []
      /\ forallb (free_of Text.is_space) (parseProduces str) = true)
  /\ (forall (first : string) (others : list string),
         forallb ascii_text (first :: others) = true ->
         forallb word (first :: others) = true ->
         parseProduces (join " " first others) = first :: others)
  /\ (forall str : string, parseConsumes str = parseProduces str).
Proof.
  split; [|split; [|reflexivity]].
  - intros str. apply split_spaces_pieces. reflexivity.
  - intros first others _ Hwords. unfold parseProduces, Text.split_spaces.
    rewrite (split_spaces_words first others "" false Hwords). reflexivity.
Qed.

(** ** parseDescription *)

Lemma replace_from_done (pat by_ s : string) :
  Text.replace_from pat by_ s 0 true = s.
Proof.
  induction s as [|c s IH]; [reflexivity|].
  cbn [Text.replace_from negb andb]. rewrite IH. reflexivity.
Qed.

Lemma replace_from_other (a s : string) :
  free_of (Text.eqc "/") a = true ->
  Text.replace_from "/**" "" (a ++ s) 0 false
  = (a ++ Text.replace_from "/**" "" s 0 false)%string.
Proof.
  induction a as [|c a IH]; intros Ha; [reflexivity|].
  cbn [free_of] in Ha. apply andb_prop in Ha as [Hc Ha].
  apply negb_true_iff in Hc. unfold Text.eqc in Hc.
  cbn [append Text.replace_from negb andb].
  rewrite (prefix_other "**" "/" c) by (rewrite Ascii.eqb_sym; exact Hc).
  rewrite (IH Ha). reflexivity.
Qed.

(** X27.  [parseDescription] returns a description without slash as it
    is and removes the first comment opener [/**], and only that one. *)
Theorem X27_description_opening (tags : list tag) :
  (forall d : string,
      free_of (Text.eqc "/") d = true ->
      parseDescription {| comment_description := d; comment_tags := tags |}
      = d)
  /\ (forall a b : string,
         free_of (Text.eqc "/") a = true ->
         parseDescription {| comment_description := a ++ "/**" ++ b;
                             comment_tags := tags |}
         = (a ++ b)%string).
Proof.
  split.
  - intros d Hd. unfold parseDescription, Text.replace_first.
    cbn [comment_description]. rewrite <- (append_empty d) at 1.
    rewrite (replace_from_other d "" Hd). cbn [Text.replace_from].
    apply append_empty.
  - intros a b Ha. unfold parseDescription, Text.replace_first.
    cbn [comment_description]. rewrite (replace_from_other a _ Ha).
    cbn [append Text.replace_from negb andb prefix String.length Nat.sub].
    destruct b as [|c b]; [reflexivity|].
    cbn -[Text.replace_from]. rewrite ?replace_from_done. reflexivity.
Qed.

(** ** The tag catalog of swagger-helpers.js, continued *)

Section Catalog.

Import SwaggerHelpers.

Lemma tagDuplicated_mem (target : list tagObject) (t : tagObject) :
  _tagDuplicated target t = mem (name t) (map name target).
Proof.
  unfold _tagDuplicated, mem. induction target as [|x target IH];
    [reflexivity|].
  cbn [existsb map]. rewrite IH, String.eqb_sym. reflexivity.
Qed.

Lemma attachTags_cons (t : tagObject) (tag tags0 : list tagObject) :
  _attachTags (t :: tag) tags0
  = _attachTags tag (if _tagDuplicated tags0 t then tags0 else tags0 ++ [t]).
Proof. reflexivity. Qed.

Lemma attachTags_known (tag tags0 : list tagObject) :
  forallb (_tagDuplicated tags0) tag = true -> _attachTags tag tags0 = tags0.
Proof.
  induction tag as [|t tag IH]; intros H; [reflexivity|].
  cbn [forallb] in H. apply andb_prop in H as [Ht H].
  rewrite attachTags_cons, Ht. exact (IH H).
Qed.

Lemma attachTags_grows (tag tags0 : list tagObject) :
  (exists added, _attachTags tag tags0 = tags0 ++ added)
  /\ (Deepmerge.distinct (map name tags0) = true ->
      Deepmerge.distinct (map name (_attachTags tag tags0)) = true)
  /\ (forall t, _tagDuplicated tags0 t = true ->
                _tagDuplicated (_attachTags tag tags0) t = true)
  /\ forallb (_tagDuplicated (_attachTags tag tags0)) tag = true.
Proof.
  revert tags0. induction tag as [|t tag IH]; intros tags0.
  - repeat split; auto. exists []. rewrite app_nil_r. reflexivity.
  - rewrite attachTags_cons.
    destruct (_tagDuplicated tags0 t) eqn:Ht.
    + destruct (IH tags0) as (Hprefix & Hdistinct & Hkept & Hall).
      repeat split; auto. cbn [forallb]. rewrite (Hkept t Ht), Hall.
      reflexivity.
    + destruct (IH (tags0 ++ [t])) as ((added & Hadded) & Hdistinct & Hkept & Hall).
      assert (Hnew : _tagDuplicated (tags0 ++ [t]) t = true).
      { rewrite tagDuplicated_mem, map_app, mem_app. cbn [map].
        rewrite mem_cons, String.eqb_refl. apply orb_true_r. }
      split; [|split; [|split]].
      * exists ([t] ++ added). rewrite Hadded, <- app_assoc. reflexivity.
      * intros Hd. apply Hdistinct. rewrite map_app. cbn [map].
        apply distinct_snoc; [exact Hd|].
        rewrite <- tagDuplicated_mem. exact Ht.
      * intros x Hx. apply Hkept. rewrite tagDuplicated_mem, map_app, mem_app.
        rewrite <- tagDuplicated_mem, Hx. reflexivity.
      * cbn [forallb]. rewrite (Hkept t Hnew), Hall. reflexivity.
Qed.

(** X26.  [_attachTags] only appends to the catalog; names that were
    distinct stay distinct; every tag handed over has its name in the
    catalog afterwards; and attaching the same tags again changes
    nothing. *)
Theorem X26_catalog_of_names (tag tags0 : list tagObject) :
  (exists added : list tagObject, _attachTags tag tags0 = tags0 ++ added)
  /\ (Deepmerge.distinct (map name tags0) = true ->
      Deepmerge.distinct (map name (_attachTags tag tags0)) = true)
  /\ forallb (_tagDuplicated (_attachTags tag tags0)) tag = true
  /\ _attachTags tag (_attachTags tag tags0) = _attachTags tag tags0.
Proof.
  destruct (attachTags_grows tag tags0) as (Hprefix & Hdistinct & _ & Hall).
  repeat split; try assumption.
  apply attachTags_known, Hall.
Qed.

End Catalog.

(** ** Parameters are checked and dropped *)

(** [parseTag] does not look at parameters. *)
Lemma parseTag_parameters (l : list tag) :
  parseTag (filter (fun t => negb (is_param t)) l) = parseTag l.
Proof.
  induction l as [|t l IH]; [reflexivity|].
  cbn [filter]. unfold is_param at 1.
  destruct (String.eqb (tag_title t) "param") eqn:Ht; cbn [negb parseTag].
  - apply String.eqb_eq in Ht. rewrite Ht.
    change (String.eqb "param" "group") with false. exact IH.
  - rewrite IH. reflexivity.
Qed.

Section ParametersChecked.

Context {host : Host}.
Variable schemas : obj.

Lemma fileFormatTag_group (desc : string) (all all' : list tag)
    (acc : outcome assembly) (t : tag) :
  parseTag all = parseTag all' ->
  fileFormatTag schemas desc all acc t = fileFormatTag schemas desc all' acc t.
Proof.
  intros Hgroup. unfold fileFormatTag, openRoute. rewrite Hgroup. reflexivity.
Qed.

Lemma fileFormatTag_checked (desc : string) (all : list tag)
    (acc : outcome assembly) (t : tag) (r : parameter) :
  is_param t = true ->
  constructProperty schemas t = Ok r ->
  fileFormatTag schemas desc all acc t = acc.
Proof.
  unfold is_param. intros Ht Hr. unfold fileFormatTag.
  destruct acc as [st| |]; cbn [bind]; try reflexivity.
  apply String.eqb_eq in Ht. rewrite Ht.
  change (String.eqb "param" "route") with false.
  change (String.eqb "param" "param") with true. cbn [bind].
  destruct (current st); [|reflexivity]. rewrite Hr. reflexivity.
Qed.

(** X28.  The parameters of a stream are only checked: when each of them
    is constructed without error, [fileFormat] returns what it returns for
    the stream without its [param] tags. *)
Theorem X28_parameters_checked (stream : comment) :
  (forall t : tag,
      In t (comment_tags stream) -> is_param t = true ->
      exists r : parameter, constructProperty schemas t = Ok r) ->
  fileFormat schemas stream
  = fileFormat schemas
      {| comment_description := comment_description stream;
         comment_tags := filter (fun t => negb (is_param t))
                                (comment_tags stream) |}.
Proof.
  intros Hchecked. unfold fileFormat, parseDescription.
  cbn [comment_description comment_tags].
  set (desc := Text.replace_first "/**" "" (comment_description stream)).
  assert (Hfold : forall (tags0 : list tag) (acc : outcome assembly),
             (forall t, In t tags0 -> is_param t = true ->
                        exists r, constructProperty schemas t = Ok r) ->
             fold_left (fileFormatTag schemas desc (comment_tags stream))
                       tags0 acc
             = fold_left (fileFormatTag schemas desc
                            (filter (fun t => negb (is_param t))
                                    (comment_tags stream)))
                         (filter (fun t => negb (is_param t)) tags0) acc).
  { induction tags0 as [|t tags0 IH]; intros acc Htags; [reflexivity|].
    cbn [fold_left filter].
    assert (Hrest : forall t0, In t0 tags0 -> is_param t0 = true ->
                               exists r, constructProperty schemas t0 = Ok r)
      by (intros t0 Hin; apply Htags; right; exact Hin).
    destruct (is_param t) eqn:Ht; cbn [negb fold_left].
    - destruct (Htags t (or_introl eq_refl) Ht) as [r Hr].
      rewrite (fileFormatTag_checked _ _ _ _ _ Ht Hr). exact (IH _ Hrest).
    - rewrite (fileFormatTag_group desc (comment_tags stream)
                 (filter (fun t => negb (is_param t)) (comment_tags stream)))
        by (symmetry; apply parseTag_parameters).
      exact (IH _ Hrest). }
  rewrite (Hfold _ _ Hchecked). reflexivity.
Qed.

End ParametersChecked.

(** ** Negation *)

Section Negation.

Context {host : Host}.



End Negation.

(** ** The further properties on sample inputs *)

(** [Object.<id.<integer>, name.<string>>] *)
Lemma X2_witness :
  forallb (fun kv => negb (String.eqb (fst kv) "__proto__"))
          [("id", NameExpression "integer"); ("name", NameExpression "string")]
  = true
  /\ constructPropertyType (host:=mute) [] None []
       (TypeApplication (NameExpression "Object")
          [ TypeApplication (NameExpression "id") [NameExpression "integer"];
            TypeApplication (NameExpression "name") [NameExpression "string"] ])
     = Ok (JObj [ ("type", JStr "object");
                  ("properties",
                   JObj [ ("id", JObj [("type", JStr "integer")]);
                          ("name", JObj [("type", JStr "string")]) ]) ]).
Proof.
  split; [reflexivity|].
  exact (proj1 (X2_object_properties (host:=mute) [] None [])
           [("id", NameExpression "integer"); ("name", NameExpression "string")]
           eq_refl).
Defined.

(** [null | string | number] *)
Lemma X5_witness :
  (2 <= List.length
          (filter (fun e => negb (is_NullLiteral e))
                  [NullLiteral; NameExpression "string"; NameExpression "number"]))%nat
  /\ constructPropertyType (host:=mute) [] None []
       (UnionType [NullLiteral; NameExpression "string"; NameExpression "number"])
     = Ok (JObj [ ("anyOf", JArr [ JObj [("type", JStr "string")];
                                   JObj [("type", JStr "number")] ]);
                  ("nullable", JBool true) ]).
Proof.
  split; [apply le_n|].
  exact (proj2 (proj2 (X5_union_branches (host:=mute) [] None []
                         [ NullLiteral; NameExpression "string";
                           NameExpression "number" ]))
           (le_n 2)).
Defined.

(** A reference to [User.id], before and after the registry gains the
    model [Order]. *)
Lemma X6_witness :
  (forall (model : string) (s : json),
      lookup model userRegistry = Some s ->
      lookup model (assign "Order" (JObj []) userRegistry) = Some s)
  /\ constructPropertyType (host:=mute) userRegistry (Some "user") []
       (NameExpression "User.id")
     = Ok (JObj [("$ref", JStr "#/components/schemas/User/properties/id")])
  /\ constructPropertyType (host:=mute)
       (assign "Order" (JObj []) userRegistry) (Some "order") []
       (NameExpression "User.id")
     = Ok (JObj [("$ref", JStr "#/components/schemas/User/properties/id")]).
Proof.
  assert (Hkept : forall (model : string) (s : json),
             lookup model userRegistry = Some s ->
             lookup model (assign "Order" (JObj []) userRegistry) = Some s).
  { intros model s. cbn. destruct (String.eqb model "User");
      [intros H; exact H | discriminate]. }
  split; [exact Hkept|]. split; [reflexivity|].
  exact (X6_registry_grows (host:=mute) userRegistry
           (assign "Order" (JObj []) userRegistry) (Some "user")
           (Some "order") [] (NameExpression "User.id") _ Hkept eq_refl).
Defined.

(** The line [toString: x], whose key the tables inherit. *)
Lemma X8_witness :
  parseOptions (host:=mute) "toString: x" = Ok [("toString", JStr "x")]
  /\ forallb option_key (keys [("toString", JStr "x")]) = true
  /\ lookup "items" [("toString", JStr "x")] = None.
Proof.
  split; [reflexivity|].
  pose proof (X8_option_keys (host:=mute) "toString: x"
                [("toString", JStr "x")] eq_refl) as H.
  exact (conj (proj1 H) (proj1 (proj2 H))).
Defined.


(** The description [the user]. *)
Lemma X10_witness :
  colon_free "the user" = true
  /\ keyword_key "the user" = false
  /\ parseOptions (host:=mute) "the user"
     = Ok [("description", JStr "the user")].
Proof.
  split; [reflexivity|]. split; [reflexivity|].
  apply (proj2 (X10_free_text (host:=mute))); [discriminate | reflexivity ..].
Defined.



(** A parameter in a cookie. *)
Lemma X13_witness :
  mem "cookie" ["query"; "path"; "body"; "headers"] = false
  /\ constructProperty (host:=mute) [] cookieParam
     = Throw (InvalidLocation (Some "session") "cookie").
Proof.
  split; [reflexivity|].
  exact (proj2 (X13_parameter_location (host:=mute) [] cookieParam)
           "cookie.session" "the session" eq_refl eq_refl eq_refl).
Defined.

(** The same parameter without a route before it. *)
Lemma X14_witness :
  forallb (fun t => negb (is_route t)) (comment_tags routeless) = true
  /\ fileFormat (host:=mute) [] routeless = Ok {| paths := []; tags := [] |}.
Proof.
  split; [reflexivity|].
  exact (X14_no_route (host:=mute) [] routeless eq_refl).
Defined.


(** Two groups after a route: the first one is returned. *)
Lemma X16_witness :
  is_group (mkTag "group" "foo - A") = true
  /\ parseTag [ mkTag "route" "GET /a"; mkTag "group" "foo - A";
                mkTag "group" "bar - B" ]
     = Ok ["foo "; " A"].
Proof.
  split; [reflexivity|].
  exact (proj1 (proj2 X16_first_group) [mkTag "route" "GET /a"]
           [mkTag "group" "bar - B"] (mkTag "group" "foo - A") "foo - A"
           eq_refl eq_refl eq_refl).
Defined.

(** [GET /users] *)
Lemma X17_witness :
  ascii_text "GET" = true
  /\ free_of (Text.eqc " ") "GET" = true
  /\ free_of (Text.eqc " ") "/users" = true
  /\ parseRoute "GET /users" = {| method := "get"; uri := "/users" |}.
Proof.
  split; [reflexivity|]. split; [reflexivity|]. split; [reflexivity|].
  exact (proj1 (proj2 X17_route_method "GET" "/users" eq_refl eq_refl
                  eq_refl)).
Defined.


(** The document of the users stream. *)
Lemma X19_witness :
  exists openapiObject : obj,
    generateSpecAndMount (host:=mute) userRegistry [] [[usersStream]]
    = Ok openapiObject
    /\ keys openapiObject
       = ["openapi"; "info"; "servers"; "tags"; "paths"; "components"]
    /\ lookup "openapi" openapiObject = Some (JStr "3.0.1").
Proof.
  eexists. split; [vm_compute; reflexivity|].
  pose proof (X19_document_frame (host:=mute) userRegistry []
                [[usersStream]] _ eq_refl) as H.
  split; [exact (proj1 H) | exact (proj1 (proj2 H))].
Defined.

(** The users stream and a stream whose URI is [toString]: the first URI
    is in the document, the second is not. *)
Lemma X20_witness :
  exists (openapiObject : obj) (f : fragment),
    generateSpecAndMount (host:=mute) userRegistry []
      [[usersStream; memberStream]]
    = Ok openapiObject
    /\ fileFormat (host:=mute) userRegistry memberStream = Ok f
    /\ keys (paths f) = ["toString"]
    /\ mem "/users" (uris openapiObject) = true
    /\ mem "toString" (uris openapiObject) = false.
Proof.
  eexists. eexists. split; [vm_compute; reflexivity|].
  split; [reflexivity|]. split; [reflexivity|].
  pose proof (X20_paths_kept (host:=mute) userRegistry []
                [[usersStream; memberStream]] _ eq_refl) as (_ & Hnew & Hold).
  split.
  - exact (Hnew [usersStream; memberStream] usersStream usersFragment
             "/users" (or_introl eq_refl) (or_introl eq_refl) eq_refl eq_refl
             eq_refl).
  - match goal with
    | |- ?m = false => destruct m eqn:Hm; [|reflexivity]
    end.
    discriminate (Hold [] "toString" eq_refl eq_refl Hm).
Defined.

(** The property of a primary key of type [INTEGER]. *)
Lemma X21_witness :
  Helpers.constructProperty tabled integerType (JBool false) (JBool true)
  = Ok [ ("nullable", JBool false); ("readOnly", JBool true);
         ("type", JStr "integer"); ("format", JStr "int32") ]
  /\ lookup "readOnly" [ ("nullable", JBool false); ("readOnly", JBool true);
                         ("type", JStr "integer"); ("format", JStr "int32") ]
     = Some (JBool true).
Proof.
  split; [reflexivity|].
  exact (proj2 (X21_property_flags tabled integerType (JBool false)
                  (JBool true) _ eq_refl)).
Defined.

(** The entry of the model [User]. *)
Lemma X22_witness :
  Helpers.rawAttributes userModel <> []
  /\ Helpers.constructRefModel tabled userModel = Ok userRegistry.
Proof.
  assert (H : Helpers.rawAttributes userModel <> []) by discriminate.
  split; [exact H|].
  exact (proj2 (X22_reference_model tabled userModel) H).
Defined.


(** The model [User] registered beside a model [Order]. *)
Lemma X24_witness :
  registerModels tabled [("Order", JObj [])] [userModel]
  = Ok (("Order", JObj []) :: userRegistry)
  /\ mem "Order" (map Helpers.modelName [userModel]) = false
  /\ lookup "Order" (("Order", JObj []) :: userRegistry)
     = lookup "Order" [("Order", JObj [])].
Proof.
  split; [reflexivity|]. split; [reflexivity|].
  exact (proj1 (X24_models_registered (host:=mute) tabled
                  [("Order", JObj [])] (("Order", JObj []) :: userRegistry)
                  [userModel] eq_refl)
           "Order" eq_refl).
Defined.

(** Two media types. *)
Lemma X25_witness :
  forallb ascii_text ["application/json"; "application/xml"] = true
  /\ forallb word ["application/json"; "application/xml"] = true
  /\ parseProduces "application/json application/xml"
     = ["application/json"; "application/xml"].
Proof.
  split; [reflexivity|]. split; [reflexivity|].
  exact (proj1 (proj2 X25_produces_words) "application/json"
           ["application/xml"] eq_refl eq_refl).
Defined.

(** A second tag [foo] and a tag [bar] attached to a catalog that has
    [foo]. *)
Lemma X26_witness :
  Deepmerge.distinct (map name [ {| name := "foo"; description := "A" |} ])
  = true
  /\ SwaggerHelpers._attachTags
       [ {| name := "foo"; description := "B" |};
         {| name := "bar"; description := "C" |} ]
       [ {| name := "foo"; description := "A" |} ]
     = [ {| name := "foo"; description := "A" |};
         {| name := "bar"; description := "C" |} ]
  /\ Deepmerge.distinct
       (map name
            (SwaggerHelpers._attachTags
               [ {| name := "foo"; description := "B" |};
                 {| name := "bar"; description := "C" |} ]
               [ {| name := "foo"; description := "A" |} ]))
     = true.
Proof.
  split; [reflexivity|]. split; [reflexivity|].
  exact (proj1 (proj2 (X26_catalog_of_names
                         [ {| name := "foo"; description := "B" |};
                           {| name := "bar"; description := "C" |} ]
                         [ {| name := "foo"; description := "A" |} ]))
           eq_refl).
Defined.

(** A description with two comment openers. *)
Lemma X27_witness :
  free_of (Text.eqc "/") "List " = true
  /\ parseDescription {| comment_description := "List /** the /** users";
                         comment_tags := [] |}
     = "List  the /** users".
Proof.
  split; [reflexivity|].
  exact (proj2 (X27_description_opening []) "List " " the /** users" eq_refl).
Defined.

(** The stream of the users with and without its parameter. *)
Lemma X28_witness :
  (exists r : parameter, constructProperty (host:=mute) [] nameParam = Ok r)
  /\ fileFormat (host:=mute) [] usersStream
     = fileFormat (host:=mute) []
         {| comment_description := "List the users";
            comment_tags := [ mkTag "route" "GET /users";
                              mkTag "group" "foo - desc" ] |}.
Proof.
  split; [eexists; reflexivity|].
  refine (X28_parameters_checked (host:=mute) [] usersStream _).
  intros t [<-|[<-|[<-|[]]]] Ht; try discriminate Ht.
  eexists; reflexivity.
Defined.

